(** * Share groups: orchestration API and group-type registry

    A shallow embedding of [manila/share_group/api.py] and
    [manila/share_group/group_types.py].

    Python values are embedded as follows.
    - [str] is a sequence of characters; a character is an [ascii], read as
      the code point of the same number (0..255).  Text operations work on
      [list ascii], string constants are written as [string] literals.
    - [dict] with string keys is a [gmap string _]; [d.get(k)] is [d !! k],
      with [None] for Python's [None].
    - an exception is a value of [exn]; a computation that may raise returns
      [result], and a computation that also updates the record store or
      sends messages returns the new [World] next to its result. *)

From Stdlib Require Import Ascii String NArith ZArith Bool List.
From stdpp Require Import gmap strings list fin_maps pretty.

Local Open Scope string_scope.

(** ** Python text primitives *)

Module PyStr.

Definition chars := list ascii.

Definition of_string (s : string) : chars := list_ascii_of_string s.

Definition code (c : ascii) : N := N_of_ascii c.

(** [str.isspace] on one character, for code points below 256. *)
Definition isspace (c : ascii) : bool :=
  let n := code c in
  ((9 <=? n) && (n <=? 13) || (28 <=? n) && (n <=? 32)
   || (n =? 133) || (n =? 160))%N.

(** [str.lower] on one character, for code points below 256. *)
Definition lower_char (c : ascii) : ascii :=
  let n := code c in
  if ((65 <=? n) && (n <=? 90)
      || (192 <=? n) && (n <=? 222) && negb (n =? 215))%N
  then ascii_of_N (n + 32) else c.

Definition lower (s : chars) : chars := map lower_char s.

Fixpoint lstrip (s : chars) : chars :=
  match s with
  | c :: s' => if isspace c then lstrip s' else s
  | [] => []
  end.

Definition rstrip (s : chars) : chars := rev (lstrip (rev s)).

Definition strip (s : chars) : chars := rstrip (lstrip s).

Definition eqb (a b : chars) : bool := bool_decide (a = b).

(** [x in (s1, s2, ...)] for a tuple of string constants. *)
Definition in_tuple (x : chars) (t : list string) : bool :=
  existsb (fun s => eqb x (of_string s)) t.

End PyStr.

(** ** Python values that reach the functions below *)

Inductive pyval :=
| PyNone
| PyBool (b : bool)
| PyInt (z : Z)
| PyStr (s : string).

(** [six.text_type(v)] *)
Definition text_type (v : pyval) : string :=
  match v with
  | PyNone => "None"
  | PyBool true => "True"
  | PyBool false => "False"
  | PyInt z => pretty z
  | PyStr s => s
  end.

(** ** Exceptions *)

Inductive exn :=
| InvalidInput (reason : string)
| InvalidShareGroup (reason : string)
| InvalidGroupSnapshot (reason : string)
| InvalidShareGroupType (reason : string)
| InvalidExtraSpec (reason : string)
| ShareTypeNotFound (share_type_id : string)
| ShareNetworkNotFound (share_network_id : string)
| ShareGroupTypeNotFound (type_id : option string)
| ShareGroupNotFound (share_group_id : string)
| GroupSnapshotNotFound (group_snapshot_id : string)
| ShareNotFound (share_id : string)
| ShareInstanceNotFound (share_instance_id : string)
| ValueError (detail : string)
| ServiceError (detail : string).

Inductive result (A : Type) :=
| Ok (a : A)
| Raise (e : exn).
Arguments Ok {A} a.
Arguments Raise {A} e.

(** ** The fragment of [re] used by [parse_boolean_extra_spec] *)

Module Re.
Import PyStr.


Definition captures := list (string * chars).


(** A literal under [re.IGNORECASE]: the subject character matches when
    its lower-case form is the lower-case form of the pattern's. *)
Definition lit_matches (c a : ascii) : bool :=
  bool_decide (lower_char a = lower_char c).





(** [m.group(name)] *)
Fixpoint group (m : captures) (name : string) : option chars :=
  match m with
  | (n, v) :: m' => if bool_decide (n = name) then Some v else group m' name
  | [] => None
  end.


End Re.

(** ** [oslo_utils.strutils.bool_from_string] *)

Module strutils.
Import PyStr.

Definition TRUE_STRINGS : list string := ["1"; "t"; "true"; "on"; "y"; "yes"].
Definition FALSE_STRINGS : list string := ["0"; "f"; "false"; "off"; "n"; "no"].

Definition unrecognized_msg (val : string) : string :=
  "Unrecognized value '" ++ val ++ "', acceptable values are: '0', '1', 'f', 'false', 'n', 'no', 'off', 'on', 't', 'true', 'y', 'yes'".

Definition bool_from_string (subject : pyval) (strict : bool)
           (default : bool) : result bool :=
  match subject with
  | PyBool b => Ok b
  | _ =>
      let lowered := lower (strip (of_string (text_type subject))) in
      if in_tuple lowered TRUE_STRINGS then Ok true
      else if in_tuple lowered FALSE_STRINGS then Ok false
      else if strict then
        Raise (ValueError (unrecognized_msg (text_type subject)))
      else Ok default
  end.

End strutils.

(** ** Records of the record store *)

(** Modelled from the spec: [manila.common.constants] is not part of the
    sources; the four statuses the API names and the extra-spec key are
    given the values of that module. *)
Module constants.
Definition STATUS_CREATING : string := "creating".
Definition STATUS_AVAILABLE : string := "available".
Definition STATUS_ERROR : string := "error".
Definition STATUS_DELETING : string := "deleting".
Definition DRIVER_HANDLES_SHARE_SERVERS : string :=
  "driver_handles_share_servers".
End constants.

Record Context := {
  ctx_user_id : string;
  ctx_project_id : string;
  ctx_is_admin : bool
}.

Record ShareType := {
  share_type_id : string;
  share_type_extra_specs : option (gmap string string)
}.

Record GroupType := {
  group_type_id : string;
  group_type_name : string;
  group_type_is_public : bool;
  (* the [share_type_id] of every mapping under ['share_types'] *)
  group_type_share_types : list string;
  group_type_extra_specs : option (gmap string string)
}.

Record ShareGroup := {
  sg_id : string;
  sg_name : option string;
  sg_description : option string;
  sg_user_id : string;
  sg_project_id : string;
  sg_status : string;
  sg_host : option string;
  sg_share_group_type_id : option string;
  sg_share_network_id : option string;
  sg_share_server_id : option string;
  sg_source_group_snapshot_id : option string;
  (* the [share_type_id] of every mapping under ['share_types'] *)
  sg_share_types : list string
}.

Record GroupSnapshot := {
  gs_id : string;
  gs_name : option string;
  gs_description : option string;
  gs_user_id : string;
  gs_project_id : string;
  gs_status : string;
  gs_share_group_id : string
}.

Record ShareInstance := {
  si_id : string;
  si_share_id : string;
  si_host : option string
}.

Record GroupSnapshotMember := {
  gsm_id : string;
  gsm_group_snapshot_id : string;
  gsm_user_id : string;
  gsm_project_id : string;
  gsm_status : string;
  gsm_size : Z;
  gsm_share_proto : string;
  gsm_share_id : string;
  gsm_share_instance_id : string;
  (* set by [member['share_instance'] = ...] while cloning *)
  gsm_share_instance : option ShareInstance
}.

Record Share := {
  share_id : string;
  share_status : string;
  share_size : Z;
  share_proto : string;
  share_share_type_id : string;
  share_share_group_id : option string;
  (* [s.instance['id']] *)
  share_instance_id : string
}.

(** The [options] dictionary of [API.create]. *)
Record GroupOptions := {
  opt_share_group_type_id : option string;
  opt_source_group_snapshot_id : option string;
  opt_share_network_id : option string;
  opt_share_server_id : option string;
  opt_name : option string;
  opt_description : option string;
  opt_user_id : string;
  opt_project_id : string;
  opt_status : string;
  opt_share_types : list string;
  (* ['host'], present only for a clone *)
  opt_host : option string
}.

(** The [options] dictionary of [API.create_group_snapshot]. *)
Record SnapshotOptions := {
  sopt_share_group_id : string;
  sopt_name : option string;
  sopt_description : option string;
  sopt_user_id : string;
  sopt_project_id : string;
  sopt_status : string
}.

Record MemberOptions := {
  mopt_group_snapshot_id : string;
  mopt_user_id : string;
  mopt_project_id : string;
  mopt_status : string;
  mopt_size : Z;
  mopt_share_proto : string;
  mopt_share_id : string;
  mopt_share_instance_id : string
}.

(** The [request_spec] dictionary of [API.create]: the group's id, every
    entry of [options] but ['share_types'], the share type objects under
    ['share_types'], and the group type under ['resource_type']. *)
Record RequestSpec := {
  rs_share_group_id : string;
  rs_share_group_type_id : option string;
  rs_source_group_snapshot_id : option string;
  rs_share_network_id : option string;
  rs_share_server_id : option string;
  rs_name : option string;
  rs_description : option string;
  rs_user_id : string;
  rs_project_id : string;
  rs_status : string;
  (* ['host'], present only for a clone *)
  rs_host : option string;
  rs_share_types : list ShareType;
  rs_resource_type : GroupType
}.

(** The arguments of [share_api.create] as [API.create] passes them. *)
Record ShareRequest := {
  req_share_proto : string;
  req_size : Z;
  req_share_group_id : string;
  req_group_snapshot_member : GroupSnapshotMember;
  req_share_type : ShareType;
  req_share_network_id : option string
}.

(** Messages handed to the scheduler and to the share manager. *)
Inductive RpcMsg :=
| scheduler_create_share_group (group_id : string) (request_spec : RequestSpec)
| share_create_share_group (group : ShareGroup) (host : option string)
| share_delete_share_group (group : ShareGroup)
| share_create_group_snapshot (snap : GroupSnapshot) (host : option string)
| share_delete_group_snapshot (snap : GroupSnapshot) (host : option string).

(** The record store together with the messages sent so far. *)
Record World := {
  share_groups : gmap string ShareGroup;
  group_snapshots : gmap string GroupSnapshot;
  group_snapshot_members : gmap string GroupSnapshotMember;
  shares : gmap string Share;
  share_instances : gmap string ShareInstance;
  share_networks : gset string;
  share_types_table : gmap string ShareType;
  group_types_table : gmap string GroupType;
  sent : list RpcMsg
}.

Definition set_share_groups (f : gmap string ShareGroup -> gmap string ShareGroup)
           (w : World) : World :=
  {| share_groups := f (share_groups w);
     group_snapshots := group_snapshots w;
     group_snapshot_members := group_snapshot_members w;
     shares := shares w;
     share_instances := share_instances w;
     share_networks := share_networks w;
     share_types_table := share_types_table w;
     group_types_table := group_types_table w;
     sent := sent w |}.

Definition set_group_snapshots
           (f : gmap string GroupSnapshot -> gmap string GroupSnapshot)
           (w : World) : World :=
  {| share_groups := share_groups w;
     group_snapshots := f (group_snapshots w);
     group_snapshot_members := group_snapshot_members w;
     shares := shares w;
     share_instances := share_instances w;
     share_networks := share_networks w;
     share_types_table := share_types_table w;
     group_types_table := group_types_table w;
     sent := sent w |}.

Definition set_group_snapshot_members
           (f : gmap string GroupSnapshotMember -> gmap string GroupSnapshotMember)
           (w : World) : World :=
  {| share_groups := share_groups w;
     group_snapshots := group_snapshots w;
     group_snapshot_members := f (group_snapshot_members w);
     shares := shares w;
     share_instances := share_instances w;
     share_networks := share_networks w;
     share_types_table := share_types_table w;
     group_types_table := group_types_table w;
     sent := sent w |}.

Definition set_shares (f : gmap string Share -> gmap string Share)
           (w : World) : World :=
  {| share_groups := share_groups w;
     group_snapshots := group_snapshots w;
     group_snapshot_members := group_snapshot_members w;
     shares := f (shares w);
     share_instances := share_instances w;
     share_networks := share_networks w;
     share_types_table := share_types_table w;
     group_types_table := group_types_table w;
     sent := sent w |}.

Definition set_sent (f : list RpcMsg -> list RpcMsg) (w : World) : World :=
  {| share_groups := share_groups w;
     group_snapshots := group_snapshots w;
     group_snapshot_members := group_snapshot_members w;
     shares := shares w;
     share_instances := share_instances w;
     share_networks := share_networks w;
     share_types_table := share_types_table w;
     group_types_table := group_types_table w;
     sent := f (sent w) |}.

(** ** Computations over the world that may raise *)

Definition M (A : Type) : Type := World -> result A * World.

Definition ret {A} (a : A) : M A := fun w => (Ok a, w).

Definition raise {A} (e : exn) : M A := fun w => (Raise e, w).

Definition bind {A B} (m : M A) (f : A -> M B) : M B :=
  fun w =>
    match m w with
    | (Ok a, w') => f a w'
    | (Raise e, w') => (Raise e, w')
    end.

(** A read of the store: the world is left as it is. *)
Definition reads {A} (f : World -> result A) : M A := fun w => (f w, w).

(** A write that cannot fail. *)
Definition writes (f : World -> World) : M unit := fun w => (Ok tt, f w).

(** [try: body  except Exception: handler(e)] *)
Definition try_except {A} (body : M A) (handler : exn -> M A) : M A :=
  fun w =>
    match body w with
    | (Ok a, w') => (Ok a, w')
    | (Raise e, w') => handler e w'
    end.

(** [with excutils.save_and_reraise_exception(): cleanup]: the cleanup
    runs and the saved exception is raised again; an exception of the
    cleanup itself replaces it. *)
Definition save_and_reraise_exception {A} (cleanup : M unit) (e : exn) : M A :=
  bind cleanup (fun _ => raise e).

(** [for x in l: body(x)] *)
Fixpoint for_each {A} (l : list A) (body : A -> M unit) : M unit :=
  match l with
  | [] => ret tt
  | x :: l' => bind (body x) (fun _ => for_each l' body)
  end.

Declare Scope M_scope.
Delimit Scope M_scope with M.
Notation "x <- m ;; k" := (bind m (fun x => k))
  (at level 20, m at level 99, k at level 200, only parsing) : M_scope.
Notation "' p <- m ;; k" := (bind m (fun x => let 'p := x in k))
  (at level 20, p pattern, m at level 99, k at level 200, only parsing)
  : M_scope.
Notation "m ;;; k" := (bind m (fun _ => k))
  (at level 100, k at level 200, right associativity, only parsing) : M_scope.

(** Python truthiness of an optional string: [None] and [''] are false. *)
Definition truthy (o : option string) : bool :=
  match o with
  | Some s => negb (bool_decide (s = ""))
  | None => false
  end.

(** ** The record store interface ([manila.db]) *)

(** Modelled from the spec: [manila.db] is not part of the sources; the
      spec's record store supports get, create, update, destroy and
      filtered listing.  A get, update or destroy of an absent record
      raises the NotFound exception of the record; create stores the
      record under the identifier it is given. *)
Module db.
Import constants.

Definition lookup_or {A} (tbl : gmap string A) (id : string) (e : exn)
  : result A :=
  match tbl !! id with
  | Some a => Ok a
  | None => Raise e
  end.

Definition share_group_get (id : string) (w : World) : result ShareGroup :=
  lookup_or (share_groups w) id (ShareGroupNotFound id).

Definition group_snapshot_get (id : string) (w : World)
  : result GroupSnapshot :=
  lookup_or (group_snapshots w) id (GroupSnapshotNotFound id).

Definition share_get (id : string) (w : World) : result Share :=
  lookup_or (shares w) id (ShareNotFound id).

Definition share_instance_get (id : string) (w : World)
  : result ShareInstance :=
  lookup_or (share_instances w) id (ShareInstanceNotFound id).

Definition share_type_get (id : string) (w : World) : result ShareType :=
  lookup_or (share_types_table w) id (ShareTypeNotFound id).

Definition share_network_get (id : string) (w : World) : result unit :=
  if bool_decide (id ∈ share_networks w) then Ok tt
  else Raise (ShareNetworkNotFound id).

Definition group_type_get (id : option string) (w : World)
  : result GroupType :=
  match id with
  | Some i => lookup_or (group_types_table w) i (ShareGroupTypeNotFound id)
  | None => Raise (ShareGroupTypeNotFound id)
  end.

Definition share_group_of_options (id : string) (o : GroupOptions)
  : ShareGroup :=
  {| sg_id := id;
     sg_name := opt_name o;
     sg_description := opt_description o;
     sg_user_id := opt_user_id o;
     sg_project_id := opt_project_id o;
     sg_status := opt_status o;
     sg_host := opt_host o;
     sg_share_group_type_id := opt_share_group_type_id o;
     sg_share_network_id := opt_share_network_id o;
     sg_share_server_id := opt_share_server_id o;
     sg_source_group_snapshot_id := opt_source_group_snapshot_id o;
     sg_share_types := opt_share_types o |}.

Definition share_group_create (id : string) (o : GroupOptions)
  : M ShareGroup :=
  fun w =>
    let g := share_group_of_options id o in
    (Ok g, set_share_groups (insert id g) w).

Definition share_group_destroy (id : string) : M unit :=
  fun w =>
    match share_groups w !! id with
    | Some _ => (Ok tt, set_share_groups (delete id) w)
    | None => (Raise (ShareGroupNotFound id), w)
    end.

Definition with_status (g : ShareGroup) (status : string) : ShareGroup :=
  {| sg_id := sg_id g;
     sg_name := sg_name g;
     sg_description := sg_description g;
     sg_user_id := sg_user_id g;
     sg_project_id := sg_project_id g;
     sg_status := status;
     sg_host := sg_host g;
     sg_share_group_type_id := sg_share_group_type_id g;
     sg_share_network_id := sg_share_network_id g;
     sg_share_server_id := sg_share_server_id g;
     sg_source_group_snapshot_id := sg_source_group_snapshot_id g;
     sg_share_types := sg_share_types g |}.

(** [share_group_update(ctx, id, {'status': status})] *)
Definition share_group_update_status (id : string) (status : string)
  : M ShareGroup :=
  fun w =>
    match share_groups w !! id with
    | Some g =>
        let g' := with_status g status in
        (Ok g', set_share_groups (insert id g') w)
    | None => (Raise (ShareGroupNotFound id), w)
    end.

Definition count_group_snapshots_in_share_group (id : string) (w : World)
  : nat :=
  size (filter (fun kv => gs_share_group_id (snd kv) = id)
               (group_snapshots w)).

Definition count_shares_in_share_group (id : string) (w : World) : nat :=
  size (filter (fun kv => share_share_group_id (snd kv) = Some id)
               (shares w)).

Definition share_get_all_by_share_group_id (id : string) (w : World)
  : list Share :=
  (map_to_list (filter (fun kv => share_share_group_id (snd kv) = Some id)
                       (shares w))).*2.

Definition group_snapshot_of_options (id : string) (o : SnapshotOptions)
  : GroupSnapshot :=
  {| gs_id := id;
     gs_name := sopt_name o;
     gs_description := sopt_description o;
     gs_user_id := sopt_user_id o;
     gs_project_id := sopt_project_id o;
     gs_status := sopt_status o;
     gs_share_group_id := sopt_share_group_id o |}.

Definition group_snapshot_create (id : string) (o : SnapshotOptions)
  : M GroupSnapshot :=
  fun w =>
    let snap := group_snapshot_of_options id o in
    (Ok snap, set_group_snapshots (insert id snap) w).

Definition snap_with_status (s : GroupSnapshot) (status : string)
  : GroupSnapshot :=
  {| gs_id := gs_id s;
     gs_name := gs_name s;
     gs_description := gs_description s;
     gs_user_id := gs_user_id s;
     gs_project_id := gs_project_id s;
     gs_status := status;
     gs_share_group_id := gs_share_group_id s |}.

Definition group_snapshot_update_status (id : string) (status : string)
  : M GroupSnapshot :=
  fun w =>
    match group_snapshots w !! id with
    | Some s =>
        let s' := snap_with_status s status in
        (Ok s', set_group_snapshots (insert id s') w)
    | None => (Raise (GroupSnapshotNotFound id), w)
    end.

Definition member_of_options (id : string) (o : MemberOptions)
  : GroupSnapshotMember :=
  {| gsm_id := id;
     gsm_group_snapshot_id := mopt_group_snapshot_id o;
     gsm_user_id := mopt_user_id o;
     gsm_project_id := mopt_project_id o;
     gsm_status := mopt_status o;
     gsm_size := mopt_size o;
     gsm_share_proto := mopt_share_proto o;
     gsm_share_id := mopt_share_id o;
     gsm_share_instance_id := mopt_share_instance_id o;
     gsm_share_instance := None |}.

Definition group_snapshot_member_create (id : string) (o : MemberOptions)
  : M GroupSnapshotMember :=
  fun w =>
    let m := member_of_options id o in
    (Ok m, set_group_snapshot_members (insert id m) w).

(** Destroys the snapshot and, with it, all of its members. *)
Definition group_snapshot_destroy (id : string) : M unit :=
  fun w =>
    match group_snapshots w !! id with
    | Some _ =>
        (Ok tt,
         set_group_snapshot_members
           (filter (fun kv => gsm_group_snapshot_id (snd kv) <> id))
           (set_group_snapshots (delete id) w))
    | None => (Raise (GroupSnapshotNotFound id), w)
    end.

Definition group_snapshot_members_get_all (snap_id : string) (w : World)
  : list GroupSnapshotMember :=
  (map_to_list (filter (fun kv => gsm_group_snapshot_id (snd kv) = snap_id)
                       (group_snapshot_members w))).*2.

End db.

(** Casts are fire-and-forget: the message is recorded as sent. *)
Definition cast (msg : RpcMsg) : M unit :=
  writes (set_sent (fun l => app l [msg])).

(** ** manila/share_group/group_types.py *)

Module group_types.
Import PyStr Re.




Definition get_group_type (id : option string) (w : World)
  : result GroupType :=
  match id with
  | None => Raise (InvalidShareGroupType "id cannot be None")
  | Some _ => db.group_type_get id w
  end.

(** The value tuples of a diff: [None] is Python's [None]. *)
Definition diff_entry : Type := option string * option string.

(** [k not in d or res[k][0] != res[k][1]] *)
Definition differs (d : gmap string string) (k : string) (e : diff_entry)
  : bool :=
  bool_decide (d !! k = None) || negb (bool_decide (e.1 = e.2)).

Definition _dict_diff (dict1 dict2 : option (gmap string string))
  : gmap string diff_entry * bool :=
  let dict1 := default ∅ dict1 in
  let dict2 := default ∅ dict2 in
  let pass1 :=
    foldl (fun (acc : gmap string diff_entry * bool) (kv : string * string) =>
             let e := (Some kv.2, dict2 !! kv.1) in
             (<[kv.1 := e]> acc.1,
              if differs dict2 kv.1 e then false else acc.2))
          (∅, true) (map_to_list dict1) in
  foldl (fun (acc : gmap string diff_entry * bool) (kv : string * string) =>
           let e := (dict1 !! kv.1, Some kv.2) in
           (<[kv.1 := e]> acc.1,
            if differs dict1 kv.1 e then false else acc.2))
        pass1 (map_to_list dict2).

(** The returned [diff] is the dictionary [{'extra_specs': ...}]; its
    one entry is returned. *)
Definition group_types_diff (group_type_id1 group_type_id2 : option string)
           (w : World) : result (gmap string diff_entry * bool) :=
  match get_group_type group_type_id1 w with
  | Raise e => Raise e
  | Ok group_type1 =>
      match get_group_type group_type_id2 w with
      | Raise e => Raise e
      | Ok group_type2 =>
          let extra_specs1 := group_type_extra_specs group_type1 in
          let extra_specs2 := group_type_extra_specs group_type2 in
          let '(d, equal) := _dict_diff extra_specs1 extra_specs2 in
          let all_equal := if negb equal then false else true in
          Ok (d, all_equal)
      end
  end.

End group_types.

(** ** manila/share_group/api.py *)

Module api.
Section API.
Import constants.
Local Open Scope M_scope.

(** The identifier the record store gives to a new record. *)
Variable generate_uuid : World -> string.

(** The Share Provisioning Service: the share it creates, or the
    exception it raises. *)
Variable share_api_create : ShareRequest -> World -> result Share.

Definition new_uuid : M string := fun w => (Ok (generate_uuid w), w).

Definition share_api_create_call (req : ShareRequest) : M unit :=
  fun w =>
    match share_api_create req w with
    | Ok sh => (Ok tt, set_shares (insert (share_id sh) sh) w)
    | Raise e => (Raise e, w)
    end.

Definition option_pyval (o : option string) : pyval :=
  match o with
  | Some s => PyStr s
  | None => PyNone
  end.

Definition msg_share_type_not_found (id : string) : string :=
  "Share type with id " ++ id ++ " could not be found".
Definition msg_conflicting : string :=
  "The specified share_types cannot have conflicting values for the driver_handles_share_servers extra spec.".
Definition msg_network_with_dhss_false : string :=
  "When using a share types with the driver_handles_share_servers extra spec as False, a share_network_id must not be provided.".
Definition msg_network_missing : string :=
  "The specified share network does not exist.".
Definition msg_network_required : string :=
  "When using a share type with the driver_handles_share_servers extra spec as True, a share_network_id must be provided.".
Definition msg_group_type_missing : string :=
  "The specified share group type does not exist.".
Definition msg_not_subset : string :=
  "The specified share types must be a subset of the share types supported by the share group type.".
Definition msg_snapshot_status : string :=
  "Share group snapshot status must be " ++ STATUS_AVAILABLE.

(** The part of the loop body of [create] under [if extra_specs:]:
    the new value of [driver_handles_share_servers], or the exception. *)
Definition check_extra_specs (share_type_object : ShareType)
           (share_network_id : option string)
           (driver_handles_share_servers : option bool)
  : result (option bool) :=
  match share_type_extra_specs share_type_object with
  | Some extra_specs =>
      if bool_decide (extra_specs = ∅) then Ok driver_handles_share_servers
      else
        match strutils.bool_from_string
                (option_pyval (extra_specs !! DRIVER_HANDLES_SHARE_SERVERS))
                false false with
        | Raise e => Raise e
        | Ok share_type_handle_ss =>
            match
              match driver_handles_share_servers with
              | None => Ok (Some share_type_handle_ss)
              | Some d =>
                  if negb (eqb d share_type_handle_ss)
                  then Raise (InvalidInput msg_conflicting)
                  else Ok (Some d)
              end
            with
            | Raise e => Raise e
            | Ok dhss =>
                if negb share_type_handle_ss && truthy share_network_id
                then Raise (InvalidInput msg_network_with_dhss_false)
                else Ok dhss
            end
        end
  | None => Ok driver_handles_share_servers
  end.

(** [for share_type_id in (share_type_ids or []): ...] *)
Fixpoint resolve_share_types (ids : list string)
         (share_network_id : option string)
         (share_type_objects : list ShareType)
         (driver_handles_share_servers : option bool) (w : World)
  : result (list ShareType * option bool) :=
  match ids with
  | [] => Ok (share_type_objects, driver_handles_share_servers)
  | share_type_id :: ids' =>
      match db.share_type_get share_type_id w with
      | Raise (ShareTypeNotFound _) =>
          Raise (InvalidInput (msg_share_type_not_found share_type_id))
      | Raise e => Raise e
      | Ok share_type_object =>
          match check_extra_specs share_type_object share_network_id
                  driver_handles_share_servers with
          | Raise e => Raise e
          | Ok dhss =>
              resolve_share_types ids' share_network_id
                (app share_type_objects [share_type_object]) dhss w
          end
      end
  end.

(** What the first block of [create] leaves in [group_snapshot],
    [original_group], [share_type_ids], [share_network_id] and
    [share_server_id]. *)
Record Source := {
  src_group_snapshot : option GroupSnapshot;
  src_original_group : option ShareGroup;
  src_share_type_ids : option (list string);
  src_share_network_id : option string;
  src_share_server_id : option string
}.

Definition no_source (share_type_ids : option (list string))
           (share_network_id : option string) : Source :=
  {| src_group_snapshot := None;
     src_original_group := None;
     src_share_type_ids := share_type_ids;
     src_share_network_id := share_network_id;
     src_share_server_id := None |}.

Definition resolve_source (share_type_ids : option (list string))
           (source_group_snapshot_id : option string)
           (share_network_id : option string) : M Source :=
  match source_group_snapshot_id with
  | Some sid =>
      if truthy source_group_snapshot_id then
        group_snapshot <- reads (db.group_snapshot_get sid) ;;
        if negb (bool_decide (gs_status group_snapshot = STATUS_AVAILABLE))
        then raise (InvalidGroupSnapshot msg_snapshot_status)
        else
          original_group <-
            reads (db.share_group_get (gs_share_group_id group_snapshot)) ;;
          ret {| src_group_snapshot := Some group_snapshot;
                 src_original_group := Some original_group;
                 src_share_type_ids := Some (sg_share_types original_group);
                 src_share_network_id := sg_share_network_id original_group;
                 src_share_server_id := sg_share_server_id original_group |}
      else ret (no_source share_type_ids share_network_id)
  | None => ret (no_source share_type_ids share_network_id)
  end.

(** [x or []] *)
Definition or_nil (l : option (list string)) : list string := default [] l.

(** [share_type_ids or supported_share_types], in the order in which
    the store iterates over it. *)
Definition share_types_or (share_type_ids : option (list string))
           (supported_share_types : gset string) : list string :=
  match share_type_ids with
  | Some (x :: l) => x :: l
  | _ => elements supported_share_types
  end.

Definition with_share_instance (m : GroupSnapshotMember)
           (i : ShareInstance) : GroupSnapshotMember :=
  {| gsm_id := gsm_id m;
     gsm_group_snapshot_id := gsm_group_snapshot_id m;
     gsm_user_id := gsm_user_id m;
     gsm_project_id := gsm_project_id m;
     gsm_status := gsm_status m;
     gsm_size := gsm_size m;
     gsm_share_proto := gsm_share_proto m;
     gsm_share_id := gsm_share_id m;
     gsm_share_instance_id := gsm_share_instance_id m;
     gsm_share_instance := Some i |}.

(** The body of [for member in members:] in [create]. *)
Definition clone_member (group : ShareGroup)
           (share_network_id : option string)
           (member : GroupSnapshotMember) : M unit :=
  share <- reads (db.share_get (gsm_share_id member)) ;;
  share_type <- reads (db.share_type_get (share_share_type_id share)) ;;
  share_instance <-
    reads (db.share_instance_get (gsm_share_instance_id member)) ;;
  share_api_create_call
    {| req_share_proto := gsm_share_proto member;
       req_size := gsm_size member;
       req_share_group_id := sg_id group;
       req_group_snapshot_member := with_share_instance member share_instance;
       req_share_type := share_type;
       req_share_network_id := share_network_id |}.

(** The body of the [try] in [create]. *)
Definition clone_members (group : ShareGroup)
           (group_snapshot : option GroupSnapshot)
           (source_group_snapshot_id : option string)
           (share_network_id : option string) : M unit :=
  match group_snapshot, source_group_snapshot_id with
  | Some _, Some sid =>
      members <-
        reads (fun w => Ok (db.group_snapshot_members_get_all sid w)) ;;
      for_each members (clone_member group share_network_id)
  | _, _ => ret tt
  end.

(** [try: if share_network_id: db.share_network_get(...)
     except ShareNetworkNotFound: raise InvalidInput] *)
Definition check_share_network (share_network_id : option string)
  : M unit :=
  match share_network_id with
  | Some net =>
      if truthy share_network_id then
        fun w =>
          match db.share_network_get net w with
          | Raise (ShareNetworkNotFound _) =>
              (Raise (InvalidInput msg_network_missing), w)
          | r => (r, w)
          end
      else ret tt
  | None => ret tt
  end.

(** [try: group_type = db.group_type_get(...)
     except ShareGroupTypeNotFound: raise InvalidInput] *)
Definition load_group_type (share_group_type_id : option string)
  : M GroupType :=
  fun w =>
    match db.group_type_get share_group_type_id w with
    | Raise (ShareGroupTypeNotFound _) =>
        (Raise (InvalidInput msg_group_type_missing), w)
    | r => (r, w)
    end.

(** What [create] holds once the group record is stored. *)
Record Persisted := {
  p_source : Source;
  p_share_type_objects : list ShareType;
  p_group_type : GroupType;
  p_options : GroupOptions;
  p_group : ShareGroup
}.

(** [create] up to and including
    [group = self.db.share_group_create(context, options)]. *)
Definition create_record (context : Context)
           (name description : option string)
           (share_type_ids : option (list string))
           (source_group_snapshot_id : option string)
           (share_network_id : option string)
           (share_group_type_id : option string) : M Persisted :=
  src <- resolve_source share_type_ids source_group_snapshot_id
           share_network_id ;;
  let group_snapshot := src_group_snapshot src in
  let original_group := src_original_group src in
  let share_type_ids := src_share_type_ids src in
  let share_network_id := src_share_network_id src in
  let share_server_id := src_share_server_id src in
  resolved <-
    reads (resolve_share_types (or_nil share_type_ids) share_network_id
             [] None) ;;
  let share_type_objects := fst resolved in
  let driver_handles_share_servers := snd resolved in
  check_share_network share_network_id ;;;
  (if bool_decide (driver_handles_share_servers = Some true)
      && negb (truthy source_group_snapshot_id || truthy share_network_id)
   then raise (InvalidInput msg_network_required)
   else ret tt) ;;;
  group_type <- load_group_type share_group_type_id ;;
  let supported_share_types : gset string :=
    list_to_set (group_type_share_types group_type) in
  (if negb (bool_decide
              ((list_to_set (or_nil share_type_ids) : gset string)
                 ⊆ supported_share_types))
   then raise (InvalidInput msg_not_subset)
   else ret tt) ;;;
  let options :=
    {| opt_share_group_type_id := share_group_type_id;
       opt_source_group_snapshot_id := source_group_snapshot_id;
       opt_share_network_id := share_network_id;
       opt_share_server_id := share_server_id;
       opt_name := name;
       opt_description := description;
       opt_user_id := ctx_user_id context;
       opt_project_id := ctx_project_id context;
       opt_status := STATUS_CREATING;
       opt_share_types := share_types_or share_type_ids supported_share_types;
       opt_host :=
         match original_group with
         | Some g => sg_host g
         | None => None
         end |} in
  id <- new_uuid ;;
  group <- db.share_group_create id options ;;
  ret {| p_source := src;
         p_share_type_objects := share_type_objects;
         p_group_type := group_type;
         p_options := options;
         p_group := group |}.

(** [request_spec = {'share_group_id': group['id']}
     request_spec.update(options)
     request_spec['share_types'] = share_type_objects
     request_spec['resource_type'] = group_type]: the share type ids of
    [options] are overwritten by the share type objects. *)
Definition request_spec_of (group_id : string) (options : GroupOptions)
           (share_type_objects : list ShareType) (group_type : GroupType)
  : RequestSpec :=
  {| rs_share_group_id := group_id;
     rs_share_group_type_id := opt_share_group_type_id options;
     rs_source_group_snapshot_id := opt_source_group_snapshot_id options;
     rs_share_network_id := opt_share_network_id options;
     rs_share_server_id := opt_share_server_id options;
     rs_name := opt_name options;
     rs_description := opt_description options;
     rs_user_id := opt_user_id options;
     rs_project_id := opt_project_id options;
     rs_status := opt_status options;
     rs_host := opt_host options;
     rs_share_types := share_type_objects;
     rs_resource_type := group_type |}.

(** [create]: the record, then the [try] block that clones the members
    of the source snapshot, then the dispatch. *)
Definition create (context : Context) (name description : option string)
           (share_type_ids : option (list string))
           (source_group_snapshot_id : option string)
           (share_network_id : option string)
           (share_group_type_id : option string) : M ShareGroup :=
  p <- create_record context name description share_type_ids
         source_group_snapshot_id share_network_id share_group_type_id ;;
  let group := p_group p in
  let group_snapshot := src_group_snapshot (p_source p) in
  let original_group := src_original_group (p_source p) in
  let share_network_id := src_share_network_id (p_source p) in
  try_except
    (clone_members group group_snapshot source_group_snapshot_id
       share_network_id)
    (save_and_reraise_exception (db.share_group_destroy (sg_id group))) ;;;
  let request_spec :=
    request_spec_of (sg_id group) (p_options p) (p_share_type_objects p)
      (p_group_type p) in
  (match group_snapshot, original_group with
   | Some _, Some og => cast (share_create_share_group group (sg_host og))
   | _, _ => cast (scheduler_create_share_group (sg_id group) request_spec)
   end) ;;;
  ret group.

Definition msg_group_statuses : string :=
  "Consistency group status must be one of ('available', 'error')".
Definition msg_has_snapshots : string :=
  "Cannot delete a consistency group with group_snapshots".
Definition msg_has_shares : string :=
  "Cannot delete a consistency group with shares".

Definition delete (context : Context) (group : ShareGroup) : M unit :=
  let group_id := sg_id group in
  if negb (truthy (sg_host group)) then
    db.share_group_destroy group_id
  else
    let statuses := [STATUS_AVAILABLE; STATUS_ERROR] in
    if negb (bool_decide (sg_status group ∈ statuses)) then
      raise (InvalidShareGroup msg_group_statuses)
    else
      n_snapshots <-
        reads (fun w =>
                 Ok (db.count_group_snapshots_in_share_group group_id w)) ;;
      if negb (Nat.eqb n_snapshots 0) then
        raise (InvalidShareGroup msg_has_snapshots)
      else
        n_shares <-
          reads (fun w => Ok (db.count_shares_in_share_group group_id w)) ;;
        if negb (Nat.eqb n_shares 0) then
          raise (InvalidShareGroup msg_has_shares)
        else
          group <- db.share_group_update_status group_id STATUS_DELETING ;;
          cast (share_delete_share_group group).

Definition msg_group_status : string :=
  "Share group status must be " ++ STATUS_AVAILABLE.
Definition msg_share_status (s : Share) : string :=
  "Share " ++ share_id s ++ " in share group must have status of "
    ++ STATUS_AVAILABLE ++ " in order to create a group snapshot".

(** [for s in shares: if not s['status'] == AVAILABLE: raise ...] *)
Fixpoint check_shares_available (l : list Share) : result unit :=
  match l with
  | [] => Ok tt
  | s :: l' =>
      if negb (bool_decide (share_status s = STATUS_AVAILABLE))
      then Raise (InvalidShareGroup (msg_share_status s))
      else check_shares_available l'
  end.

(** The body of the second [for s in shares:]. *)
Definition create_member (context : Context) (snap : GroupSnapshot)
           (s : Share) : M unit :=
  let member_options :=
    {| mopt_group_snapshot_id := gs_id snap;
       mopt_user_id := ctx_user_id context;
       mopt_project_id := ctx_project_id context;
       mopt_status := STATUS_CREATING;
       mopt_size := share_size s;
       mopt_share_proto := share_proto s;
       mopt_share_id := share_id s;
       mopt_share_instance_id := share_instance_id s |} in
  id <- new_uuid ;;
  member <- db.group_snapshot_member_create id member_options ;;
  ret tt.

Definition create_group_snapshot (context : Context)
           (name description : option string) (share_group_id : string)
  : M GroupSnapshot :=
  let options :=
    {| sopt_share_group_id := share_group_id;
       sopt_name := name;
       sopt_description := description;
       sopt_user_id := ctx_user_id context;
       sopt_project_id := ctx_project_id context;
       sopt_status := STATUS_CREATING |} in
  group <- reads (db.share_group_get share_group_id) ;;
  if negb (bool_decide (sg_status group = STATUS_AVAILABLE)) then
    raise (InvalidShareGroup msg_group_status)
  else
    shares <-
      reads (fun w =>
               Ok (db.share_get_all_by_share_group_id share_group_id w)) ;;
    reads (fun _ => check_shares_available shares) ;;;
    id <- new_uuid ;;
    snap <- db.group_snapshot_create id options ;;
    try_except
      (for_each shares (create_member context snap) ;;;
       cast (share_create_group_snapshot snap (sg_host group)))
      (save_and_reraise_exception (db.group_snapshot_destroy (gs_id snap)))
    ;;;
    ret snap.

Definition msg_snapshot_statuses : string :=
  "Consistency group snapshot status must be one of ('available', 'error')".

Definition delete_group_snapshot (context : Context) (snap : GroupSnapshot)
  : M unit :=
  let snap_id := gs_id snap in
  group <- reads (db.share_group_get (gs_share_group_id snap)) ;;
  let statuses := [STATUS_AVAILABLE; STATUS_ERROR] in
  if negb (bool_decide (gs_status snap ∈ statuses)) then
    raise (InvalidGroupSnapshot msg_snapshot_statuses)
  else
    db.group_snapshot_update_status snap_id STATUS_DELETING ;;;
    cast (share_delete_group_snapshot snap (sg_host group)).

End API.
End api.

(** ** Notions used to state the properties *)

Section Notions.
Import PyStr Re group_types constants api.







(** One iteration of either loop of [_dict_diff]. *)
Definition diff_step (other : gmap string string)
           (mk : string -> string -> diff_entry)
           (acc : gmap string diff_entry * bool) (kv : string * string)
  : gmap string diff_entry * bool :=
  (<[kv.1 := mk kv.1 kv.2]> acc.1,
   if differs other kv.1 (mk kv.1 kv.2) then false else acc.2).

(** The value a share type carries for [driver_handles_share_servers],
    as [create] reads it. *)
Definition dhss_value (extra_specs : gmap string string) : bool :=
  match strutils.bool_from_string
          (option_pyval (extra_specs !! DRIVER_HANDLES_SHARE_SERVERS))
          false false with
  | Ok b => b
  | Raise _ => false
  end.

(** A share type with no extra specs carries no value. *)
Definition declared_dhss (t : ShareType) : option bool :=
  match share_type_extra_specs t with
  | Some extra_specs =>
      if bool_decide (extra_specs = ∅) then None
      else Some (dhss_value extra_specs)
  | None => None
  end.

(** Two of the listed share types resolve and carry different values.
    The notion depends on which identifiers are listed, not on their
    order. *)
Definition conflicting (w : World) (ids : list string) : Prop :=
  exists id1 id2 t1 t2 b1 b2,
    id1 ∈ ids /\ id2 ∈ ids
    /\ share_types_table w !! id1 = Some t1
    /\ share_types_table w !! id2 = Some t2
    /\ declared_dhss t1 = Some b1 /\ declared_dhss t2 = Some b2
    /\ b1 ≠ b2.

(** What the first block of [create] leaves for a snapshot [snap] of the
    group [og]. *)
Definition inherited (snap : GroupSnapshot) (og : ShareGroup) : Source :=
  {| src_group_snapshot := Some snap;
     src_original_group := Some og;
     src_share_type_ids := Some (sg_share_types og);
     src_share_network_id := sg_share_network_id og;
     src_share_server_id := sg_share_server_id og |}.

(** The options [create] builds from what the earlier steps left. *)
Definition options_of (ctx : Context) (name desc : option string)
           (sid gt : option string) (src : Source) (group_type : GroupType)
  : GroupOptions :=
  {| opt_share_group_type_id := gt;
     opt_source_group_snapshot_id := sid;
     opt_share_network_id := src_share_network_id src;
     opt_share_server_id := src_share_server_id src;
     opt_name := name;
     opt_description := desc;
     opt_user_id := ctx_user_id ctx;
     opt_project_id := ctx_project_id ctx;
     opt_status := STATUS_CREATING;
     opt_share_types :=
       share_types_or (src_share_type_ids src)
         (list_to_set (group_type_share_types group_type));
     opt_host :=
       match src_original_group src with
       | Some g => sg_host g
       | None => None
       end |}.

End Notions.

(** ** A small deployment, used to run the functions *)

Module example.
Import constants.

Definition ctx : Context :=
  {| ctx_user_id := "user-1"; ctx_project_id := "project-1";
     ctx_is_admin := false |}.

Definition st_dhss_true : ShareType :=
  {| share_type_id := "st-true";
     share_type_extra_specs :=
       Some {[ DRIVER_HANDLES_SHARE_SERVERS := "True" ]} |}.

Definition st_dhss_false : ShareType :=
  {| share_type_id := "st-false";
     share_type_extra_specs :=
       Some {[ DRIVER_HANDLES_SHARE_SERVERS := "False" ]} |}.

Definition gt_both : GroupType :=
  {| group_type_id := "gt-both";
     group_type_name := "both";
     group_type_is_public := true;
     group_type_share_types := ["st-true"; "st-false"];
     group_type_extra_specs :=
       Some {[ "consistent_snapshot_support" := "host"; "tier" := "gold" ]} |}.

Definition gt_none : GroupType :=
  {| group_type_id := "gt-none";
     group_type_name := "none";
     group_type_is_public := false;
     group_type_share_types := [];
     group_type_extra_specs :=
       Some {[ "consistent_snapshot_support" := "pool"; "zone" := "a" ]} |}.

(** An available group on a host, holding one available share and one
    share still being created, and snapshotted once. *)
Definition group_placed : ShareGroup :=
  {| sg_id := "group-placed";
     sg_name := Some "placed";
     sg_description := None;
     sg_user_id := "user-1";
     sg_project_id := "project-1";
     sg_status := STATUS_AVAILABLE;
     sg_host := Some "host-1";
     sg_share_group_type_id := Some "gt-both";
     sg_share_network_id := Some "net-1";
     sg_share_server_id := Some "server-1";
     sg_source_group_snapshot_id := None;
     sg_share_types := ["st-true"] |}.

(** A group that was never scheduled, yet holds a share. *)
Definition group_unplaced : ShareGroup :=
  {| sg_id := "group-unplaced";
     sg_name := Some "unplaced";
     sg_description := None;
     sg_user_id := "user-1";
     sg_project_id := "project-1";
     sg_status := STATUS_CREATING;
     sg_host := None;
     sg_share_group_type_id := Some "gt-both";
     sg_share_network_id := None;
     sg_share_server_id := None;
     sg_source_group_snapshot_id := None;
     sg_share_types := ["st-false"] |}.

(** A group in error that has an available snapshot. *)
Definition group_failed : ShareGroup :=
  {| sg_id := "group-failed";
     sg_name := Some "failed";
     sg_description := None;
     sg_user_id := "user-1";
     sg_project_id := "project-1";
     sg_status := STATUS_ERROR;
     sg_host := Some "host-2";
     sg_share_group_type_id := Some "gt-both";
     sg_share_network_id := None;
     sg_share_server_id := None;
     sg_source_group_snapshot_id := None;
     sg_share_types := ["st-false"] |}.

Definition snap_placed : GroupSnapshot :=
  {| gs_id := "snap-placed";
     gs_name := None;
     gs_description := None;
     gs_user_id := "user-1";
     gs_project_id := "project-1";
     gs_status := STATUS_AVAILABLE;
     gs_share_group_id := "group-placed" |}.

Definition snap_failed : GroupSnapshot :=
  {| gs_id := "snap-failed";
     gs_name := None;
     gs_description := None;
     gs_user_id := "user-1";
     gs_project_id := "project-1";
     gs_status := STATUS_AVAILABLE;
     gs_share_group_id := "group-failed" |}.

Definition snap_creating : GroupSnapshot :=
  {| gs_id := "snap-creating";
     gs_name := None;
     gs_description := None;
     gs_user_id := "user-1";
     gs_project_id := "project-1";
     gs_status := STATUS_CREATING;
     gs_share_group_id := "group-placed" |}.

Definition share_ready : Share :=
  {| share_id := "share-ready";
     share_status := STATUS_AVAILABLE;
     share_size := 1;
     share_proto := "NFS";
     share_share_type_id := "st-true";
     share_share_group_id := Some "group-placed";
     share_instance_id := "instance-ready" |}.

Definition share_pending : Share :=
  {| share_id := "share-pending";
     share_status := STATUS_CREATING;
     share_size := 2;
     share_proto := "NFS";
     share_share_type_id := "st-true";
     share_share_group_id := Some "group-placed";
     share_instance_id := "instance-pending" |}.

Definition share_stray : Share :=
  {| share_id := "share-stray";
     share_status := STATUS_AVAILABLE;
     share_size := 1;
     share_proto := "CIFS";
     share_share_type_id := "st-false";
     share_share_group_id := Some "group-unplaced";
     share_instance_id := "instance-stray" |}.

Definition instance_ready : ShareInstance :=
  {| si_id := "instance-ready"; si_share_id := "share-ready";
     si_host := Some "host-1" |}.

Definition member_ready : GroupSnapshotMember :=
  {| gsm_id := "member-ready";
     gsm_group_snapshot_id := "snap-placed";
     gsm_user_id := "user-1";
     gsm_project_id := "project-1";
     gsm_status := STATUS_AVAILABLE;
     gsm_size := 1;
     gsm_share_proto := "NFS";
     gsm_share_id := "share-ready";
     gsm_share_instance_id := "instance-ready";
     gsm_share_instance := None |}.

Definition world : World :=
  {| share_groups :=
       {[ "group-placed" := group_placed;
          "group-unplaced" := group_unplaced;
          "group-failed" := group_failed ]};
     group_snapshots :=
       {[ "snap-placed" := snap_placed;
          "snap-failed" := snap_failed;
          "snap-creating" := snap_creating ]};
     group_snapshot_members := {[ "member-ready" := member_ready ]};
     shares :=
       {[ "share-ready" := share_ready;
          "share-pending" := share_pending;
          "share-stray" := share_stray ]};
     share_instances := {[ "instance-ready" := instance_ready ]};
     share_networks := {[ "net-1" ]};
     share_types_table :=
       {[ "st-true" := st_dhss_true; "st-false" := st_dhss_false ]};
     group_types_table := {[ "gt-both" := gt_both; "gt-none" := gt_none ]};
     sent := [] |}.

(** Identifiers are numbered after the groups already stored. *)
Definition generate_uuid (w : World) : string :=
  "group-" ++ pretty (size (share_groups w)).

(** A provisioning service that is out of capacity. *)
Definition share_api_failing (req : ShareRequest) (w : World) : result Share :=
  Raise (ServiceError "no valid host was found").

(** A provisioning service that creates the share it is asked for. *)
Definition share_api_working (req : ShareRequest) (w : World) : result Share :=
  Ok {| share_id := "share-" ++ pretty (size (shares w));
        share_status := STATUS_CREATING;
        share_size := req_size req;
        share_proto := req_share_proto req;
        share_share_type_id := share_type_id (req_share_type req);
        share_share_group_id := Some (req_share_group_id req);
        share_instance_id := "instance-" ++ pretty (size (shares w)) |}.

(** The record [create] stores when asked to clone [snap_placed], and
    the store at that point. *)
Definition cloned : api.Persisted :=
  let src := inherited snap_placed group_placed in
  let options :=
    options_of ctx None None (Some "snap-placed") (Some "gt-both") src
      gt_both in
  {| api.p_source := src;
     api.p_share_type_objects := [st_dhss_true];
     api.p_group_type := gt_both;
     api.p_options := options;
     api.p_group := db.share_group_of_options (generate_uuid world) options |}.

Definition world_cloned : World :=
  set_share_groups (insert (generate_uuid world) (api.p_group cloned)) world.

End example.

(** ** manila/share_group/api.py: the getters *)

Module api_getters.

(** [API.get] *)
Definition get (context : Context) (group_id : string) : M ShareGroup :=
  reads (db.share_group_get group_id).

(** [API.get_group_snapshot] *)
Definition get_group_snapshot (context : Context) (snapshot_id : string)
  : M GroupSnapshot :=
  reads (db.group_snapshot_get snapshot_id).

(** [API.get_all_group_snapshot_members] *)
Definition get_all_group_snapshot_members (context : Context)
           (group_snapshot_id : string) : M (list GroupSnapshotMember) :=
  reads (fun w => Ok (db.group_snapshot_members_get_all group_snapshot_id w)).

End api_getters.

(** ** manila/share_group/group_types.py: the rest of the registry *)

Module group_type_registry.

(** The functions below raise exceptions that the orchestration API
    never sees; [Manila] carries one of [exn]. *)
Inductive registry_exn :=
| Manila (e : exn)
| GroupTypeNotFound (reason : string)
| GroupTypeNotFoundByName (name : string)
| AttributeError (detail : string).

Inductive outcome (A : Type) :=
| Done (a : A)
| Fail (e : registry_exn).
Arguments Done {A} a.
Arguments Fail {A} e.

Definition of_result {A} (r : result A) : outcome A :=
  match r with
  | Ok a => Done a
  | Raise e => Fail (Manila e)
  end.

(** A value of [search_opts]: a dictionary of strings, as the
    [extra_specs] option expects, or anything else. *)
Inductive search_value :=
| SearchSpecs (d : gmap string string)
| SearchOther (v : pyval).

(** What [get_default_group_type] returns: [{}], a group type, or
    nothing at all. *)
Inductive default_type :=
| EmptyDict
| Found (t : GroupType)
| ReturnsNone.

(** What [get_group_type_extra_specs] returns: the whole dictionary, one
    value, or [False]. *)
Inductive specs_answer :=
| AllSpecs (extra_specs : option (gmap string string))
| OneSpec (value : string)
| IsFalse.

(** Modelled from the spec: [db.group_type_get_by_name] is not part of
    the sources; it returns the stored type of that name and raises
    [GroupTypeNotFoundByName] when there is none. *)
Definition group_type_get_by_name (name : string) (w : World)
  : outcome GroupType :=
  match filter (fun kv : string * GroupType =>
                  group_type_name kv.2 = name)
               (map_to_list (group_types_table w)) with
  | kv :: _ => Done kv.2
  | [] => Fail (GroupTypeNotFoundByName name)
  end.

Section Registry.

(** [db.group_type_get_all(context, inactive, filters=filters)], which
    is not part of the sources: the store's answer, by type name. *)
Variable group_type_get_all :
  Z -> gmap string search_value -> World -> gmap string GroupType.

(** [CONF.default_group_type] *)
Variable default_group_type : option string.

(** [uuidutils.is_uuid_like] *)
Variable is_uuid_like : string -> bool.

(** [_check_extra_specs_match(group_type, searchdict)], over the items
    of [searchdict]. *)
Fixpoint _check_extra_specs_match (group_type : GroupType)
         (items : list (string * string)) : outcome bool :=
  match items with
  | [] => Done true
  | (k, v) :: items' =>
      match group_type_extra_specs group_type with
      | None =>
          Fail (AttributeError "'NoneType' object has no attribute 'keys'")
      | Some extra_specs =>
          match extra_specs !! k with
          | None => Done false
          | Some x =>
              if negb (bool_decide (x = v)) then Done false
              else _check_extra_specs_match group_type items'
          end
      end
  end.

(** [for opt, values in search_opts.items(): ...]: whether the type is
    put into [result]. *)
Fixpoint any_filter_matches (type_args : GroupType)
         (opts : list (string * search_value)) : outcome bool :=
  match opts with
  | [] => Done false
  | (opt, values) :: opts' =>
      if bool_decide (opt = "extra_specs") then
        match values with
        | SearchSpecs d =>
            match _check_extra_specs_match type_args (map_to_list d) with
            | Fail e => Fail e
            | Done true => Done true
            | Done false => any_filter_matches type_args opts'
            end
        | SearchOther v =>
            Fail (AttributeError "object has no attribute 'items'")
        end
      else any_filter_matches type_args opts'
  end.

(** [for type_name, type_args in group_types.items(): ...] *)
Fixpoint filter_types (types : list (string * GroupType))
         (opts : list (string * search_value))
         (result : gmap string GroupType) : outcome (gmap string GroupType) :=
  match types with
  | [] => Done result
  | (type_name, type_args) :: types' =>
      match any_filter_matches type_args opts with
      | Fail e => Fail e
      | Done true =>
          filter_types types' opts (<[type_name := type_args]> result)
      | Done false => filter_types types' opts result
      end
  end.

Definition get_all_types (inactive : Z)
           (search_opts : option (gmap string search_value)) (w : World)
  : outcome (gmap string GroupType) :=
  let search_opts := default ∅ search_opts in
  let filters : gmap string search_value :=
    match search_opts !! "is_public" with
    | Some v => {[ "is_public" := v ]}
    | None => ∅
    end in
  let search_opts := delete "is_public" search_opts in
  let group_types := group_type_get_all inactive filters w in
  if bool_decide (search_opts = ∅) then Done group_types
  else
    filter_types (map_to_list group_types) (map_to_list search_opts) ∅.

Definition get_group_type_by_name (name : option string) (w : World)
  : outcome GroupType :=
  match name with
  | None => Fail (Manila (InvalidShareGroupType "name cannot be None"))
  | Some n => group_type_get_by_name n w
  end.

Definition get_default_group_type (w : World) : outcome default_type :=
  let name := default_group_type in
  match name with
  | None => Done EmptyDict
  | Some _ =>
      match get_group_type_by_name name w with
      | Done t => Done (Found t)
      | Fail (GroupTypeNotFoundByName _) => Done ReturnsNone
      | Fail e => Fail e
      end
  end.

Definition get_group_type_by_name_or_id (group_type : option string)
           (w : World) : outcome GroupType :=
  let from_default :=
    match get_default_group_type w with
    | Fail e => Fail e
    | Done (Found group_type_ref) => Done group_type_ref
    | Done _ => Fail (GroupTypeNotFound "Default group type not found")
    end in
  match group_type with
  | Some name =>
      if negb (truthy group_type) then from_default
      else if is_uuid_like name
      then of_result (group_types.get_group_type group_type w)
      else get_group_type_by_name group_type w
  | None => from_default
  end.

(** [get_group_type_extra_specs(group_type_id, key)]; [key] is [None]
    for the default [False]. *)
Definition get_group_type_extra_specs (group_type_id : option string)
           (key : option string) (w : World) : outcome specs_answer :=
  match group_types.get_group_type group_type_id w with
  | Raise e => Fail (Manila e)
  | Ok group_type =>
      let extra_specs := group_type_extra_specs group_type in
      match key with
      | Some k =>
          if truthy key then
            match extra_specs with
            | None =>
                Fail (AttributeError
                        "'NoneType' object has no attribute 'get'")
            | Some d =>
                (* [if extra_specs.get(key): return extra_specs.get(key)] *)
                match d !! k with
                | Some v => if truthy (Some v) then Done (OneSpec v)
                            else Done IsFalse
                | None => Done IsFalse
                end
            end
          else Done (AllSpecs extra_specs)
      | None => Done (AllSpecs extra_specs)
      end
  end.

End Registry.
End group_type_registry.

(** ** Notions used to state further properties *)

Section MoreNotions.
Import constants.

(** No share and no group snapshot of the store belongs to the group. *)
Definition group_is_empty (w : World) (group_id : string) : Prop :=
  (forall id s, shares w !! id = Some s ->
                share_share_group_id s ≠ Some group_id)
  /\ (forall id s, group_snapshots w !! id = Some s ->
                   gs_share_group_id s ≠ group_id).

(** The identifier generator never returns the identifier of a stored
    group, snapshot or member. *)
Definition generates_fresh (generate_uuid : World -> string) : Prop :=
  forall w,
    share_groups w !! generate_uuid w = None
    /\ group_snapshots w !! generate_uuid w = None
    /\ group_snapshot_members w !! generate_uuid w = None.

(** The options [create_group_snapshot] gives to the member of share [s]. *)
Definition member_options_of (context : Context) (snap : GroupSnapshot)
           (s : Share) : MemberOptions :=
  {| mopt_group_snapshot_id := gs_id snap;
     mopt_user_id := ctx_user_id context;
     mopt_project_id := ctx_project_id context;
     mopt_status := STATUS_CREATING;
     mopt_size := share_size s;
     mopt_share_proto := share_proto s;
     mopt_share_id := share_id s;
     mopt_share_instance_id := share_instance_id s |}.

(** The options a stored member was created with. *)
Definition options_of_member (m : GroupSnapshotMember) : MemberOptions :=
  {| mopt_group_snapshot_id := gsm_group_snapshot_id m;
     mopt_user_id := gsm_user_id m;
     mopt_project_id := gsm_project_id m;
     mopt_status := gsm_status m;
     mopt_size := gsm_size m;
     mopt_share_proto := gsm_share_proto m;
     mopt_share_id := gsm_share_id m;
     mopt_share_instance_id := gsm_share_instance_id m |}.

(** The snapshot record [create_group_snapshot] stores. *)
Definition snapshot_of (context : Context) (name description : option string)
           (share_group_id : string) (id : string) : GroupSnapshot :=
  db.group_snapshot_of_options id
    {| sopt_share_group_id := share_group_id;
       sopt_name := name;
       sopt_description := description;
       sopt_user_id := ctx_user_id context;
       sopt_project_id := ctx_project_id context;
       sopt_status := STATUS_CREATING |}.

(** The part of the search options that is handed to the store. *)
Definition public_filter
           (search_opts : gmap string group_type_registry.search_value)
  : gmap string group_type_registry.search_value :=
  filter (fun kv => kv.1 = "is_public") search_opts.

(** Every pair of the filter is in the type's extra specs. *)
Definition specs_match (d : gmap string string) (t : GroupType) : bool :=
  match group_type_extra_specs t with
  | Some extra_specs =>
      bool_decide (map_Forall (fun k v => extra_specs !! k = Some v) d)
  | None => false
  end.

(** The message [create] sends for the record [p]. *)
Definition dispatch_of (p : api.Persisted) : RpcMsg :=
  match api.src_group_snapshot (api.p_source p),
        api.src_original_group (api.p_source p) with
  | Some _, Some og => share_create_share_group (api.p_group p) (sg_host og)
  | _, _ =>
      scheduler_create_share_group (sg_id (api.p_group p))
        (api.request_spec_of (sg_id (api.p_group p)) (api.p_options p)
           (api.p_share_type_objects p) (api.p_group_type p))
  end.

End MoreNotions.

(** An identifier generator that is fresh by construction. *)
Module example_fresh.

Definition generate_uuid (w : World) : string :=
  fresh (dom (share_groups w) ∪ dom (group_snapshots w)
           ∪ dom (group_snapshot_members w)).

(** The store answers with every group type, by name. *)
Definition group_type_get_all (inactive : Z)
           (filters : gmap string group_type_registry.search_value)
           (w : World) : gmap string GroupType :=
  list_to_map
    ((fun kv : string * GroupType => (group_type_name kv.2, kv.2))
       <$> map_to_list (group_types_table w)).

Definition is_uuid_like (s : string) : bool :=
  bool_decide (String.length s = 36).

End example_fresh.

(** ** Runs on the example deployment *)

Module example_more.
Import constants.

(** The value a run returned. *)
Definition returned {A} (d : A) (r : result A) : A :=
  match r with
  | Ok a => a
  | Raise _ => d
  end.

(** The deployment once [share_pending] is gone: every share of
    [group_placed] is available. *)
Definition world_settled : World :=
  set_shares (delete "share-pending") example.world.

(** The deployment once [snap_failed] is gone: [group_failed] holds
    nothing. *)
Definition world_emptied : World :=
  set_group_snapshots (delete "snap-failed") example.world.

(** A group in creation on a host. *)
Definition group_creating : ShareGroup :=
  db.with_status example.group_placed STATUS_CREATING.

(** Creating a group from scratch. *)
Definition created : result ShareGroup * World :=
  api.create example.generate_uuid example.share_api_working example.ctx
    (Some "fresh") None None None None (Some "gt-both") example.world.

Definition created_group : ShareGroup :=
  returned example.group_unplaced created.1.

(** Cloning [snap_placed]. *)
Definition copied : result ShareGroup * World :=
  api.create example.generate_uuid example.share_api_working example.ctx
    None None None (Some "snap-placed") None (Some "gt-both") example.world.

Definition copied_group : ShareGroup :=
  returned example.group_unplaced copied.1.

(** Cloning [snap_placed] while the provisioning service fails. *)
Definition refused : result ShareGroup * World :=
  api.create example.generate_uuid example.share_api_failing example.ctx
    None None None (Some "snap-placed") None (Some "gt-both") example.world.

(** An available group that has no share types, and a snapshot of it. *)
Definition group_bare : ShareGroup :=
  {| sg_id := "group-bare";
     sg_name := Some "bare";
     sg_description := None;
     sg_user_id := "user-1";
     sg_project_id := "project-1";
     sg_status := STATUS_AVAILABLE;
     sg_host := Some "host-3";
     sg_share_group_type_id := Some "gt-none";
     sg_share_network_id := None;
     sg_share_server_id := None;
     sg_source_group_snapshot_id := None;
     sg_share_types := [] |}.

Definition snap_bare : GroupSnapshot :=
  {| gs_id := "snap-bare";
     gs_name := None;
     gs_description := None;
     gs_user_id := "user-1";
     gs_project_id := "project-1";
     gs_status := STATUS_AVAILABLE;
     gs_share_group_id := "group-bare" |}.

Definition world_bare : World :=
  set_group_snapshots (insert "snap-bare" snap_bare)
    (set_share_groups (insert "group-bare" group_bare) example.world).

(** Cloning [snap_bare] into a group of type [gt_both]. *)
Definition bare_copied : result ShareGroup * World :=
  api.create example.generate_uuid example.share_api_working example.ctx
    None None None (Some "snap-bare") None (Some "gt-both") world_bare.

(** The record stored when [snap_placed] is cloned, and the store once
    its member is cloned. *)
Definition copied_record : result api.Persisted * World :=
  api.create_record example.generate_uuid example.ctx None None
    (Some ["st-false"]) (Some "snap-placed") None (Some "gt-both")
    example.world.

Definition copied_members : result unit * World :=
  api.clone_members example.share_api_working
    (api.p_group example.cloned) (Some example.snap_placed)
    (Some "snap-placed") (sg_share_network_id example.group_placed)
    copied_record.2.

(** [snap_placed] with a second member, for [share_pending]. *)
Definition instance_pending : ShareInstance :=
  {| si_id := "instance-pending"; si_share_id := "share-pending";
     si_host := Some "host-1" |}.

Definition member_pending : GroupSnapshotMember :=
  {| gsm_id := "member-pending";
     gsm_group_snapshot_id := "snap-placed";
     gsm_user_id := "user-1";
     gsm_project_id := "project-1";
     gsm_status := STATUS_AVAILABLE;
     gsm_size := 2;
     gsm_share_proto := "NFS";
     gsm_share_id := "share-pending";
     gsm_share_instance_id := "instance-pending";
     gsm_share_instance := None |}.

Definition world_two_members : World :=
  {| share_groups := share_groups example.world;
     group_snapshots := group_snapshots example.world;
     group_snapshot_members :=
       <[ "member-pending" := member_pending ]>
         (group_snapshot_members example.world);
     shares := shares example.world;
     share_instances :=
       <[ "instance-pending" := instance_pending ]>
         (share_instances example.world);
     share_networks := share_networks example.world;
     share_types_table := share_types_table example.world;
     group_types_table := group_types_table example.world;
     sent := sent example.world |}.

(** A provisioning service with room for one more share. *)
Definition share_api_once (req : ShareRequest) (w : World) : result Share :=
  if bool_decide (size (shares w) = 3) then example.share_api_working req w
  else Raise (ServiceError "no valid host was found").

(** Cloning the two members of [snap_placed] with that service: the
    first share is created, the second is not. *)
Definition half_cloned : result ShareGroup * World :=
  api.create example.generate_uuid share_api_once example.ctx
    None None None (Some "snap-placed") None (Some "gt-both")
    world_two_members.

(** Snapshotting [group_placed]. *)
Definition snapshotted : result GroupSnapshot * World :=
  api.create_group_snapshot example_fresh.generate_uuid example.ctx
    (Some "nightly") None "group-placed" world_settled.

Definition snapshot : GroupSnapshot :=
  returned example.snap_creating snapshotted.1.

(** Search options: an extra-specs filter next to [is_public]. *)
Definition search_gold : gmap string group_type_registry.search_value :=
  {[ "extra_specs" := group_type_registry.SearchSpecs {[ "tier" := "gold" ]};
     "is_public" := group_type_registry.SearchOther (PyBool true) ]}.

(** Search options the registry does not know. *)
Definition search_name : gmap string group_type_registry.search_value :=
  {[ "name" := group_type_registry.SearchOther (PyStr "both") ]}.

End example_more.
(** * Properties *)

Section TextFacts.
Import PyStr.








End TextFacts.

Section RegexFacts.
Import PyStr Re group_types.





Lemma lit_matches_true (c a : ascii) :
  lower_char a = lower_char c -> lit_matches c a = true.
Proof. intros H. by apply bool_decide_eq_true. Qed.






End RegexFacts.

Section ParseBoolean.
Import PyStr Re group_types.










End ParseBoolean.

Section DictDiff.
Import group_types.

Lemma _dict_diff_steps (dict1 dict2 : option (gmap string string)) :
  _dict_diff dict1 dict2 =
  let d1 := default ∅ dict1 in
  let d2 := default ∅ dict2 in
  foldl (diff_step d1 (fun k v => (d1 !! k, Some v)))
        (foldl (diff_step d2 (fun k v => (Some v, d2 !! k)))
               (∅, true) (map_to_list d1))
        (map_to_list d2).
Proof. reflexivity. Qed.

Lemma pass_lookup (other : gmap string string)
        (mk : string -> string -> diff_entry) (entry : string -> diff_entry)
        (l : list (string * string))
        (acc : gmap string diff_entry * bool) (k : string) :
    (forall k v, (k, v) ∈ l -> mk k v = entry k) ->
    (foldl (diff_step other mk) acc l).1 !! k =
    if decide (k ∈ l.*1) then Some (entry k) else acc.1 !! k.
  Proof.
    revert acc. induction l as [|[k' v'] l IH]; intros acc Hmk; cbn [foldl].
    - by rewrite decide_False by set_solver.
    - rewrite IH by (intros; apply Hmk; set_solver).
      cbn [fmap list_fmap fst]. unfold diff_step at 1. cbn [fst snd].
      destruct (decide (k ∈ l.*1)) as [Hin | Hin].
      + by rewrite decide_True by set_solver.
      + destruct (decide (k = k')) as [-> | Hne].
        * rewrite decide_True by set_solver. rewrite lookup_insert_eq.
          f_equal. apply Hmk. set_solver.
        * rewrite decide_False by set_solver. by rewrite lookup_insert_ne.
  Qed.

Lemma pass_flag (other : gmap string string)
        (mk : string -> string -> diff_entry) (l : list (string * string))
        (acc : gmap string diff_entry * bool) :
    (foldl (diff_step other mk) acc l).2 = true <->
    acc.2 = true
    /\ forall k v, (k, v) ∈ l -> differs other k (mk k v) = false.
  Proof.
    revert acc. induction l as [|[k' v'] l IH]; intros acc; cbn [foldl].
    - split; [intros H; split; [done | set_solver] | tauto].
    - rewrite IH. unfold diff_step at 1. cbn [fst snd]. split.
      + intros [H1 H2]. destruct (differs other k' (mk k' v')) eqn:E;
          [done |]. split; [done |].
        intros k v [[= -> ->] | Hin]%elem_of_cons; [done | by apply H2].
      + intros [H1 H2]. split.
        * rewrite (H2 k' v') by set_solver. done.
        * intros k v Hin. apply H2. set_solver.
  Qed.

Lemma elem_of_map_to_list_keys (d : gmap string string) (k : string) :
  k ∈ (map_to_list d).*1 <-> is_Some (d !! k).
Proof.
  rewrite list_elem_of_fmap. split.
  - intros ([k' v] & -> & Hin). apply elem_of_map_to_list in Hin. by exists v.
  - intros [v Hv]. exists (k, v). split; [done |].
    by apply elem_of_map_to_list.
Qed.

Lemma differs_false (d : gmap string string) (k : string) (e : diff_entry) :
  differs d k e = false <-> is_Some (d !! k) /\ e.1 = e.2.
Proof.
  unfold differs. rewrite orb_false_iff, negb_false_iff.
  rewrite bool_decide_eq_false, bool_decide_eq_true.
  by rewrite <- not_eq_None_Some.
Qed.

Lemma _dict_diff_lookup (dict1 dict2 : option (gmap string string))
      (k : string) :
  let d1 := default ∅ dict1 in
  let d2 := default ∅ dict2 in
  (_dict_diff dict1 dict2).1 !! k =
  if decide (is_Some (d1 !! k) \/ is_Some (d2 !! k))
  then Some (d1 !! k, d2 !! k) else None.
Proof.
  intros d1 d2. rewrite _dict_diff_steps. fold d1 d2. cbn zeta.
  rewrite (pass_lookup d1 _ (fun k => (d1 !! k, d2 !! k))).
  2:{ intros k' v Hin. apply elem_of_map_to_list in Hin. by rewrite Hin. }
  rewrite (pass_lookup d2 _ (fun k => (d1 !! k, d2 !! k))).
  2:{ intros k' v Hin. apply elem_of_map_to_list in Hin. by rewrite Hin. }
  cbn [fst]. rewrite lookup_empty.
  repeat case_decide; try done;
    rewrite ?elem_of_map_to_list_keys in *; tauto.
Qed.

Lemma _dict_diff_equal (dict1 dict2 : option (gmap string string)) :
  let d1 := default ∅ dict1 in
  let d2 := default ∅ dict2 in
  (_dict_diff dict1 dict2).2 = true <-> forall k, d1 !! k = d2 !! k.
Proof.
  intros d1 d2. rewrite _dict_diff_steps. fold d1 d2. cbn zeta.
  rewrite !pass_flag. cbn [snd]. split.
  - intros [[_ H1] H2] k. destruct (d1 !! k) as [v|] eqn:E1.
    + apply elem_of_map_to_list, H1, differs_false in E1 as [_ E]. done.
    + destruct (d2 !! k) as [v|] eqn:E2; [| done].
      apply elem_of_map_to_list, H2, differs_false in E2 as [_ E].
      cbn [fst snd] in E. congruence.
  - intros H. split; [split; [done |] |]; intros k v Hin;
      apply elem_of_map_to_list in Hin; apply differs_false; cbn [fst snd].
    + rewrite <- H, Hin. eauto.
    + rewrite H, Hin. eauto.
Qed.

Lemma maps_differ_witness (d1 d2 : gmap string string) :
  ~ (forall k, d1 !! k = d2 !! k) ->
  exists k, k ∈ dom d1 ∪ dom d2 /\ d1 !! k ≠ d2 !! k.
Proof.
  intros Hne.
  destruct (set_Forall_Exists_dec
              (fun k => d1 !! k = d2 !! k) (fun k => d1 !! k ≠ d2 !! k)
              (fun k => decide (d1 !! k = d2 !! k)) (dom d1 ∪ dom d2))
    as [Hall | Hex]; [| exact Hex].
  exfalso. apply Hne. intros k.
  destruct (decide (k ∈ dom d1 ∪ dom d2)) as [Hin | Hout]; [by apply Hall |].
  rewrite elem_of_union, !elem_of_dom in Hout.
  destruct (d1 !! k) eqn:E1; [exfalso; eauto |].
  destruct (d2 !! k) eqn:E2; [exfalso; eauto | done].
Qed.

(** C9: for two stored group types, [group_types_diff] in the two orders
    returns diffs over the same keys, the keys of either extra-specs
    map, each entry being the pair of the two values ([None] for a
    missing one) and the pairs of the two orders being swapped, and the
    same [equal] flag, which is false exactly when some key is missing
    from one side or has different values. *)
Theorem group_types_diff_symmetric (w : World) (a b : string)
        (ta tb : GroupType) :
  group_types_table w !! a = Some ta ->
  group_types_table w !! b = Some tb ->
  let ea := default ∅ (group_type_extra_specs ta) in
  let eb := default ∅ (group_type_extra_specs tb) in
  exists (dab dba : gmap string diff_entry) (equal : bool),
    group_types_diff (Some a) (Some b) w = Ok (dab, equal)
    /\ group_types_diff (Some b) (Some a) w = Ok (dba, equal)
    /\ dom dab = dom dba
    /\ dom dab = dom ea ∪ dom eb
    /\ (forall k, k ∈ dom ea ∪ dom eb ->
          dab !! k = Some (ea !! k, eb !! k)
          /\ dba !! k = Some (eb !! k, ea !! k))
    /\ (equal = false <->
        exists k, k ∈ dom ea ∪ dom eb
                  /\ (k ∉ dom ea \/ k ∉ dom eb \/ ea !! k ≠ eb !! k)).
Proof.
  intros Ha Hb ea eb.
  unfold group_types_diff, get_group_type, db.group_type_get, db.lookup_or.
  rewrite Ha, Hb.
  destruct (_dict_diff (group_type_extra_specs ta) (group_type_extra_specs tb))
    as [dab eab] eqn:Eab.
  destruct (_dict_diff (group_type_extra_specs tb) (group_type_extra_specs ta))
    as [dba eba] eqn:Eba.
  assert (forall k, dab !! k =
                    if decide (is_Some (ea !! k) \/ is_Some (eb !! k))
                    then Some (ea !! k, eb !! k) else None) as Lab.
  { intros k. pose proof (_dict_diff_lookup (group_type_extra_specs ta)
                (group_type_extra_specs tb) k) as H.
    by rewrite Eab in H. }
  assert (forall k, dba !! k =
                    if decide (is_Some (eb !! k) \/ is_Some (ea !! k))
                    then Some (eb !! k, ea !! k) else None) as Lba.
  { intros k. pose proof (_dict_diff_lookup (group_type_extra_specs tb)
                (group_type_extra_specs ta) k) as H.
    by rewrite Eba in H. }
  assert (eab = true <-> forall k, ea !! k = eb !! k) as Fab.
  { pose proof (_dict_diff_equal (group_type_extra_specs ta)
                (group_type_extra_specs tb)) as H.
    by rewrite Eab in H. }
  assert (eba = true <-> forall k, eb !! k = ea !! k) as Fba.
  { pose proof (_dict_diff_equal (group_type_extra_specs tb)
                (group_type_extra_specs ta)) as H.
    by rewrite Eba in H. }
  assert (eba = eab) as ->.
  { destruct eab, eba; try done.
    - apply Fba. intros k. symmetry. by apply Fab.
    - symmetry. apply Fab. intros k. symmetry. by apply Fba. }
  assert (dom dab = dom ea ∪ dom eb) as Dab.
  { apply set_eq. intros k. rewrite elem_of_union, !elem_of_dom, Lab.
    case_decide; [split; [done | by eexists] |].
    split; [by intros [] | done]. }
  assert (dom dba = dom ea ∪ dom eb) as Dba.
  { apply set_eq. intros k. rewrite elem_of_union, !elem_of_dom, Lba.
    case_decide; [split; [tauto | by eexists] |].
    split; [by intros [] | tauto]. }
  exists dab, dba, eab.
  assert ((if negb eab then false else true) = eab) as -> by by destruct eab.
  split; [done |]. split; [done |]. split; [congruence |].
  split; [done |]. split.
  - intros k. rewrite elem_of_union, !elem_of_dom. intros Hk.
    rewrite Lab, Lba. rewrite !decide_True by tauto. done.
  - split.
    + intros ->. destruct (maps_differ_witness ea eb) as (k & Hk & Hne).
      { intros H. apply Fab in H. done. }
      exists k. eauto.
    + intros (k & Hk & Hdiff). destruct eab; [| done]. exfalso.
      assert (ea !! k = eb !! k) as E by by apply Fab.
      rewrite elem_of_union, !elem_of_dom in Hk.
      rewrite !elem_of_dom in Hdiff. rewrite E in *. tauto.
Qed.
End DictDiff.

Section DeleteFacts.
Import constants api.

(** C6: for a stored group whose host is unset, whatever its status and
    whatever it contains, [delete] succeeds, destroys the record and
    sends nothing. *)
Theorem delete_without_host (context : Context) (group stored : ShareGroup)
      (w : World) :
  truthy (sg_host group) = false ->
  share_groups w !! sg_id group = Some stored ->
  delete context group w
  = (Ok tt, set_share_groups (base.delete (sg_id group)) w)
  /\ share_groups (delete context group w).2 !! sg_id group = None
  /\ sent (delete context group w).2 = sent w.
Proof.
  intros Hhost Hstored. unfold delete. rewrite Hhost. cbn [negb].
  unfold db.share_group_destroy. rewrite Hstored.
  split; [done |]. cbn. split; [apply lookup_delete_eq | done].
Qed.

Lemma size_filter_pos {A} (P : string * A -> Prop)
      `{forall x, Decision (P x)} (m : gmap string A) (k : string) (a : A) :
  m !! k = Some a -> P (k, a) -> size (filter P m) ≠ 0.
Proof.
  intros Hk HP Hsize. apply map_size_empty_iff in Hsize.
  assert (filter P m !! k = Some a) as Hf by by apply map_lookup_filter_Some.
  by rewrite Hsize, lookup_empty in Hf.
Qed.

(** C2, as amended: for a group whose host is set and that contains at
    least one share or at least one group snapshot, [delete] fails with
    [InvalidShareGroup] and leaves the store, hence the group's status,
    as it was. *)
Theorem delete_placed_nonempty_group_fails (context : Context)
      (group : ShareGroup) (w : World) :
  truthy (sg_host group) = true ->
  (exists id s, shares w !! id = Some s
                /\ share_share_group_id s = Some (sg_id group))
  \/ (exists id s, group_snapshots w !! id = Some s
                   /\ gs_share_group_id s = sg_id group) ->
  exists msg, delete context group w = (Raise (InvalidShareGroup msg), w).
Proof.
  intros Hhost Hcontent. unfold delete. rewrite Hhost. cbn [negb].
  case_bool_decide; cbn [negb]; [| by eexists].
  unfold bind, reads, raise.
  destruct (Nat.eqb (db.count_group_snapshots_in_share_group _ w) 0) eqn:Esnap;
    cbn [negb]; [| by eexists].
  destruct (Nat.eqb (db.count_shares_in_share_group _ w) 0) eqn:Eshare;
    cbn [negb]; [| by eexists].
  exfalso. apply Nat.eqb_eq in Esnap, Eshare.
  destruct Hcontent as [(id & s & Hs & Hg) | (id & s & Hs & Hg)].
  - revert Eshare. by apply (size_filter_pos _ _ id s).
  - revert Esnap. by apply (size_filter_pos _ _ id s).
Qed.
End DeleteFacts.

Section SnapshotFacts.
Import constants api.
Variable generate_uuid : World -> string.

Lemma check_shares_available_fails (l : list Share) (s : Share) :
  s ∈ l -> share_status s ≠ STATUS_AVAILABLE ->
  exists msg, check_shares_available l = Raise (InvalidShareGroup msg).
Proof.
  intros Hin Hs. induction l as [|x l IH]; [by apply elem_of_nil in Hin |].
  cbn [check_shares_available]. case_bool_decide; cbn [negb]; [| by eexists].
  apply elem_of_cons in Hin as [-> | Hin]; [done | by apply IH].
Qed.

Lemma share_in_group_listed (w : World) (gid id : string) (s : Share) :
  shares w !! id = Some s -> share_share_group_id s = Some gid ->
  s ∈ db.share_get_all_by_share_group_id gid w.
Proof.
  intros Hs Hg. unfold db.share_get_all_by_share_group_id.
  apply list_elem_of_fmap. exists (id, s). split; [done |].
  apply elem_of_map_to_list. by apply map_lookup_filter_Some.
Qed.

(** C4: if the group's status is not AVAILABLE, or a share of the group
    has a status other than AVAILABLE, [create_group_snapshot] fails with
    [InvalidShareGroup] and the store is as it was: no snapshot and no
    member has been stored. *)
Theorem create_group_snapshot_requires_available
        (context : Context) (name description : option string)
        (share_group_id : string) (group : ShareGroup) (w : World) :
  share_groups w !! share_group_id = Some group ->
  sg_status group ≠ STATUS_AVAILABLE
  \/ (exists id s, shares w !! id = Some s
                   /\ share_share_group_id s = Some share_group_id
                   /\ share_status s ≠ STATUS_AVAILABLE) ->
  exists msg,
    create_group_snapshot generate_uuid context name description
      share_group_id w
    = (Raise (InvalidShareGroup msg), w).
Proof.
  intros Hgroup Hbad. unfold create_group_snapshot, bind, reads.
  unfold db.share_group_get, db.lookup_or. rewrite Hgroup.
  case_bool_decide as Hst; cbn [negb]; [| by eexists].
  destruct Hbad as [Hbad | (id & s & Hs & Hg & Hbad)]; [done |].
  destruct (check_shares_available_fails
              (db.share_get_all_by_share_group_id share_group_id w) s)
    as [msg ->]; [by eapply share_in_group_listed | done |].
  by eexists.
Qed.
End SnapshotFacts.

Section CreateFacts.
Import constants api.
Variable generate_uuid : World -> string.
Variable share_api_create : ShareRequest -> World -> result Share.

Abbreviation create := (api.create generate_uuid share_api_create).
Abbreviation create_record := (api.create_record generate_uuid).
Abbreviation clone_members := (api.clone_members share_api_create).
Abbreviation clone_member := (api.clone_member share_api_create).

Lemma resolve_source_reads tys sid net w r w' :
  resolve_source tys sid net w = (r, w') -> w' = w.
Proof.
  unfold resolve_source, bind, reads, raise, ret.
  destruct sid as [sid|]; [| by intros [= _ <-]].
  destruct (truthy (Some sid)); [| by intros [= _ <-]].
  destruct (db.group_snapshot_get sid w) as [snap|e]; [| by intros [= _ <-]].
  destruct (negb _); [by intros [= _ <-] |].
  destruct (db.share_group_get _ w); by intros [= _ <-].
Qed.

Lemma resolve_source_no_snapshot tys sid net w :
  truthy sid = false ->
  resolve_source tys sid net w = (Ok (no_source tys net), w).
Proof.
  intros H. unfold resolve_source. destruct sid as [sid|]; [| done].
  by rewrite H.
Qed.

Lemma resolve_source_snapshot tys sid net w snap og :
  truthy (Some sid) = true ->
  group_snapshots w !! sid = Some snap ->
  gs_status snap = STATUS_AVAILABLE ->
  share_groups w !! gs_share_group_id snap = Some og ->
  resolve_source tys (Some sid) net w = (Ok (inherited snap og), w).
Proof.
  intros Ht Hsnap Hst Hog. unfold resolve_source. rewrite Ht.
  unfold bind, reads, db.group_snapshot_get, db.share_group_get, db.lookup_or.
  rewrite Hsnap. rewrite bool_decide_eq_true_2 by done. cbn [negb].
  by rewrite Hog.
Qed.

Lemma create_record_source ctx name desc tys tys' sid net net' gt w src :
  resolve_source tys sid net w = (Ok src, w) ->
  resolve_source tys' sid net' w = (Ok src, w) ->
  create_record ctx name desc tys sid net gt w
  = create_record ctx name desc tys' sid net' gt w.
Proof.
  intros H H'. unfold api.create_record.
  unfold bind at 1. rewrite H. symmetry. unfold bind at 1. by rewrite H'.
Qed.

(** C5, as amended: a [create] call with a [source_group_snapshot_id]
    that names a snapshot whose own status is not AVAILABLE fails with
    [InvalidGroupSnapshot]. *)
Theorem create_requires_available_snapshot ctx name desc tys sid net gt w snap :
  truthy (Some sid) = true ->
  group_snapshots w !! sid = Some snap ->
  gs_status snap ≠ STATUS_AVAILABLE ->
  exists msg,
    create ctx name desc tys (Some sid) net gt w
    = (Raise (InvalidGroupSnapshot msg), w).
Proof.
  intros Ht Hsnap Hst. exists msg_snapshot_status.
  unfold api.create, api.create_record, resolve_source.
  rewrite Ht. unfold bind, reads, db.group_snapshot_get, db.lookup_or.
  rewrite Hsnap. by rewrite bool_decide_eq_false_2 by done.
Qed.

Lemma bool_from_string_total (v : pyval) (d : bool) :
  exists b, strutils.bool_from_string v false d = Ok b.
Proof.
  unfold strutils.bool_from_string.
  destruct v; eauto;
    repeat match goal with
           | |- context [if ?c then _ else _] => destruct c
           end; eauto.
Qed.

Lemma check_extra_specs_ok t net d d' :
  check_extra_specs t net d = Ok d' ->
  (forall b, d = Some b -> d' = Some b)
  /\ (forall b, declared_dhss t = Some b -> d' = Some b).
Proof.
  unfold check_extra_specs, declared_dhss, dhss_value.
  destruct (share_type_extra_specs t) as [es|]; [| by intros [= <-]].
  case_bool_decide; [by intros [= <-] |].
  destruct (bool_from_string_total
              (option_pyval (es !! DRIVER_HANDLES_SHARE_SERVERS)) false)
    as [ss ->].
  destruct d as [d|].
  - destruct (negb (eqb d ss)) eqn:E; [done |].
    apply negb_false_iff, eqb_prop in E as ->.
    destruct (negb ss && truthy net); [done |]. intros [= <-].
    split; intros b [= <-]; done.
  - destruct (negb ss && truthy net); [done |]. intros [= <-].
    split; [done | by intros b [= <-]].
Qed.

Lemma check_extra_specs_raise t net d e :
  check_extra_specs t net d = Raise e -> exists msg, e = InvalidInput msg.
Proof.
  unfold check_extra_specs.
  destruct (share_type_extra_specs t) as [es|]; [| done].
  case_bool_decide; [done |].
  destruct (bool_from_string_total
              (option_pyval (es !! DRIVER_HANDLES_SHARE_SERVERS)) false)
    as [ss ->].
  destruct d as [d|]; [destruct (negb (eqb d ss)) |];
    try destruct (negb ss && truthy net); intros [= <-]; by eexists.
Qed.

Lemma resolve_share_types_ok ids net objs d w objs' d' :
  resolve_share_types ids net objs d w = Ok (objs', d') ->
  (forall b, d = Some b -> d' = Some b)
  /\ (forall id t b,
         id ∈ ids -> share_types_table w !! id = Some t ->
         declared_dhss t = Some b -> d' = Some b).
Proof.
  revert objs d. induction ids as [|id ids IH]; intros objs d;
    cbn [resolve_share_types].
  - intros [= <- <-]. split; [done |]. intros ? ? ? Hin.
    by apply elem_of_nil in Hin.
  - unfold db.share_type_get, db.lookup_or.
    destruct (share_types_table w !! id) as [t|] eqn:Et; [| done].
    destruct (check_extra_specs t net d) as [d1|e] eqn:Ec; [| done].
    apply check_extra_specs_ok in Ec as [Hd Ht].
    intros [Hd1 Hids]%IH. split.
    + intros b Hb. by apply Hd1, Hd.
    + intros id' t' b [-> | Hin]%elem_of_cons Et' Hdecl.
      * rewrite Et in Et'. injection Et' as <-. by apply Hd1, Ht.
      * by eapply Hids.
Qed.

Lemma resolve_share_types_raise ids net objs d w e :
  resolve_share_types ids net objs d w = Raise e ->
  exists msg, e = InvalidInput msg.
Proof.
  revert objs d. induction ids as [|id ids IH]; intros objs d;
    cbn [resolve_share_types]; [done |].
  unfold db.share_type_get, db.lookup_or.
  destruct (share_types_table w !! id) as [t|]; [| intros [= <-]; by eexists].
  destruct (check_extra_specs t net d) as [d1|e1] eqn:Ec.
  - apply IH.
  - intros [= <-]. by eapply check_extra_specs_raise.
Qed.

Lemma resolve_share_types_conflicting ids net w :
  conflicting w ids ->
  exists msg, resolve_share_types ids net [] None w = Raise (InvalidInput msg).
Proof.
  intros (id1 & id2 & t1 & t2 & b1 & b2 & H1 & H2 & Ht1 & Ht2 & Hb1 & Hb2 & Hne).
  destruct (resolve_share_types ids net [] None w) as [[objs d]|e] eqn:E.
  - apply resolve_share_types_ok in E as [_ E]. exfalso.
    pose proof (E id1 t1 b1 H1 Ht1 Hb1) as E1.
    pose proof (E id2 t2 b2 H2 Ht2 Hb2) as E2. congruence.
  - apply resolve_share_types_raise in E as [msg ->]. by eexists.
Qed.

(** C3: a [create] call whose share types, as the first block of
    [create] leaves them, contain two that carry different
    [driver_handles_share_servers] values fails with [InvalidInput] and
    stores nothing; [conflicting] does not depend on the order in which
    the types are listed. *)
Theorem create_conflicting_share_types ctx name desc tys sid net gt w src :
  resolve_source tys sid net w = (Ok src, w) ->
  conflicting w (or_nil (src_share_type_ids src)) ->
  exists msg,
    create ctx name desc tys sid net gt w = (Raise (InvalidInput msg), w).
Proof.
  intros Hsrc Hconf.
  destruct (resolve_share_types_conflicting _ (src_share_network_id src) w Hconf)
    as [msg Hmsg].
  exists msg. unfold api.create, api.create_record.
  unfold bind at 1. unfold bind at 1. rewrite Hsrc.
  unfold bind at 1. unfold reads. by rewrite Hmsg.
Qed.

Lemma check_share_network_reads net w r w' :
  check_share_network net w = (r, w') -> w' = w.
Proof.
  unfold check_share_network, ret.
  destruct net as [n|]; [| by intros [= _ <-]].
  destruct (truthy (Some n)); [| by intros [= _ <-]].
  destruct (db.share_network_get n w) as [|[]]; by intros [= _ <-].
Qed.

Lemma load_group_type_reads gt w r w' :
  load_group_type gt w = (r, w') -> w' = w.
Proof.
  unfold load_group_type.
  destruct (db.group_type_get gt w) as [|[]]; by intros [= _ <-].
Qed.

Lemma load_group_type_ok gt w t w' :
  load_group_type gt w = (Ok t, w') ->
  exists id, gt = Some id /\ group_types_table w !! id = Some t.
Proof.
  unfold load_group_type, db.group_type_get, db.lookup_or.
  destruct gt as [id|]; [| done].
  destruct (group_types_table w !! id) as [t'|] eqn:E; [| done].
  intros [= <- _]. eauto.
Qed.

Lemma create_record_ok ctx name desc tys sid net gt w p w1 :
  create_record ctx name desc tys sid net gt w = (Ok p, w1) ->
  resolve_source tys sid net w = (Ok (p_source p), w)
  /\ (exists id, gt = Some id
                 /\ group_types_table w !! id = Some (p_group_type p))
  /\ p_options p = options_of ctx name desc sid gt (p_source p) (p_group_type p)
  /\ p_group p = db.share_group_of_options (generate_uuid w) (p_options p)
  /\ w1 = set_share_groups (insert (generate_uuid w) (p_group p)) w.
Proof.
  unfold api.create_record. unfold bind at 1.
  destruct (resolve_source tys sid net w) as [[src|e] w0] eqn:Esrc; [| done].
  apply resolve_source_reads in Esrc as Hw0. subst w0.
  unfold bind at 1. unfold reads at 1.
  destruct (resolve_share_types _ _ _ _ w) as [[objs d]|e]; [| done].
  unfold bind at 1.
  destruct (check_share_network _ w) as [[[]|e] w0] eqn:Enet; [| done].
  apply check_share_network_reads in Enet. subst w0.
  unfold bind at 1. destruct (_ && _); [done |]. unfold ret at 1.
  unfold bind at 1.
  destruct (load_group_type gt w) as [[t|e] w0] eqn:Egt; [| done].
  apply load_group_type_reads in Egt as Hw0. subst w0.
  apply load_group_type_ok in Egt.
  unfold bind at 1. destruct (negb _); [done |]. unfold ret at 1.
  unfold bind, new_uuid, db.share_group_create, ret.
  intros [= <- <-]. cbn. done.
Qed.

Lemma create_record_raise ctx name desc tys sid net gt w e w1 :
  create_record ctx name desc tys sid net gt w = (Raise e, w1) -> w1 = w.
Proof.
  unfold api.create_record. unfold bind at 1.
  destruct (resolve_source tys sid net w) as [[src|e'] w0] eqn:Esrc;
    apply resolve_source_reads in Esrc; subst w0; [| by intros [= _ <-]].
  unfold bind at 1. unfold reads at 1.
  destruct (resolve_share_types _ _ _ _ w) as [[objs d]|e'];
    [| by intros [= _ <-]].
  unfold bind at 1.
  destruct (check_share_network _ w) as [[[]|e'] w0] eqn:Enet;
    apply check_share_network_reads in Enet; subst w0; [| by intros [= _ <-]].
  unfold bind at 1. destruct (_ && _); [by intros [= _ <-] |]. unfold ret at 1.
  unfold bind at 1.
  destruct (load_group_type gt w) as [[t|e'] w0] eqn:Egt;
    apply load_group_type_reads in Egt; subst w0; [| by intros [= _ <-]].
  unfold bind at 1. destruct (negb _); [by intros [= _ <-] |]. done.
Qed.

(** Cloning touches the shares only. *)
Lemma clone_member_frame group net member w r w' :
  clone_member group net member w = (r, w') ->
  share_groups w' = share_groups w /\ sent w' = sent w
  /\ group_snapshots w' = group_snapshots w
  /\ group_snapshot_members w' = group_snapshot_members w.
Proof.
  unfold api.clone_member, bind, reads, share_api_create_call.
  destruct (db.share_get _ w); [| by intros [= _ <-]].
  destruct (db.share_type_get _ w); [| by intros [= _ <-]].
  destruct (db.share_instance_get _ w); [| by intros [= _ <-]].
  destruct (share_api_create _ w); by intros [= _ <-].
Qed.

Lemma for_each_clone_frame group net members w r w' :
  for_each members (clone_member group net) w = (r, w') ->
  share_groups w' = share_groups w /\ sent w' = sent w
  /\ group_snapshots w' = group_snapshots w
  /\ group_snapshot_members w' = group_snapshot_members w.
Proof.
  revert w. induction members as [|m members IH]; intros w; cbn [for_each].
  - by intros [= _ <-].
  - unfold bind.
    destruct (clone_member group net m w) as [[[]|e] w1] eqn:E;
      apply clone_member_frame in E as (E1 & E2 & E3 & E4).
    + intros (-> & -> & -> & ->)%IH. done.
    + by intros [= _ <-].
Qed.

Lemma clone_members_frame group snap sid net w r w' :
  clone_members group snap sid net w = (r, w') ->
  share_groups w' = share_groups w /\ sent w' = sent w
  /\ group_snapshots w' = group_snapshots w
  /\ group_snapshot_members w' = group_snapshot_members w.
Proof.
  unfold api.clone_members.
  destruct snap; [| by intros [= _ <-]].
  destruct sid; [| by intros [= _ <-]].
  unfold bind, reads. apply for_each_clone_frame.
Qed.

(** The loop stops at the first member whose share cannot be created. *)
Lemma for_each_raises {A} (body : A -> M unit) (l1 l2 : list A) (x : A)
      (w w1 w2 : World) (e : exn) :
  for_each l1 body w = (Ok tt, w1) ->
  body x w1 = (Raise e, w2) ->
  for_each (app l1 (x :: l2)) body w = (Raise e, w2).
Proof.
  revert w. induction l1 as [|y l1 IH]; intros w; cbn [for_each app].
  - intros [= <-] Hx. unfold bind. by rewrite Hx.
  - unfold bind. destruct (body y w) as [[[]|e'] w'] eqn:Ey; [| done].
    intros H1 Hx. by apply IH.
Qed.

Lemma clone_member_share_api_raises group net member w share share_type
      share_instance e :
  shares w !! gsm_share_id member = Some share ->
  share_types_table w !! share_share_type_id share = Some share_type ->
  share_instances w !! gsm_share_instance_id member = Some share_instance ->
  share_api_create
    {| req_share_proto := gsm_share_proto member;
       req_size := gsm_size member;
       req_share_group_id := sg_id group;
       req_group_snapshot_member := with_share_instance member share_instance;
       req_share_type := share_type;
       req_share_network_id := net |} w = Raise e ->
  clone_member group net member w = (Raise e, w).
Proof.
  intros Hs Ht Hi He.
  unfold api.clone_member, bind, reads, share_api_create_call.
  unfold db.share_get, db.share_type_get, db.share_instance_get, db.lookup_or.
  by rewrite Hs, Ht, Hi, He.
Qed.

(** C1: in a [create] call that has stored the new group record, if the
    cloning of the source snapshot's members raises [e] (a share could
    not be created), the call raises that same [e], the record just
    stored is destroyed, so that no group is left under its identifier,
    and nothing has been sent. *)
Theorem create_clone_failure_destroys_group
        ctx name desc tys sid net gt w p w1 e w2 :
  create_record ctx name desc tys sid net gt w = (Ok p, w1) ->
  clone_members (p_group p) (src_group_snapshot (p_source p)) sid
    (src_share_network_id (p_source p)) w1 = (Raise e, w2) ->
  let w3 := set_share_groups (base.delete (sg_id (p_group p))) w2 in
  create ctx name desc tys sid net gt w = (Raise e, w3)
  /\ share_groups w1 !! sg_id (p_group p) = Some (p_group p)
  /\ share_groups w3 !! sg_id (p_group p) = None
  /\ sent w3 = sent w.
Proof.
  intros Hrec Hclone w3.
  pose proof (create_record_ok _ _ _ _ _ _ _ _ _ _ Hrec)
    as (_ & _ & _ & Hgroup & Hw1).
  pose proof (clone_members_frame _ _ _ _ _ _ _ Hclone) as (Hg & Hs & _).
  assert (sg_id (p_group p) = generate_uuid w) as Hid by by rewrite Hgroup.
  assert (share_groups w1 !! sg_id (p_group p) = Some (p_group p)) as Hin.
  { rewrite Hw1, Hid. cbn. apply lookup_insert_eq. }
  split; [| split; [done | split]].
  - unfold api.create. unfold bind at 1. rewrite Hrec.
    unfold bind at 1. unfold try_except. rewrite Hclone.
    unfold save_and_reraise_exception, bind, db.share_group_destroy.
    by rewrite Hg, Hin.
  - cbn. apply lookup_delete_eq.
  - cbn. rewrite Hs, Hw1. done.
Qed.

Lemma create_ok ctx name desc tys sid net gt w g w' :
  create ctx name desc tys sid net gt w = (Ok g, w') ->
  exists p w1,
    create_record ctx name desc tys sid net gt w = (Ok p, w1)
    /\ g = p_group p
    /\ share_groups w' = share_groups w1.
Proof.
  unfold api.create. unfold bind at 1.
  destruct (create_record ctx name desc tys sid net gt w)
    as [[p|e] w1] eqn:Hrec; [| done].
  unfold bind at 1. unfold try_except.
  destruct (clone_members _ _ _ _ w1) as [[[]|e] w2] eqn:Hclone.
  - apply clone_members_frame in Hclone as (Hg & _).
    unfold bind at 1.
    destruct (src_group_snapshot (p_source p)), (src_original_group (p_source p));
      unfold cast, writes, ret; intros [= <- <-]; exists p, w1; done.
  - unfold save_and_reraise_exception, bind, db.share_group_destroy, raise.
    destruct (share_groups w2 !! _); done.
Qed.

Lemma create_of_record_ok ctx name desc tys sid net gt w p w1 w2 :
  create_record ctx name desc tys sid net gt w = (Ok p, w1) ->
  clone_members (p_group p) (src_group_snapshot (p_source p)) sid
    (src_share_network_id (p_source p)) w1 = (Ok tt, w2) ->
  create ctx name desc tys sid net gt w
  = (Ok (p_group p), set_sent (fun l => app l [dispatch_of p]) w2).
Proof.
  intros Hrec Hclone. unfold api.create. unfold bind at 1. rewrite Hrec.
  unfold bind at 1. unfold try_except. rewrite Hclone.
  unfold bind at 1. unfold dispatch_of.
  by destruct (src_group_snapshot (p_source p)),
       (src_original_group (p_source p)).
Qed.

(** C7, as amended: take a [create] call from an available snapshot of
    a stored group that passes validation, so that the group record is
    stored.  The stored group has the parent group's network and server
    and, if the parent has any share type, the parent's share types; if
    the parent has none, it has the share types of the group type.  The
    record is the same whatever the caller supplied for the share types
    and the network.  If the members are then cloned without a failure,
    [create] returns this group, stored, and sends it to the share
    manager of the parent's host. *)
Theorem create_from_snapshot_inherits
        ctx name desc tys sid net gt w snap og p w1 :
  truthy (Some sid) = true ->
  group_snapshots w !! sid = Some snap ->
  gs_status snap = STATUS_AVAILABLE ->
  share_groups w !! gs_share_group_id snap = Some og ->
  create_record ctx name desc tys (Some sid) net gt w = (Ok p, w1) ->
  let g := p_group p in
  share_groups w1 !! sg_id g = Some g
  /\ sg_source_group_snapshot_id g = Some sid
  /\ sg_share_network_id g = sg_share_network_id og
  /\ sg_share_server_id g = sg_share_server_id og
  /\ (sg_share_types og ≠ [] -> sg_share_types g = sg_share_types og)
  /\ (sg_share_types og = [] ->
      exists gtid group_type,
        gt = Some gtid
        /\ group_types_table w !! gtid = Some group_type
        /\ sg_share_types g
           = elements (list_to_set (group_type_share_types group_type)
                       : gset string))
  /\ (forall tys' net',
        create_record ctx name desc tys' (Some sid) net' gt w = (Ok p, w1))
  /\ (forall w2,
        clone_members g (Some snap) (Some sid) (sg_share_network_id og) w1
        = (Ok tt, w2) ->
        forall tys' net',
          create ctx name desc tys' (Some sid) net' gt w
          = (Ok g,
             set_sent
               (fun l => app l [share_create_share_group g (sg_host og)]) w2)
          /\ share_groups
               (set_sent
                  (fun l => app l [share_create_share_group g (sg_host og)])
                  w2) !! sg_id g = Some g).
Proof.
  intros Ht Hsnap Hst Hog Hrec g.
  pose proof (fun tys net =>
                resolve_source_snapshot tys sid net w snap og Ht Hsnap Hst Hog)
    as Hsrc.
  assert (forall tys' net',
             create_record ctx name desc tys' (Some sid) net' gt w = (Ok p, w1))
    as Hany.
  { intros tys' net'. rewrite <- Hrec.
    by apply (create_record_source ctx name desc tys' tys (Some sid) net' net
                gt w (inherited snap og)). }
  pose proof (create_record_ok _ _ _ _ _ _ _ _ _ _ Hrec)
    as (Hp & (gtid & -> & Hgt) & Hopt & Hgroup & ->).
  rewrite Hsrc in Hp. injection Hp as Hp.
  assert (share_groups
            (set_share_groups (insert (generate_uuid w) (p_group p)) w)
          !! sg_id g = Some g) as Hstored.
  { unfold g. rewrite Hgroup at 1. cbn. apply lookup_insert_eq. }
  split; [exact Hstored |].
  assert (sg_source_group_snapshot_id g = Some sid
          /\ sg_share_network_id g = sg_share_network_id og
          /\ sg_share_server_id g = sg_share_server_id og
          /\ sg_share_types g
             = share_types_or (Some (sg_share_types og))
                 (list_to_set (group_type_share_types (p_group_type p))))
    as (H1 & H2 & H3 & H4).
  { unfold g. rewrite Hgroup, Hopt, <- Hp. done. }
  do 3 (split; [done |]).
  split.
  { intros Hne. rewrite H4. cbn. by destruct (sg_share_types og). }
  split.
  { intros Hnil. exists gtid, (p_group_type p). rewrite H4, Hnil. done. }
  split; [exact Hany |].
  intros w2 Hclone tys' net'.
  assert (clone_members (p_group p) (src_group_snapshot (p_source p))
            (Some sid) (src_share_network_id (p_source p))
            (set_share_groups (insert (generate_uuid w) (p_group p)) w)
          = (Ok tt, w2)) as Hclone'.
  { by rewrite <- Hp. }
  rewrite (create_of_record_ok _ _ _ _ _ _ _ _ _ _ _ (Hany tys' net') Hclone').
  assert (dispatch_of p = share_create_share_group g (sg_host og)) as ->.
  { unfold dispatch_of. by rewrite <- Hp. }
  split; [done |].
  apply clone_members_frame in Hclone as (Hg & _).
  cbn [share_groups set_sent]. by rewrite Hg.
Qed.

(** C10: a [create] call with no share types and no source snapshot,
    whose network (if any) and group type exist, passes the subset check
    and stores a group whose share types are all those of the group
    type; none if the group type has none. *)
Theorem create_defaults_share_types
        ctx name desc tys sid net gtid group_type w :
  or_nil tys = [] ->
  truthy sid = false ->
  (forall n, net = Some n -> truthy net = true -> n ∈ share_networks w) ->
  group_types_table w !! gtid = Some group_type ->
  let supported : gset string :=
    list_to_set (group_type_share_types group_type) in
  (list_to_set (or_nil tys) : gset string) ⊆ supported
  /\ exists g w',
      create ctx name desc tys sid net (Some gtid) w = (Ok g, w')
      /\ share_groups w' !! sg_id g = Some g
      /\ sg_share_types g = elements supported
      /\ (forall x, x ∈ sg_share_types g
                    <-> x ∈ group_type_share_types group_type)
      /\ (group_type_share_types group_type = [] -> sg_share_types g = []).
Proof.
  intros Htys Hsid Hnet Hgt supported.
  split; [rewrite Htys; set_solver |].
  unfold api.create, api.create_record.
  unfold bind at 1. unfold bind at 1.
  rewrite (resolve_source_no_snapshot tys sid net w Hsid).
  cbn [no_source src_share_type_ids src_share_network_id src_share_server_id
       src_group_snapshot src_original_group].
  rewrite Htys. unfold bind at 1. unfold reads at 1.
  cbn [resolve_share_types fst snd].
  assert (check_share_network net w = (Ok tt, w)) as Hcheck.
  { unfold check_share_network, ret. destruct net as [n|]; [| done].
    destruct (truthy (Some n)) eqn:E; [| done].
    unfold db.share_network_get.
    by rewrite bool_decide_eq_true_2 by by apply Hnet. }
  unfold bind at 1. rewrite Hcheck.
  unfold bind at 1. rewrite bool_decide_eq_false_2 by done. cbn [andb].
  unfold ret at 1. unfold bind at 1.
  unfold load_group_type, db.group_type_get, db.lookup_or. rewrite Hgt.
  unfold bind at 1.
  rewrite bool_decide_eq_true_2 by set_solver. cbn [negb]. unfold ret at 1.
  unfold bind at 1. unfold new_uuid at 1.
  unfold bind at 1. unfold db.share_group_create at 1.
  unfold ret at 1. unfold bind at 1. unfold try_except.
  cbn [p_source p_group src_group_snapshot api.clone_members ret].
  unfold bind, cast, writes, ret.
  eexists _, _. split; [reflexivity |].
  cbn. split; [apply lookup_insert_eq |].
  fold supported.
  assert (share_types_or tys supported = elements supported) as ->.
  { destruct tys as [[|]|]; done. }
  split; [done |]. split.
  - intros x. rewrite elem_of_elements. unfold supported.
    by rewrite elem_of_list_to_set.
  - intros Hnil. subst supported. rewrite Hnil. cbn. apply elements_empty.
Qed.
End CreateFacts.

(** ** The properties on the example deployment *)

Import constants.

(** Cloning [snap_placed] while the provisioning service fails: the new
    group is destroyed and the service's exception comes out. *)
Lemma create_clone_failure_destroys_group_witness :
  api.create example.generate_uuid example.share_api_failing example.ctx
    None None None (Some "snap-placed") None (Some "gt-both") example.world
  = (Raise (ServiceError "no valid host was found"),
     set_share_groups (delete (sg_id (api.p_group example.cloned)))
       example.world_cloned)
  /\ share_groups example.world_cloned !! sg_id (api.p_group example.cloned)
     = Some (api.p_group example.cloned)
  /\ share_groups
       (set_share_groups (delete (sg_id (api.p_group example.cloned)))
          example.world_cloned)
       !! sg_id (api.p_group example.cloned) = None
  /\ sent (set_share_groups (delete (sg_id (api.p_group example.cloned)))
             example.world_cloned) = sent example.world.
Proof.
  apply (create_clone_failure_destroys_group example.generate_uuid
           example.share_api_failing example.ctx None None None
           (Some "snap-placed") None (Some "gt-both") example.world
           example.cloned example.world_cloned
           (ServiceError "no valid host was found") example.world_cloned);
    vm_compute; reflexivity.
Defined.

(** C2 as stated fails: [group_unplaced] holds a share, has no host, and
    [delete] destroys it without raising. *)
Lemma delete_unplaced_nonempty_group_succeeds :
  share_groups example.world !! "group-unplaced" = Some example.group_unplaced
  /\ shares example.world !! "share-stray" = Some example.share_stray
  /\ share_share_group_id example.share_stray
     = Some (sg_id example.group_unplaced)
  /\ api.delete example.ctx example.group_unplaced example.world
     = (Ok tt, set_share_groups (delete "group-unplaced") example.world)
  /\ ~ (exists msg,
           api.delete example.ctx example.group_unplaced example.world
           = (Raise (InvalidShareGroup msg), example.world)).
Proof.
  assert (api.delete example.ctx example.group_unplaced example.world
          = (Ok tt, set_share_groups (delete "group-unplaced") example.world))
    as H by (vm_compute; reflexivity).
  split; [vm_compute; reflexivity |].
  split; [vm_compute; reflexivity |].
  split; [reflexivity |].
  split; [exact H |].
  intros [msg Hmsg]. rewrite H in Hmsg. discriminate Hmsg.
Qed.

(** [group_placed] has a host and holds shares. *)
Lemma delete_placed_nonempty_group_fails_witness :
  truthy (sg_host example.group_placed) = true
  /\ exists msg,
      api.delete example.ctx example.group_placed example.world
      = (Raise (InvalidShareGroup msg), example.world).
Proof.
  split; [reflexivity |].
  apply (delete_placed_nonempty_group_fails example.ctx example.group_placed
           example.world); [reflexivity |].
  left. exists "share-ready", example.share_ready.
  split; [vm_compute; reflexivity | reflexivity].
Defined.

(** The two share types of the deployment conflict, in either order. *)
Lemma create_conflicting_share_types_witness :
  (exists msg,
      api.create example.generate_uuid example.share_api_working example.ctx
        None None (Some ["st-true"; "st-false"]) None (Some "net-1")
        (Some "gt-both") example.world
      = (Raise (InvalidInput msg), example.world))
  /\ (exists msg,
         api.create example.generate_uuid example.share_api_working example.ctx
           None None (Some ["st-false"; "st-true"]) None (Some "net-1")
           (Some "gt-both") example.world
         = (Raise (InvalidInput msg), example.world)).
Proof.
  split.
  - apply (create_conflicting_share_types example.generate_uuid
             example.share_api_working example.ctx None None
             (Some ["st-true"; "st-false"]) None (Some "net-1")
             (Some "gt-both") example.world
             (api.no_source (Some ["st-true"; "st-false"]) (Some "net-1")));
      [reflexivity |].
    exists "st-true", "st-false", example.st_dhss_true, example.st_dhss_false,
      true, false.
    repeat split; try (vm_compute; reflexivity); try discriminate.
    + apply list_elem_of_here.
    + apply list_elem_of_further, list_elem_of_here.
  - apply (create_conflicting_share_types example.generate_uuid
             example.share_api_working example.ctx None None
             (Some ["st-false"; "st-true"]) None (Some "net-1")
             (Some "gt-both") example.world
             (api.no_source (Some ["st-false"; "st-true"]) (Some "net-1")));
      [reflexivity |].
    exists "st-true", "st-false", example.st_dhss_true, example.st_dhss_false,
      true, false.
    repeat split; try (vm_compute; reflexivity); try discriminate.
    + apply list_elem_of_further, list_elem_of_here.
    + apply list_elem_of_here.
Defined.

(** [group_placed] holds a share that is still being created. *)
Lemma create_group_snapshot_requires_available_witness :
  share_status example.share_pending ≠ STATUS_AVAILABLE
  /\ exists msg,
      api.create_group_snapshot example.generate_uuid example.ctx None None
        "group-placed" example.world
      = (Raise (InvalidShareGroup msg), example.world).
Proof.
  split; [discriminate |].
  apply (create_group_snapshot_requires_available example.generate_uuid
           example.ctx None None "group-placed" example.group_placed
           example.world); [vm_compute; reflexivity |].
  right. exists "share-pending", example.share_pending.
  split; [vm_compute; reflexivity |]. split; [reflexivity | discriminate].
Defined.

(** C5 as stated fails: [snap_failed] is an available snapshot of a
    group in error, and [create] from it succeeds. *)
Lemma create_from_snapshot_of_failed_group_succeeds :
  group_snapshots example.world !! "snap-failed" = Some example.snap_failed
  /\ share_groups example.world !! gs_share_group_id example.snap_failed
     = Some example.group_failed
  /\ sg_status example.group_failed ≠ STATUS_AVAILABLE
  /\ match (api.create example.generate_uuid example.share_api_working
              example.ctx None None None (Some "snap-failed") None
              (Some "gt-both") example.world).1 with
     | Ok g => sg_source_group_snapshot_id g = Some "snap-failed"
     | Raise _ => False
     end
  /\ ~ (exists msg w',
           api.create example.generate_uuid example.share_api_working
             example.ctx None None None (Some "snap-failed") None
             (Some "gt-both") example.world
           = (Raise (InvalidGroupSnapshot msg), w')).
Proof.
  assert (match (api.create example.generate_uuid example.share_api_working
                   example.ctx None None None (Some "snap-failed") None
                   (Some "gt-both") example.world).1 with
          | Ok g => sg_source_group_snapshot_id g = Some "snap-failed"
          | Raise _ => False
          end) as Hok by (vm_compute; reflexivity).
  split; [vm_compute; reflexivity |].
  split; [vm_compute; reflexivity |].
  split; [discriminate |].
  split; [exact Hok |].
  intros (msg & w' & H). rewrite H in Hok. exact Hok.
Qed.

(** [snap_creating] is not available. *)
Lemma create_requires_available_snapshot_witness :
  gs_status example.snap_creating ≠ STATUS_AVAILABLE
  /\ exists msg,
      api.create example.generate_uuid example.share_api_working example.ctx
        None None None (Some "snap-creating") None (Some "gt-both")
        example.world
      = (Raise (InvalidGroupSnapshot msg), example.world).
Proof.
  split; [discriminate |].
  apply (create_requires_available_snapshot example.generate_uuid
           example.share_api_working example.ctx None None None
           "snap-creating" None (Some "gt-both") example.world
           example.snap_creating);
    [reflexivity | vm_compute; reflexivity | discriminate].
Defined.

(** [group_unplaced] has no host. *)
Lemma delete_without_host_witness :
  truthy (sg_host example.group_unplaced) = false
  /\ api.delete example.ctx example.group_unplaced example.world
     = (Ok tt, set_share_groups (delete "group-unplaced") example.world)
  /\ share_groups
       (api.delete example.ctx example.group_unplaced example.world).2
       !! "group-unplaced" = None
  /\ sent (api.delete example.ctx example.group_unplaced example.world).2
     = sent example.world.
Proof.
  split; [reflexivity |].
  apply (delete_without_host example.ctx example.group_unplaced
           example.group_unplaced example.world);
    [reflexivity | vm_compute; reflexivity].
Defined.

(** C7 as stated fails: [group_bare] has no share types, and the clone
    of its snapshot gets the two share types of the group type. *)
Lemma create_from_snapshot_of_bare_group_defaults :
  group_snapshots example_more.world_bare !! "snap-bare"
  = Some example_more.snap_bare
  /\ gs_status example_more.snap_bare = STATUS_AVAILABLE
  /\ share_groups example_more.world_bare
     !! gs_share_group_id example_more.snap_bare
     = Some example_more.group_bare
  /\ sg_share_types example_more.group_bare = []
  /\ match example_more.bare_copied.1 with
     | Ok g =>
         share_groups example_more.bare_copied.2 !! sg_id g = Some g
         /\ sg_source_group_snapshot_id g = Some "snap-bare"
         /\ sg_share_types g = ["st-false"; "st-true"]
         /\ sg_share_types g ≠ sg_share_types example_more.group_bare
     | Raise _ => False
     end.
Proof.
  split; [vm_compute; reflexivity |].
  split; [reflexivity |].
  split; [vm_compute; reflexivity |].
  split; [reflexivity |].
  assert (exists g,
             example_more.bare_copied.1 = Ok g
             /\ share_groups example_more.bare_copied.2 !! sg_id g = Some g
             /\ sg_source_group_snapshot_id g = Some "snap-bare"
             /\ sg_share_types g = ["st-false"; "st-true"])
    as (g & -> & H1 & H2 & H3).
  { eexists. split; [vm_compute; reflexivity |].
    repeat split; vm_compute; reflexivity. }
  split; [exact H1 |]. split; [exact H2 |]. split; [exact H3 |].
  rewrite H3. discriminate.
Qed.

(** The clone of [snap_placed] takes the share types, network and server
    of [group_placed], although the caller names another share type, and
    is returned once its member is cloned. *)
Lemma create_from_snapshot_inherits_witness :
  share_groups example_more.copied_record.2
  !! sg_id (api.p_group example.cloned) = Some (api.p_group example.cloned)
  /\ sg_share_network_id (api.p_group example.cloned)
     = sg_share_network_id example.group_placed
  /\ sg_share_server_id (api.p_group example.cloned)
     = sg_share_server_id example.group_placed
  /\ sg_share_types (api.p_group example.cloned)
     = sg_share_types example.group_placed
  /\ api.create example.generate_uuid example.share_api_working example.ctx
       None None (Some ["st-false"]) (Some "snap-placed") None
       (Some "gt-both") example.world
     = (Ok (api.p_group example.cloned),
        set_sent
          (fun l =>
             app l [share_create_share_group (api.p_group example.cloned)
                      (sg_host example.group_placed)])
          example_more.copied_members.2).
Proof.
  destruct (create_from_snapshot_inherits example.generate_uuid
              example.share_api_working example.ctx None None
              (Some ["st-false"]) "snap-placed" None (Some "gt-both")
              example.world example.snap_placed example.group_placed
              example.cloned example_more.copied_record.2)
    as (H1 & _ & H2 & H3 & H4 & _ & _ & H5);
    [reflexivity | vm_compute; reflexivity | reflexivity
     | vm_compute; reflexivity | vm_compute; reflexivity |].
  split; [exact H1 |]. split; [exact H2 |]. split; [exact H3 |].
  split; [apply H4; discriminate |].
  apply (H5 example_more.copied_members.2); vm_compute; reflexivity.
Defined.

(** The two group types of the deployment, compared in both orders. *)
Lemma group_types_diff_symmetric_witness :
  exists (dab dba : gmap string group_types.diff_entry) (equal : bool),
    group_types.group_types_diff (Some "gt-both") (Some "gt-none") example.world
    = Ok (dab, equal)
    /\ group_types.group_types_diff (Some "gt-none") (Some "gt-both")
         example.world = Ok (dba, equal)
    /\ dom dab = dom dba.
Proof.
  destruct (group_types_diff_symmetric example.world "gt-both" "gt-none"
              example.gt_both example.gt_none)
    as (dab & dba & equal & Hab & Hba & Hdom & _);
    [vm_compute; reflexivity | vm_compute; reflexivity |].
  exists dab, dba, equal. split; [exact Hab |]. split; [exact Hba | exact Hdom].
Defined.

(** A group created with no share types gets those of its group type. *)
Lemma create_defaults_share_types_witness :
  exists g w',
    api.create example.generate_uuid example.share_api_working example.ctx
      (Some "fresh") None None None None (Some "gt-both") example.world
    = (Ok g, w')
    /\ share_groups w' !! sg_id g = Some g
    /\ (forall x, x ∈ sg_share_types g <-> x ∈ ["st-true"; "st-false"]).
Proof.
  destruct (create_defaults_share_types example.generate_uuid
              example.share_api_working example.ctx (Some "fresh") None None
              None None "gt-both" example.gt_both example.world)
    as (_ & g & w' & H1 & H2 & _ & H3 & _);
    [reflexivity | reflexivity | discriminate | vm_compute; reflexivity |].
  exists g, w'. split; [exact H1 |]. split; [exact H2 | exact H3].
Defined.

(** * Further properties *)

(** ** [API.create]: validation, atomicity and dispatch *)

Section CreateMore.
Import constants api.
Variable generate_uuid : World -> string.
Variable share_api_create : ShareRequest -> World -> result Share.

Abbreviation create := (api.create generate_uuid share_api_create).
Abbreviation create_record := (api.create_record generate_uuid).
Abbreviation clone_members := (api.clone_members share_api_create).
Abbreviation clone_member := (api.clone_member share_api_create).

Lemma resolve_source_raise tys sid net w e w' :
  resolve_source tys sid net w = (Raise e, w') ->
  (exists msg, e = InvalidGroupSnapshot msg)
  \/ (exists id, e = GroupSnapshotNotFound id)
  \/ (exists id, e = ShareGroupNotFound id).
Proof.
  unfold resolve_source, bind, reads, raise, ret.
  destruct sid as [sid|]; [| done].
  destruct (truthy (Some sid)); [| done].
  unfold db.group_snapshot_get, db.share_group_get, db.lookup_or.
  destruct (group_snapshots w !! sid) as [snap|];
    [| intros [= <- _]; right; left; by eexists].
  destruct (negb _); [intros [= <- _]; left; by eexists |].
  destruct (share_groups w !! _); [done |].
  intros [= <- _]. right; right. by eexists.
Qed.

Lemma resolve_source_ok tys sid net w src w' :
  resolve_source tys sid net w = (Ok src, w') ->
  (truthy sid = false /\ src = no_source tys net)
  \/ (truthy sid = true
      /\ exists id snap og,
          sid = Some id
          /\ group_snapshots w !! id = Some snap
          /\ gs_status snap = STATUS_AVAILABLE
          /\ share_groups w !! gs_share_group_id snap = Some og
          /\ src = inherited snap og).
Proof.
  unfold resolve_source, bind, reads, raise, ret.
  destruct sid as [sid|]; [| intros [= <- _]; by left].
  destruct (truthy (Some sid)) eqn:Ht; [| intros [= <- _]; by left].
  unfold db.group_snapshot_get, db.share_group_get, db.lookup_or.
  destruct (group_snapshots w !! sid) as [snap|] eqn:Hsnap; [| done].
  case_bool_decide as Hst; cbn [negb]; [| done].
  destruct (share_groups w !! _) as [og|] eqn:Hog; [| done].
  intros [= <- _]. right. split; [done |]. by exists sid, snap, og.
Qed.

Lemma check_share_network_raise net w e w' :
  check_share_network net w = (Raise e, w') -> exists msg, e = InvalidInput msg.
Proof.
  unfold check_share_network, ret, db.share_network_get.
  destruct net as [n|]; [| done].
  destruct (truthy (Some n)); [| done].
  case_bool_decide; [done |]. intros [= <- _]. by eexists.
Qed.

Lemma check_share_network_ok net w w' :
  check_share_network net w = (Ok tt, w') ->
  forall n, net = Some n -> truthy net = true -> n ∈ share_networks w.
Proof.
  unfold check_share_network, ret, db.share_network_get.
  intros H n -> Ht. rewrite Ht in H.
  case_bool_decide; [done | discriminate H].
Qed.

Lemma load_group_type_raise gt w e w' :
  load_group_type gt w = (Raise e, w') -> exists msg, e = InvalidInput msg.
Proof.
  unfold load_group_type, db.group_type_get, db.lookup_or.
  destruct gt as [id|]; [| intros [= <- _]; by eexists].
  destruct (group_types_table w !! id); [done |].
  intros [= <- _]. by eexists.
Qed.

Lemma check_extra_specs_network t net d d' :
  check_extra_specs t net d = Ok d' ->
  declared_dhss t = Some false -> truthy net = false.
Proof.
  unfold check_extra_specs, declared_dhss, dhss_value.
  destruct (share_type_extra_specs t) as [es|]; [| done].
  case_bool_decide; [done |].
  destruct (bool_from_string_total
              (option_pyval (es !! DRIVER_HANDLES_SHARE_SERVERS)) false)
    as [ss ->].
  intros Hc [= ->]. revert Hc.
  destruct d as [[]|]; cbn; destruct (truthy net); done.
Qed.

Lemma resolve_share_types_checks ids net objs d w objs' d' :
  resolve_share_types ids net objs d w = Ok (objs', d') ->
  forall id, id ∈ ids ->
    exists t, share_types_table w !! id = Some t
              /\ (declared_dhss t = Some false -> truthy net = false).
Proof.
  revert objs d. induction ids as [|id ids IH]; intros objs d;
    cbn [resolve_share_types].
  - intros _ ? Hin. by apply elem_of_nil in Hin.
  - unfold db.share_type_get, db.lookup_or.
    destruct (share_types_table w !! id) as [t|] eqn:Et; [| done].
    destruct (check_extra_specs t net d) as [d1|e] eqn:Ec; [| done].
    intros Hrest id' [-> | Hin]%elem_of_cons.
    + exists t. split; [done |]. by eapply check_extra_specs_network.
    + by eapply IH.
Qed.

(** What a [create] that stored its record has checked. *)
Lemma create_record_checks ctx name desc tys sid net gt w p w1 :
  create_record ctx name desc tys sid net gt w = (Ok p, w1) ->
  let src := p_source p in
  let ids := or_nil (src_share_type_ids src) in
  (forall id, id ∈ ids ->
     exists t, share_types_table w !! id = Some t
               /\ (declared_dhss t = Some false
                   -> truthy (src_share_network_id src) = false)
               /\ (declared_dhss t = Some true
                   -> truthy sid || truthy (src_share_network_id src) = true))
  /\ (forall n, src_share_network_id src = Some n ->
                truthy (src_share_network_id src) = true ->
                n ∈ share_networks w)
  /\ (list_to_set ids : gset string)
       ⊆ list_to_set (group_type_share_types (p_group_type p)).
Proof.
  unfold api.create_record. unfold bind at 1.
  destruct (resolve_source tys sid net w) as [[src|e] w0] eqn:Esrc; [| done].
  apply resolve_source_reads in Esrc as Hw0. subst w0.
  unfold bind at 1. unfold reads at 1.
  destruct (resolve_share_types _ _ _ _ w) as [[objs d]|e] eqn:Eres; [| done].
  unfold bind at 1.
  destruct (check_share_network _ w) as [[[]|e] w0] eqn:Enet; [| done].
  apply check_share_network_reads in Enet as Hw0. subst w0.
  unfold bind at 1. cbn [fst snd].
  destruct (bool_decide (d = Some true) && _) eqn:Edhss; [done |].
  unfold ret at 1. unfold bind at 1.
  destruct (load_group_type gt w) as [[t|e] w0] eqn:Egt; [| done].
  apply load_group_type_reads in Egt as Hw0. subst w0.
  unfold bind at 1.
  destruct (bool_decide (_ ⊆ _)) eqn:Hsub; cbn [negb]; [| done].
  apply bool_decide_eq_true in Hsub.
  unfold ret at 1.
  unfold bind, new_uuid, db.share_group_create, ret.
  intros [= <- <-]. cbn. split; [| split; [| done]].
  - intros id Hin.
    destruct (resolve_share_types_checks _ _ _ _ _ _ _ Eres id Hin)
      as (ty & Hty & Hfalse).
    exists ty. split; [done |]. split; [done |]. intros Htrue.
    apply resolve_share_types_ok in Eres as [_ Eres].
    rewrite (Eres id ty true Hin Hty Htrue) in Edhss.
    rewrite bool_decide_eq_true_2 in Edhss by done.
    by apply negb_false_iff in Edhss.
  - by eapply check_share_network_ok.
Qed.

Lemma create_record_raise_kind ctx name desc tys sid net gt w e w' :
  create_record ctx name desc tys sid net gt w = (Raise e, w') ->
  (exists msg, e = InvalidInput msg)
  \/ (exists msg, e = InvalidGroupSnapshot msg)
  \/ (exists id, e = GroupSnapshotNotFound id)
  \/ (exists id, e = ShareGroupNotFound id).
Proof.
  unfold api.create_record. unfold bind at 1.
  destruct (resolve_source tys sid net w) as [[src|e'] w0] eqn:Esrc.
  2:{ intros [= <- _]. right. by eapply resolve_source_raise. }
  apply resolve_source_reads in Esrc as Hw0. subst w0.
  unfold bind at 1. unfold reads at 1.
  destruct (resolve_share_types _ _ _ _ w) as [[objs d]|e'] eqn:Eres.
  2:{ intros [= <- _]. left. by eapply resolve_share_types_raise. }
  unfold bind at 1.
  destruct (check_share_network _ w) as [[[]|e'] w0] eqn:Enet.
  2:{ intros [= <- _]. left. by eapply check_share_network_raise. }
  apply check_share_network_reads in Enet as Hw0. subst w0.
  unfold bind at 1.
  destruct (_ && _); [intros [= <- _]; left; by eexists |].
  unfold ret at 1. unfold bind at 1.
  destruct (load_group_type gt w) as [[t|e'] w0] eqn:Egt.
  2:{ intros [= <- _]. left. by eapply load_group_type_raise. }
  apply load_group_type_reads in Egt as Hw0. subst w0.
  unfold bind at 1.
  destruct (negb _); [intros [= <- _]; left; by eexists |]. done.
Qed.

(** After the first block, [create] fails with [InvalidInput] only. *)
Lemma create_record_raise_after_source ctx name desc tys sid net gt w src e w' :
  resolve_source tys sid net w = (Ok src, w) ->
  create_record ctx name desc tys sid net gt w = (Raise e, w') ->
  exists msg, e = InvalidInput msg.
Proof.
  intros Hsrc. unfold api.create_record. unfold bind at 1. rewrite Hsrc.
  unfold bind at 1. unfold reads at 1.
  destruct (resolve_share_types _ _ _ _ w) as [[objs d]|e'] eqn:Eres.
  2:{ intros [= <- _]. by eapply resolve_share_types_raise. }
  unfold bind at 1.
  destruct (check_share_network _ w) as [[[]|e'] w0] eqn:Enet.
  2:{ intros [= <- _]. by eapply check_share_network_raise. }
  apply check_share_network_reads in Enet as Hw0. subst w0.
  unfold bind at 1.
  destruct (_ && _); [intros [= <- _]; by eexists |].
  unfold ret at 1. unfold bind at 1.
  destruct (load_group_type gt w) as [[t|e'] w0] eqn:Egt.
  2:{ intros [= <- _]. by eapply load_group_type_raise. }
  apply load_group_type_reads in Egt as Hw0. subst w0.
  unfold bind at 1.
  destruct (negb _); [intros [= <- _]; by eexists |]. done.
Qed.

Lemma create_of_record_raise ctx name desc tys sid net gt w e w' :
  create_record ctx name desc tys sid net gt w = (Raise e, w') ->
  create ctx name desc tys sid net gt w = (Raise e, w).
Proof.
  intros H. pose proof (create_record_raise _ _ _ _ _ _ _ _ _ _ _ H) as ->.
  unfold api.create. unfold bind at 1. by rewrite H.
Qed.

(** Either [create] fails with [InvalidInput], or its record passed
    every check. *)
Lemma create_invalid_or_checked ctx name desc tys sid net gt w src :
  resolve_source tys sid net w = (Ok src, w) ->
  (exists msg,
      create ctx name desc tys sid net gt w = (Raise (InvalidInput msg), w))
  \/ (exists p w1,
         create_record ctx name desc tys sid net gt w = (Ok p, w1)
         /\ p_source p = src).
Proof.
  intros Hsrc.
  destruct (create_record ctx name desc tys sid net gt w)
    as [[p|e] w1] eqn:Hrec.
  - right. exists p, w1. split; [done |].
    apply create_record_ok in Hrec as (Hp & _). congruence.
  - left.
    destruct (create_record_raise_after_source _ _ _ _ _ _ _ _ _ _ _ Hsrc Hrec)
      as [msg ->].
    exists msg. by eapply create_of_record_raise.
Qed.

Lemma create_ok_inv ctx name desc tys sid net gt w g w' :
  create ctx name desc tys sid net gt w = (Ok g, w') ->
  exists p w1 w2,
    create_record ctx name desc tys sid net gt w = (Ok p, w1)
    /\ g = p_group p
    /\ clone_members (p_group p) (src_group_snapshot (p_source p)) sid
         (src_share_network_id (p_source p)) w1 = (Ok tt, w2)
    /\ w' = set_sent (fun l => app l [dispatch_of p]) w2.
Proof.
  unfold api.create. unfold bind at 1.
  destruct (create_record ctx name desc tys sid net gt w)
    as [[p|e] w1] eqn:Hrec; [| done].
  unfold bind at 1. unfold try_except.
  destruct (api.clone_members _ _ _ _ _ w1) as [[[]|e] w2] eqn:Hclone.
  - unfold bind at 1.
    destruct (src_group_snapshot (p_source p)) eqn:E1,
      (src_original_group (p_source p)) eqn:E2;
      unfold cast, writes, ret; intros [= <- <-]; exists p, w1, w2;
      unfold dispatch_of; rewrite E1, ?E2; done.
  - unfold save_and_reraise_exception, bind, db.share_group_destroy, raise.
    destruct (share_groups w2 !! _); done.
Qed.

Lemma create_raise_inv ctx name desc tys sid net gt w e w' :
  create ctx name desc tys sid net gt w = (Raise e, w') ->
  (create_record ctx name desc tys sid net gt w = (Raise e, w) /\ w' = w)
  \/ (exists p w1 w2,
         create_record ctx name desc tys sid net gt w = (Ok p, w1)
         /\ clone_members (p_group p) (src_group_snapshot (p_source p)) sid
              (src_share_network_id (p_source p)) w1 = (Raise e, w2)
         /\ w' = set_share_groups (base.delete (sg_id (p_group p))) w2).
Proof.
  unfold api.create. unfold bind at 1.
  destruct (create_record ctx name desc tys sid net gt w)
    as [[p|e0] w1] eqn:Hrec.
  - unfold bind at 1. unfold try_except.
    destruct (api.clone_members _ _ _ _ _ w1) as [[[]|e1] w2] eqn:Hclone.
    + unfold bind at 1.
      destruct (src_group_snapshot (p_source p)),
        (src_original_group (p_source p));
        unfold cast, writes, ret; done.
    + pose proof (create_record_ok _ _ _ _ _ _ _ _ _ _ _ Hrec)
        as (_ & _ & _ & Hgroup & Hw1).
      pose proof (clone_members_frame _ _ _ _ _ _ _ _ Hclone) as (Hg & _).
      assert (share_groups w2 !! sg_id (p_group p) = Some (p_group p)) as Hin.
      { rewrite Hg, Hw1, Hgroup at 1. cbn. apply lookup_insert_eq. }
      unfold save_and_reraise_exception, bind, db.share_group_destroy, raise.
      rewrite Hin. intros [= <- <-]. right. by exists p, w1, w2.
  - intros [= <- <-]. left.
    pose proof (create_record_raise _ _ _ _ _ _ _ _ _ _ _ Hrec) as ->. done.
Qed.

Lemma clone_member_shares group net member w r w' :
  clone_member group net member w = (r, w') ->
  forall id s, shares w' !! id = Some s ->
    shares w !! id = Some s
    \/ exists req w0,
        share_api_create req w0 = Ok s
        /\ req_share_group_id req = sg_id group /\ share_id s = id.
Proof.
  unfold api.clone_member, bind, reads, share_api_create_call.
  destruct (db.share_get _ w); [| intros [= _ <-]; by left].
  destruct (db.share_type_get _ w); [| intros [= _ <-]; by left].
  destruct (db.share_instance_get _ w); [| intros [= _ <-]; by left].
  destruct (share_api_create _ w) as [sh|e] eqn:Hcall;
    [| intros [= _ <-]; by left].
  intros [= _ <-] id s. cbn [shares set_shares].
  destruct (decide (id = share_id sh)) as [-> | Hne].
  - rewrite lookup_insert_eq. intros [= <-]. right. by eexists _, w.
  - rewrite lookup_insert_ne by done. by left.
Qed.

Lemma for_each_clone_shares group net members w r w' :
  for_each members (clone_member group net) w = (r, w') ->
  forall id s, shares w' !! id = Some s ->
    shares w !! id = Some s
    \/ exists req w0,
        share_api_create req w0 = Ok s
        /\ req_share_group_id req = sg_id group /\ share_id s = id.
Proof.
  revert w. induction members as [|m members IH]; intros w; cbn [for_each].
  - intros [= _ <-]. by left.
  - unfold bind.
    destruct (clone_member group net m w) as [[[]|e] w1] eqn:E.
    + intros Hrest id s Hs.
      destruct (IH _ Hrest id s Hs) as [H1 | H1]; [| by right].
      by eapply clone_member_shares.
    + intros [= _ <-]. by eapply clone_member_shares.
Qed.

Lemma clone_members_shares group snap sid net w r w' :
  clone_members group snap sid net w = (r, w') ->
  forall id s, shares w' !! id = Some s ->
    shares w !! id = Some s
    \/ exists req w0,
        share_api_create req w0 = Ok s
        /\ req_share_group_id req = sg_id group /\ share_id s = id.
Proof.
  unfold api.clone_members.
  destruct snap; [| intros [= _ <-]; by left].
  destruct sid; [| intros [= _ <-]; by left].
  unfold bind, reads. apply for_each_clone_shares.
Qed.

(** X1: a failed [create] rolls back the group record and nothing else.
    When it raises, and the identifier it drew was not in use, the
    stored groups, the group snapshots, the snapshot members and the
    messages sent are what they were before the call, and no group is
    stored under the drawn identifier.  The shares are not rolled back:
    a share of the store afterwards is a share from before the call or
    one that the provisioning service created during the cloning, for
    the group that is gone again. *)
Theorem create_failure_rolls_back_group_only
        ctx name desc tys sid net gt w e w' :
  share_groups w !! generate_uuid w = None ->
  create ctx name desc tys sid net gt w = (Raise e, w') ->
  share_groups w' = share_groups w
  /\ group_snapshots w' = group_snapshots w
  /\ group_snapshot_members w' = group_snapshot_members w
  /\ sent w' = sent w
  /\ share_groups w' !! generate_uuid w = None
  /\ (forall id s, shares w' !! id = Some s ->
        shares w !! id = Some s
        \/ exists req w0,
            share_api_create req w0 = Ok s
            /\ req_share_group_id req = generate_uuid w
            /\ share_id s = id).
Proof.
  intros Hfresh [[_ ->] | (p & w1 & w2 & Hrec & Hclone & ->)]%create_raise_inv.
  { do 5 (split; [done |]). intros id s Hs. by left. }
  apply create_record_ok in Hrec as (_ & _ & _ & Hgroup & ->).
  assert (sg_id (p_group p) = generate_uuid w) as Hid by by rewrite Hgroup.
  pose proof (clone_members_shares _ _ _ _ _ _ _ Hclone) as Hshares.
  apply clone_members_frame in Hclone as (Hg & Hs & Hsn & Hm).
  cbn. rewrite Hg, Hs, Hsn, Hm. cbn. rewrite Hid.
  rewrite delete_insert_id by done.
  do 5 (split; [done |]). intros id s Hin.
  destruct (Hshares id s Hin) as [H | (req & w0 & Hreq & Hgid & Hsid)].
  - by left.
  - right. exists req, w0. by rewrite <- Hid.
Qed.

(** X2: what [create] can raise. Either nothing was stored, the store
    is untouched and the exception is [InvalidInput],
    [InvalidGroupSnapshot], [GroupSnapshotNotFound] or
    [ShareGroupNotFound]; or the group record was stored and the
    exception is the one the cloning of the snapshot members raised. *)
Theorem create_raises_validation_or_cloning_error
        ctx name desc tys sid net gt w e w' :
  create ctx name desc tys sid net gt w = (Raise e, w') ->
  (w' = w
   /\ ((exists msg, e = InvalidInput msg)
       \/ (exists msg, e = InvalidGroupSnapshot msg)
       \/ (exists id, e = GroupSnapshotNotFound id)
       \/ (exists id, e = ShareGroupNotFound id)))
  \/ (exists p w1 w2,
         create_record ctx name desc tys sid net gt w = (Ok p, w1)
         /\ clone_members (p_group p) (src_group_snapshot (p_source p)) sid
              (src_share_network_id (p_source p)) w1 = (Raise e, w2)).
Proof.
  intros [[Hrec ->] | (p & w1 & w2 & Hrec & Hclone & _)]%create_raise_inv.
  - left. split; [done |]. by eapply create_record_raise_kind.
  - right. by exists p, w1, w2.
Qed.

(** X3: once the source is resolved, a reference to a record that does
    not exist (a share type, a share network that is given, the group
    type) makes [create] fail with [InvalidInput], never with the
    store's own not-found exception, and nothing is stored. *)
Theorem create_missing_reference_is_invalid_input
        ctx name desc tys sid net gt w src :
  resolve_source tys sid net w = (Ok src, w) ->
  (exists id, id ∈ or_nil (src_share_type_ids src)
              /\ share_types_table w !! id = None)
  \/ (exists n, src_share_network_id src = Some n
                /\ truthy (src_share_network_id src) = true
                /\ n ∉ share_networks w)
  \/ (forall id, gt = Some id -> group_types_table w !! id = None) ->
  exists msg,
    create ctx name desc tys sid net gt w = (Raise (InvalidInput msg), w).
Proof.
  intros Hsrc Hmiss.
  destruct (create_invalid_or_checked ctx name desc tys sid net gt w src Hsrc)
    as [H | (p & w1 & Hrec & <-)]; [done |].
  exfalso.
  pose proof (create_record_checks _ _ _ _ _ _ _ _ _ _ Hrec) as (Hids & Hnet & _).
  apply create_record_ok in Hrec as (_ & (gtid & -> & Hgt) & _).
  destruct Hmiss as [(id & Hin & Hnone) | [(n & Hn & Ht & Hout) | Hgone]].
  - destruct (Hids id Hin) as (t & Ht & _). congruence.
  - by apply Hout, Hnet.
  - rewrite (Hgone gtid eq_refl) in Hgt. done.
Qed.

(** X4: without a source snapshot and without a share network, a share
    type whose [driver_handles_share_servers] is true makes [create]
    fail with [InvalidInput]. *)
Theorem create_dhss_true_requires_network
        ctx name desc tys sid net gt w id t :
  truthy sid = false ->
  truthy net = false ->
  id ∈ or_nil tys ->
  share_types_table w !! id = Some t ->
  declared_dhss t = Some true ->
  exists msg,
    create ctx name desc tys sid net gt w = (Raise (InvalidInput msg), w).
Proof.
  intros Hsid Hnet Hin Ht Hd.
  pose proof (resolve_source_no_snapshot tys sid net w Hsid) as Hsrc.
  destruct (create_invalid_or_checked ctx name desc tys sid net gt w _ Hsrc)
    as [H | (p & w1 & Hrec & Hp)]; [done |].
  exfalso.
  pose proof (create_record_checks _ _ _ _ _ _ _ _ _ _ Hrec) as (Hids & _).
  rewrite Hp in Hids. cbn in Hids.
  destruct (Hids id Hin) as (t' & Ht' & _ & Htrue).
  rewrite Ht in Ht'. injection Ht' as <-.
  specialize (Htrue Hd). rewrite Hsid, Hnet in Htrue. done.
Qed.

(** X5: a share type whose [driver_handles_share_servers] is false
    makes [create] fail with [InvalidInput] as soon as a share network
    is in force, be it the caller's or the one inherited from the
    source group. *)
Theorem create_dhss_false_forbids_network
        ctx name desc tys sid net gt w src id t :
  resolve_source tys sid net w = (Ok src, w) ->
  truthy (src_share_network_id src) = true ->
  id ∈ or_nil (src_share_type_ids src) ->
  share_types_table w !! id = Some t ->
  declared_dhss t = Some false ->
  exists msg,
    create ctx name desc tys sid net gt w = (Raise (InvalidInput msg), w).
Proof.
  intros Hsrc Hnet Hin Ht Hd.
  destruct (create_invalid_or_checked ctx name desc tys sid net gt w _ Hsrc)
    as [H | (p & w1 & Hrec & <-)]; [done |].
  exfalso.
  pose proof (create_record_checks _ _ _ _ _ _ _ _ _ _ Hrec) as (Hids & _).
  destruct (Hids id Hin) as (t' & Ht' & Hfalse & _).
  rewrite Ht in Ht'. injection Ht' as <-.
  rewrite (Hfalse Hd) in Hnet. done.
Qed.

(** X6: a share type that the group type does not list makes [create]
    fail with [InvalidInput]; for a clone the share types are those of
    the source group. *)
Theorem create_share_types_must_be_supported
        ctx name desc tys sid net gtid group_type w src id :
  resolve_source tys sid net w = (Ok src, w) ->
  group_types_table w !! gtid = Some group_type ->
  id ∈ or_nil (src_share_type_ids src) ->
  id ∉ group_type_share_types group_type ->
  exists msg,
    create ctx name desc tys sid net (Some gtid) w
    = (Raise (InvalidInput msg), w).
Proof.
  intros Hsrc Hgt Hin Hout.
  destruct (create_invalid_or_checked ctx name desc tys sid net (Some gtid)
              w _ Hsrc) as [H | (p & w1 & Hrec & <-)]; [done |].
  exfalso.
  pose proof (create_record_checks _ _ _ _ _ _ _ _ _ _ Hrec) as (_ & _ & Hsub).
  apply create_record_ok in Hrec as (_ & (gtid' & [= <-] & Hgt') & _).
  rewrite Hgt in Hgt'. injection Hgt' as E. rewrite <- E in Hsub.
  apply Hout. apply (elem_of_list_to_set (C:=gset string)).
  apply Hsub. by apply elem_of_list_to_set.
Qed.

Lemma resolve_share_types_objects ids net objs d w objs' d' :
  resolve_share_types ids net objs d w = Ok (objs', d') ->
  exists new,
    objs' = app objs new
    /\ Forall2 (fun id t => share_types_table w !! id = Some t) ids new.
Proof.
  revert objs d. induction ids as [|id ids IH]; intros objs d;
    cbn [resolve_share_types].
  - intros [= <- <-]. exists []. split; [by rewrite app_nil_r | constructor].
  - unfold db.share_type_get, db.lookup_or.
    destruct (share_types_table w !! id) as [t|] eqn:Et; [| done].
    destruct (check_extra_specs t net d) as [d1|e] eqn:Ec; [| done].
    intros (new & -> & Hnew)%IH. exists (t :: new). split.
    + by rewrite <- app_assoc.
    + by constructor.
Qed.

(** The share type objects of a stored record are the stored share types
    of the share type ids in force, in their order. *)
Lemma create_record_objects ctx name desc tys sid net gt w p w1 :
  create_record ctx name desc tys sid net gt w = (Ok p, w1) ->
  Forall2 (fun id t => share_types_table w !! id = Some t)
    (or_nil (src_share_type_ids (p_source p))) (p_share_type_objects p).
Proof.
  unfold api.create_record. unfold bind at 1.
  destruct (resolve_source tys sid net w) as [[src|e] w0] eqn:Esrc; [| done].
  apply resolve_source_reads in Esrc as Hw0. subst w0.
  unfold bind at 1. unfold reads at 1.
  destruct (resolve_share_types _ _ _ _ w) as [[objs d]|e] eqn:Eres; [| done].
  unfold bind at 1.
  destruct (check_share_network _ w) as [[[]|e] w0] eqn:Enet; [| done].
  apply check_share_network_reads in Enet. subst w0.
  unfold bind at 1. destruct (_ && _); [done |]. unfold ret at 1.
  unfold bind at 1.
  destruct (load_group_type gt w) as [[t|e] w0] eqn:Egt; [| done].
  apply load_group_type_reads in Egt as Hw0. subst w0.
  unfold bind at 1. destruct (negb _); [done |]. unfold ret at 1.
  unfold bind, new_uuid, db.share_group_create, ret.
  intros [= <- <-]. cbn.
  apply resolve_share_types_objects in Eres as (new & -> & Hnew). done.
Qed.

(** X7: what a successful [create] leaves. The returned group is
    stored under its own identifier, is in status [creating], and
    carries the caller's user, project, group type and source snapshot.
    A clone has the host of the source group and is sent, alone, to the
    share manager of that host; any other group has no host and is sent
    to the scheduler with a request that names it, repeats its group
    type, source snapshot, network, server, name, description, user,
    project and status, has no host, and holds under [share_types] the
    stored share types of the caller's share type ids (none when the
    caller gave none, whatever share types the group then has) and
    under [resource_type] the stored group type. *)
Theorem create_stores_and_dispatches ctx name desc tys sid net gt w g w' :
  create ctx name desc tys sid net gt w = (Ok g, w') ->
  share_groups w' !! sg_id g = Some g
  /\ sg_status g = STATUS_CREATING
  /\ sg_user_id g = ctx_user_id ctx
  /\ sg_project_id g = ctx_project_id ctx
  /\ sg_share_group_type_id g = gt
  /\ sg_source_group_snapshot_id g = sid
  /\ ((truthy sid = true
       /\ exists id snap og,
           sid = Some id
           /\ group_snapshots w !! id = Some snap
           /\ share_groups w !! gs_share_group_id snap = Some og
           /\ sg_host g = sg_host og
           /\ sent w' = app (sent w)
                          [share_create_share_group g (sg_host og)])
      \/ (truthy sid = false
          /\ sg_host g = None
          /\ exists request_spec,
              sent w' = app (sent w)
                          [scheduler_create_share_group (sg_id g)
                             request_spec]
              /\ rs_share_group_id request_spec = sg_id g
              /\ rs_share_group_type_id request_spec
                 = sg_share_group_type_id g
              /\ rs_source_group_snapshot_id request_spec
                 = sg_source_group_snapshot_id g
              /\ rs_share_network_id request_spec = sg_share_network_id g
              /\ rs_share_server_id request_spec = sg_share_server_id g
              /\ rs_name request_spec = sg_name g
              /\ rs_description request_spec = sg_description g
              /\ rs_user_id request_spec = sg_user_id g
              /\ rs_project_id request_spec = sg_project_id g
              /\ rs_status request_spec = sg_status g
              /\ rs_host request_spec = None
              /\ Forall2 (fun id t => share_types_table w !! id = Some t)
                   (or_nil tys) (rs_share_types request_spec)
              /\ exists gtid, gt = Some gtid
                              /\ group_types_table w !! gtid
                                 = Some (rs_resource_type request_spec))).
Proof.
  intros (p & w1 & w2 & Hrec & -> & Hclone & ->)%create_ok_inv.
  apply clone_members_frame in Hclone as (Hg & Hs & _).
  pose proof (create_record_objects _ _ _ _ _ _ _ _ _ _ Hrec) as Hobjs.
  apply create_record_ok in Hrec as (Hsrc & (gtid & -> & Hgt) & Hopt & Hgroup & ->).
  assert (sg_id (p_group p) = generate_uuid w) as Hid by by rewrite Hgroup.
  split.
  { cbn. rewrite Hg. cbn. rewrite Hid. apply lookup_insert_eq. }
  rewrite Hgroup at 1 2 3 4 5. rewrite Hopt. cbn.
  do 5 (split; [done |]).
  cbn in Hs. rewrite Hs.
  apply resolve_source_ok in Hsrc
      as [[Ht Hp] | (Ht & id & snap & og & -> & Hsnap & _ & Hog & Hp)].
  - right. split; [done |]. unfold dispatch_of. rewrite Hgroup at 1.
    rewrite Hopt, Hp. cbn. split; [done |].
    eexists. split; [reflexivity |]. rewrite Hp in Hobjs.
    rewrite Hgroup, Hopt, Hp. cbn. do 11 (split; [done |]).
    split; [exact Hobjs |]. by exists gtid.
  - left. split; [done |]. exists id, snap, og.
    unfold dispatch_of. rewrite Hgroup at 1. rewrite Hopt, Hp. cbn. done.
Qed.

(** X8: a group created without a source snapshot has no host yet, so
    [delete] right after [create] destroys it: the stored groups are
    those from before the [create], and the deletion sends nothing. *)
Theorem create_then_delete_restores_groups
        ctx ctx' name desc tys sid net gt w g w' :
  truthy sid = false ->
  share_groups w !! generate_uuid w = None ->
  create ctx name desc tys sid net gt w = (Ok g, w') ->
  exists w'',
    delete ctx' g w' = (Ok tt, w'')
    /\ share_groups w'' = share_groups w
    /\ sent w'' = sent w'.
Proof.
  intros Hsid Hfresh (p & w1 & w2 & Hrec & -> & Hclone & ->)%create_ok_inv.
  apply clone_members_frame in Hclone as (Hg & _).
  apply create_record_ok in Hrec as (Hsrc & _ & Hopt & Hgroup & ->).
  rewrite (resolve_source_no_snapshot _ _ _ _ Hsid) in Hsrc.
  injection Hsrc as Hsrc.
  assert (sg_id (p_group p) = generate_uuid w) as Hid by by rewrite Hgroup.
  assert (sg_host (p_group p) = None) as Hhost.
  { by rewrite Hgroup, Hopt, <- Hsrc. }
  eexists. unfold delete. rewrite Hhost. cbn [truthy negb].
  unfold db.share_group_destroy. cbn [share_groups set_sent].
  rewrite Hg. cbn [share_groups set_share_groups]. rewrite Hid.
  rewrite lookup_insert_eq. split; [reflexivity |]. cbn.
  rewrite Hg. cbn. split; [by rewrite delete_insert_id | done].
Qed.

(** X9: a clone that inherited a host is in status [creating], so
    [delete] right after [create] is refused with [InvalidShareGroup]
    and the store stays as [create] left it. *)
Theorem clone_cannot_be_deleted_at_once
        ctx ctx' name desc tys sid net gt w g w' :
  truthy sid = true ->
  create ctx name desc tys sid net gt w = (Ok g, w') ->
  truthy (sg_host g) = true ->
  exists msg, delete ctx' g w' = (Raise (InvalidShareGroup msg), w').
Proof.
  intros Hsid (p & w1 & w2 & Hrec & -> & Hclone & ->)%create_ok_inv Hhost.
  apply create_record_ok in Hrec as (_ & _ & Hopt & Hgroup & _).
  assert (sg_status (p_group p) = STATUS_CREATING) as Hst.
  { by rewrite Hgroup, Hopt. }
  unfold delete. rewrite Hhost. cbn [negb]. rewrite Hst.
  rewrite bool_decide_eq_false_2; [by eexists |].
  intros Hin. repeat (apply elem_of_cons in Hin as [Hin | Hin];
                      [discriminate Hin |]).
  by apply elem_of_nil in Hin.
Qed.
End CreateMore.

(** ** [API.delete] *)

Section DeleteMore.
Import constants api.

Lemma size_filter_zero {A} (P : string * A -> Prop)
      `{forall x, Decision (P x)} (m : gmap string A) :
  (forall k a, m !! k = Some a -> ~ P (k, a)) -> size (filter P m) = 0.
Proof.
  intros Hnone. apply map_size_empty_iff, map_empty. intros k.
  apply map_lookup_filter_None. right. intros a Hk. by apply Hnone.
Qed.

Lemma size_filter_succ {A} (P : string * A -> Prop)
      `{forall x, Decision (P x)} (m : gmap string A) (n : nat) :
  size (filter P m) = S n -> exists k a, m !! k = Some a /\ P (k, a).
Proof.
  intros Hsize.
  destruct (map_choose (filter P m)) as (k & a & Hk).
  { intros Hempty. rewrite Hempty, map_size_empty in Hsize. discriminate. }
  apply map_lookup_filter_Some in Hk. by exists k, a.
Qed.

Lemma group_is_empty_counts (w : World) (id : string) :
  group_is_empty w id ->
  db.count_group_snapshots_in_share_group id w = 0
  /\ db.count_shares_in_share_group id w = 0.
Proof.
  intros [Hshares Hsnaps]. split.
  - apply size_filter_zero. intros k s Hk. by apply (Hsnaps k).
  - apply size_filter_zero. intros k s Hk. by apply (Hshares k).
Qed.

Lemma status_is_final (status : string) :
  status ∈ [STATUS_AVAILABLE; STATUS_ERROR] <->
  status = STATUS_AVAILABLE \/ status = STATUS_ERROR.
Proof.
  rewrite !elem_of_cons, elem_of_nil. tauto.
Qed.

Lemma delete_not_final (context : Context) (group : ShareGroup) (w : World) :
  truthy (sg_host group) = true ->
  sg_status group ≠ STATUS_AVAILABLE ->
  sg_status group ≠ STATUS_ERROR ->
  delete context group w = (Raise (InvalidShareGroup msg_group_statuses), w).
Proof.
  intros Hhost Ha He. unfold delete. rewrite Hhost. cbn [negb].
  rewrite bool_decide_eq_false_2; [done |].
  rewrite status_is_final. tauto.
Qed.

(** X10: a group that has a host but is neither [available] nor in
    [error] cannot be deleted: [delete] raises [InvalidShareGroup],
    whatever the group holds, and changes nothing. *)
Theorem delete_requires_final_status (context : Context)
        (group : ShareGroup) (w : World) :
  truthy (sg_host group) = true ->
  sg_status group ≠ STATUS_AVAILABLE ->
  sg_status group ≠ STATUS_ERROR ->
  delete context group w = (Raise (InvalidShareGroup msg_group_statuses), w)
  /\ forall w', delete context group w ≠ (Ok tt, w').
Proof.
  intros Hhost Ha He.
  rewrite (delete_not_final context group w Hhost Ha He). done.
Qed.

Lemma delete_placed_empty (context : Context) (group stored : ShareGroup)
      (w : World) :
  truthy (sg_host group) = true ->
  sg_status group = STATUS_AVAILABLE \/ sg_status group = STATUS_ERROR ->
  group_is_empty w (sg_id group) ->
  share_groups w !! sg_id group = Some stored ->
  let deleting := db.with_status stored STATUS_DELETING in
  delete context group w
  = (Ok tt,
     set_sent (fun l => app l [share_delete_share_group deleting])
       (set_share_groups (insert (sg_id group) deleting) w)).
Proof.
  intros Hhost Hst Hempty Hstored deleting.
  apply group_is_empty_counts in Hempty as [Hsnaps Hshares].
  unfold delete. rewrite Hhost. cbn [negb].
  rewrite bool_decide_eq_true_2 by by apply status_is_final.
  cbn [negb]. unfold bind at 1. unfold reads at 1. rewrite Hsnaps.
  cbn [Nat.eqb negb]. unfold bind at 1. unfold reads at 1. rewrite Hshares.
  cbn [Nat.eqb negb]. unfold bind, db.share_group_update_status.
  rewrite Hstored. reflexivity.
Qed.

(** X11: what a successful [delete] of a placed group does. For a
    group with a host, in status [available] or [error], holding no
    share and no snapshot, the stored record gets the status
    [deleting], no other group changes, shares and snapshots are left
    alone, and the updated record, not the caller's, is sent to the
    share manager. *)
Theorem delete_marks_group_deleting (context : Context)
        (group stored : ShareGroup) (w : World) :
  truthy (sg_host group) = true ->
  sg_status group = STATUS_AVAILABLE \/ sg_status group = STATUS_ERROR ->
  group_is_empty w (sg_id group) ->
  share_groups w !! sg_id group = Some stored ->
  exists w',
    delete context group w = (Ok tt, w')
    /\ share_groups w' !! sg_id group
       = Some (db.with_status stored STATUS_DELETING)
    /\ (forall id, id ≠ sg_id group ->
                   share_groups w' !! id = share_groups w !! id)
    /\ sent w' = app (sent w)
                   [share_delete_share_group
                      (db.with_status stored STATUS_DELETING)]
    /\ shares w' = shares w
    /\ group_snapshots w' = group_snapshots w.
Proof.
  intros Hhost Hst Hempty Hstored. eexists.
  split; [by apply (delete_placed_empty context group stored) |].
  cbn. split; [apply lookup_insert_eq |].
  split; [| done]. intros id Hne. by apply lookup_insert_ne.
Qed.

(** X12: deleting twice. After a successful [delete] of a placed
    group, fetching the group again with [get] and deleting what comes
    back is refused with [InvalidShareGroup]: the group is in status
    [deleting]. The store is as the first [delete] left it. *)
Theorem delete_twice_is_refused (context : Context)
        (group stored : ShareGroup) (w : World) :
  truthy (sg_host group) = true ->
  truthy (sg_host stored) = true ->
  sg_status group = STATUS_AVAILABLE \/ sg_status group = STATUS_ERROR ->
  group_is_empty w (sg_id group) ->
  share_groups w !! sg_id group = Some stored ->
  exists w',
    delete context group w = (Ok tt, w')
    /\ bind (delete context group)
         (fun _ =>
            bind (api_getters.get context (sg_id group))
              (fun group' => delete context group')) w
       = (Raise (InvalidShareGroup msg_group_statuses), w').
Proof.
  intros Hhost Hhost' Hst Hempty Hstored. eexists.
  pose proof (delete_placed_empty context group stored w Hhost Hst Hempty
                Hstored) as Hdel.
  split; [exact Hdel |].
  unfold bind at 1. rewrite Hdel. cbn zeta.
  unfold bind at 1. unfold api_getters.get, reads, db.share_group_get,
    db.lookup_or.
  cbn [share_groups set_sent set_share_groups].
  rewrite lookup_insert_eq.
  apply delete_not_final; done.
Qed.

(** X13: a refused [delete] changes nothing, and it is refused for one
    of four reasons only: the group is not stored
    ([ShareGroupNotFound]); or the group has a host and its status is
    not final, or a snapshot of it exists, or a share belongs to it
    ([InvalidShareGroup], with the message of that check). *)
Theorem delete_failure_changes_nothing (context : Context)
        (group : ShareGroup) (w : World) (e : exn) (w' : World) :
  delete context group w = (Raise e, w') ->
  w' = w
  /\ (e = ShareGroupNotFound (sg_id group)
      /\ share_groups w !! sg_id group = None
      \/ truthy (sg_host group) = true
         /\ (e = InvalidShareGroup msg_group_statuses
             /\ sg_status group ≠ STATUS_AVAILABLE
             /\ sg_status group ≠ STATUS_ERROR
             \/ e = InvalidShareGroup msg_has_snapshots
                /\ (exists id s, group_snapshots w !! id = Some s
                                 /\ gs_share_group_id s = sg_id group)
             \/ e = InvalidShareGroup msg_has_shares
                /\ (exists id s, shares w !! id = Some s
                                 /\ share_share_group_id s
                                    = Some (sg_id group)))).
Proof.
  unfold delete.
  destruct (truthy (sg_host group)) eqn:Hhost; cbn [negb].
  2:{ unfold db.share_group_destroy.
      destruct (share_groups w !! sg_id group) eqn:Hg; [done |].
      intros [= <- <-]. split; [done |]. by left. }
  case_bool_decide as Hst; cbn [negb].
  2:{ intros [= <- <-]. split; [done |]. right. split; [done |]. left.
      rewrite status_is_final in Hst. split; [done |]. tauto. }
  unfold bind at 1. unfold reads at 1.
  destruct (db.count_group_snapshots_in_share_group (sg_id group) w)
    as [|n] eqn:Hsnaps; cbn [Nat.eqb negb].
  2:{ intros [= <- <-]. split; [done |]. right. split; [done |].
      right; left. split; [done |].
      apply size_filter_succ in Hsnaps as (id & s & Hs & Hp).
      by exists id, s. }
  unfold bind at 1. unfold reads at 1.
  destruct (db.count_shares_in_share_group (sg_id group) w)
    as [|n] eqn:Hshares; cbn [Nat.eqb negb].
  2:{ intros [= <- <-]. split; [done |]. right. split; [done |].
      right; right. split; [done |].
      apply size_filter_succ in Hshares as (id & s & Hs & Hp).
      by exists id, s. }
  unfold bind, db.share_group_update_status.
  destruct (share_groups w !! sg_id group) eqn:Hg; [done |].
  intros [= <- <-]. split; [done |]. by left.
Qed.
End DeleteMore.

(** ** [API.create_group_snapshot] and [API.delete_group_snapshot] *)

Section SnapshotDeleteMore.
Import constants api.

Lemma snapshot_status_is_final (status : string) :
  status ∈ [STATUS_AVAILABLE; STATUS_ERROR] <->
  status = STATUS_AVAILABLE \/ status = STATUS_ERROR.
Proof.
  rewrite !elem_of_cons, elem_of_nil. tauto.
Qed.

Lemma delete_group_snapshot_not_final (context : Context)
      (snap : GroupSnapshot) (group : ShareGroup) (w : World) :
  share_groups w !! gs_share_group_id snap = Some group ->
  gs_status snap ≠ STATUS_AVAILABLE ->
  gs_status snap ≠ STATUS_ERROR ->
  delete_group_snapshot context snap w
  = (Raise (InvalidGroupSnapshot msg_snapshot_statuses), w).
Proof.
  intros Hgroup Ha He. unfold delete_group_snapshot, bind, reads.
  unfold db.share_group_get, db.lookup_or. rewrite Hgroup.
  rewrite bool_decide_eq_false_2; [done |].
  rewrite snapshot_status_is_final. tauto.
Qed.

(** X14: [delete_group_snapshot] looks the parent group up before it
    checks the status: a snapshot whose group is not stored gives
    [ShareGroupNotFound]; a snapshot of a stored group that is neither
    [available] nor in [error] gives [InvalidGroupSnapshot]. Nothing
    changes in either case. *)
Theorem delete_group_snapshot_requires_final_status (context : Context)
        (snap : GroupSnapshot) (w : World) :
  (share_groups w !! gs_share_group_id snap = None ->
   delete_group_snapshot context snap w
   = (Raise (ShareGroupNotFound (gs_share_group_id snap)), w))
  /\ (forall group,
        share_groups w !! gs_share_group_id snap = Some group ->
        gs_status snap ≠ STATUS_AVAILABLE ->
        gs_status snap ≠ STATUS_ERROR ->
        delete_group_snapshot context snap w
        = (Raise (InvalidGroupSnapshot msg_snapshot_statuses), w)).
Proof.
  split.
  - intros Hnone. unfold delete_group_snapshot, bind, reads.
    unfold db.share_group_get, db.lookup_or. by rewrite Hnone.
  - intros group. apply delete_group_snapshot_not_final.
Qed.

(** X15: what a successful [delete_group_snapshot] does. The stored
    snapshot gets the status [deleting]; the message to the share
    manager carries the caller's record, not the updated one, and the
    host of the parent group; groups, members and shares are left
    alone. *)
Theorem delete_group_snapshot_marks_deleting (context : Context)
        (snap stored : GroupSnapshot) (group : ShareGroup) (w : World) :
  share_groups w !! gs_share_group_id snap = Some group ->
  gs_status snap = STATUS_AVAILABLE \/ gs_status snap = STATUS_ERROR ->
  group_snapshots w !! gs_id snap = Some stored ->
  exists w',
    delete_group_snapshot context snap w = (Ok tt, w')
    /\ group_snapshots w'
       = <[gs_id snap := db.snap_with_status stored STATUS_DELETING]>
           (group_snapshots w)
    /\ sent w' = app (sent w) [share_delete_group_snapshot snap (sg_host group)]
    /\ share_groups w' = share_groups w
    /\ group_snapshot_members w' = group_snapshot_members w
    /\ shares w' = shares w.
Proof.
  intros Hgroup Hst Hstored. eexists.
  unfold delete_group_snapshot. unfold bind at 1. unfold reads at 1.
  unfold db.share_group_get, db.lookup_or. rewrite Hgroup.
  rewrite bool_decide_eq_true_2 by by apply snapshot_status_is_final.
  cbn [negb]. unfold bind, db.group_snapshot_update_status. rewrite Hstored.
  split; [reflexivity |]. done.
Qed.

(** X16: a refused [delete_group_snapshot] changes nothing, and it is
    refused for one of three reasons only: the parent group is not
    stored, the status is not final, or the snapshot is not stored. *)
Theorem delete_group_snapshot_failure_changes_nothing (context : Context)
        (snap : GroupSnapshot) (w : World) (e : exn) (w' : World) :
  delete_group_snapshot context snap w = (Raise e, w') ->
  w' = w
  /\ (e = ShareGroupNotFound (gs_share_group_id snap)
      /\ share_groups w !! gs_share_group_id snap = None
      \/ e = InvalidGroupSnapshot msg_snapshot_statuses
         /\ gs_status snap ≠ STATUS_AVAILABLE /\ gs_status snap ≠ STATUS_ERROR
      \/ e = GroupSnapshotNotFound (gs_id snap)
         /\ group_snapshots w !! gs_id snap = None).
Proof.
  unfold delete_group_snapshot. unfold bind at 1. unfold reads at 1.
  unfold db.share_group_get, db.lookup_or.
  destruct (share_groups w !! gs_share_group_id snap) as [group|] eqn:Hgroup.
  2:{ intros [= <- <-]. split; [done |]. by left. }
  case_bool_decide as Hst; cbn [negb].
  2:{ intros [= <- <-]. split; [done |]. right; left. split; [done |].
      rewrite snapshot_status_is_final in Hst. tauto. }
  unfold bind, db.group_snapshot_update_status.
  destruct (group_snapshots w !! gs_id snap) eqn:Hstored; [done |].
  intros [= <- <-]. split; [done |]. right; right. done.
Qed.

End SnapshotDeleteMore.

Section SnapshotMore.
Import constants api.
Variable generate_uuid : World -> string.

Abbreviation create_group_snapshot := (api.create_group_snapshot generate_uuid).
Abbreviation create_member := (api.create_member generate_uuid).

Lemma check_shares_available_ok (l : list Share) :
  check_shares_available l = Ok tt <->
  forall s, s ∈ l -> share_status s = STATUS_AVAILABLE.
Proof.
  induction l as [|x l IH]; cbn [check_shares_available].
  - split; [| done]. intros _ s Hin. by apply elem_of_nil in Hin.
  - case_bool_decide as Hx; cbn [negb].
    + rewrite IH. split.
      * intros Hl s [-> | Hin]%elem_of_cons; [done | by apply Hl].
      * intros Hl s Hin. apply Hl. by apply elem_of_cons; right.
    + split; [done |]. intros Hl. exfalso. apply Hx, Hl, list_elem_of_here.
Qed.

Lemma listed_share_in_group (w : World) (gid : string) (s : Share) :
  s ∈ db.share_get_all_by_share_group_id gid w ->
  exists id, shares w !! id = Some s /\ share_share_group_id s = Some gid.
Proof.
  unfold db.share_get_all_by_share_group_id.
  intros ([id s'] & -> & Hin)%list_elem_of_fmap.
  apply elem_of_map_to_list, map_lookup_filter_Some in Hin as [Hs Hg].
  by exists id.
Qed.

Lemma create_member_eq (context : Context) (snap : GroupSnapshot) (s : Share)
      (w : World) :
  create_member context snap s w
  = (Ok tt,
     set_group_snapshot_members
       (insert (generate_uuid w)
          (db.member_of_options (generate_uuid w)
             (member_options_of context snap s))) w).
Proof. reflexivity. Qed.

Lemma options_of_member_of_options (id : string) (o : MemberOptions) :
  options_of_member (db.member_of_options id o) = o.
Proof. by destruct o. Qed.

(** The member loop cannot fail and touches the members only. *)
Lemma for_each_create_member_frame (context : Context) (snap : GroupSnapshot)
      (l : list Share) (w : World) :
  exists w',
    for_each l (create_member context snap) w = (Ok tt, w')
    /\ share_groups w' = share_groups w
    /\ group_snapshots w' = group_snapshots w
    /\ shares w' = shares w
    /\ sent w' = sent w.
Proof.
  revert w. induction l as [|s l IH]; intros w; cbn [for_each].
  - by exists w.
  - unfold bind. rewrite create_member_eq.
    destruct (IH (set_group_snapshot_members
                    (insert (generate_uuid w)
                       (db.member_of_options (generate_uuid w)
                          (member_options_of context snap s))) w))
      as (w' & -> & H1 & H2 & H3 & H4).
    by exists w'.
Qed.

Lemma members_get_all_insert (id k : string) (m : GroupSnapshotMember)
      (w : World) :
  group_snapshot_members w !! k = None ->
  gsm_group_snapshot_id m = id ->
  db.group_snapshot_members_get_all id
    (set_group_snapshot_members (insert k m) w)
  ≡ₚ m :: db.group_snapshot_members_get_all id w.
Proof.
  intros Hk Hm. unfold db.group_snapshot_members_get_all.
  cbn [group_snapshot_members set_group_snapshot_members].
  rewrite map_filter_insert_True by done.
  rewrite map_to_list_insert; [done |].
  apply map_lookup_filter_None. by left.
Qed.

(** With fresh identifiers, the loop adds one member per share. *)
Lemma for_each_create_member_members (context : Context)
      (snap : GroupSnapshot) (l : list Share) (w w' : World) :
  generates_fresh generate_uuid ->
  for_each l (create_member context snap) w = (Ok tt, w') ->
  group_snapshot_members w ⊆ group_snapshot_members w'
  /\ options_of_member <$> db.group_snapshot_members_get_all (gs_id snap) w'
     ≡ₚ app (member_options_of context snap <$> l)
            (options_of_member
               <$> db.group_snapshot_members_get_all (gs_id snap) w).
Proof.
  intros Hfresh. revert w. induction l as [|s l IH]; intros w; cbn [for_each].
  - by intros [= <-].
  - unfold bind. rewrite create_member_eq. intros Hrest.
    destruct (Hfresh w) as (_ & _ & Hk).
    apply IH in Hrest as [Hsub Hperm]. split.
    + etrans; [| exact Hsub].
      cbn [group_snapshot_members set_group_snapshot_members].
      by apply insert_subseteq.
    + rewrite Hperm, members_get_all_insert by done.
      rewrite fmap_cons, options_of_member_of_options. cbn [fmap list_fmap app].
      by rewrite Permutation_middle.
Qed.

Lemma create_group_snapshot_ok_inv (context : Context)
      (name description : option string) (share_group_id : string)
      (w : World) (snap : GroupSnapshot) (w' : World) :
  create_group_snapshot context name description share_group_id w
  = (Ok snap, w') ->
  exists group w2,
    share_groups w !! share_group_id = Some group
    /\ sg_status group = STATUS_AVAILABLE
    /\ check_shares_available
         (db.share_get_all_by_share_group_id share_group_id w) = Ok tt
    /\ snap = snapshot_of context name description share_group_id
                (generate_uuid w)
    /\ for_each (db.share_get_all_by_share_group_id share_group_id w)
         (create_member context snap)
         (set_group_snapshots (insert (generate_uuid w) snap) w) = (Ok tt, w2)
    /\ w' = set_sent
              (fun l => app l [share_create_group_snapshot snap (sg_host group)])
              w2.
Proof.
  unfold api.create_group_snapshot. unfold bind at 1. unfold reads at 1.
  unfold db.share_group_get, db.lookup_or.
  destruct (share_groups w !! share_group_id) as [group|] eqn:Hgroup; [| done].
  case_bool_decide as Hst; cbn [negb]; [| done].
  unfold bind at 1. unfold reads at 1. unfold bind at 1. unfold reads at 1.
  destruct (check_shares_available _) as [[]|e] eqn:Hcheck; [| done].
  unfold bind at 1. unfold new_uuid at 1.
  unfold bind at 1. unfold db.group_snapshot_create at 1.
  unfold bind at 1. unfold try_except. unfold bind at 1.
  match goal with
  | |- context [for_each ?l (api.create_member _ ?c ?s) ?w0] =>
      destruct (for_each_create_member_frame c s l w0) as (w2 & Hloop & _)
  end.
  rewrite Hloop. unfold cast, writes, ret. intros [= <- <-].
  by exists group, w2.
Qed.

Lemma create_group_snapshot_frame (context : Context)
      (name description : option string) (share_group_id : string)
      (w : World) (snap : GroupSnapshot) (w' : World) :
  create_group_snapshot context name description share_group_id w
  = (Ok snap, w') ->
  exists group,
    share_groups w !! share_group_id = Some group
    /\ sg_status group = STATUS_AVAILABLE
    /\ snap = snapshot_of context name description share_group_id
                (generate_uuid w)
    /\ share_groups w' = share_groups w
    /\ group_snapshots w' = <[generate_uuid w := snap]> (group_snapshots w)
    /\ shares w' = shares w
    /\ sent w' = app (sent w)
                   [share_create_group_snapshot snap (sg_host group)].
Proof.
  intros (group & w2 & Hgroup & Hst & _ & Hsnap & Hloop & ->)
         %create_group_snapshot_ok_inv.
  destruct (for_each_create_member_frame context snap
              (db.share_get_all_by_share_group_id share_group_id w)
              (set_group_snapshots (insert (generate_uuid w) snap) w))
    as (w2' & Hloop' & H1 & H2 & H3 & H4).
  rewrite Hloop in Hloop'. injection Hloop' as <-.
  exists group. cbn. by rewrite H1, H2, H3, H4.
Qed.

(** X17: what a successful [create_group_snapshot] leaves. For an
    available group whose shares are all available, with identifiers
    that are never in use and no member already pointing at the new
    identifier: the snapshot is stored in status [creating], groups
    and shares are unchanged, earlier members are kept, the members of
    the new snapshot are, up to order, one per share of the group with
    the size, protocol, share and instance of that share, and the
    snapshot is sent to the share manager of the group's host. *)
Theorem create_group_snapshot_stores_snapshot_and_members
        (context : Context) (name description : option string)
        (share_group_id : string) (group : ShareGroup) (w : World) :
  generates_fresh generate_uuid ->
  share_groups w !! share_group_id = Some group ->
  sg_status group = STATUS_AVAILABLE ->
  (forall id s, shares w !! id = Some s ->
                share_share_group_id s = Some share_group_id ->
                share_status s = STATUS_AVAILABLE) ->
  (forall k m, group_snapshot_members w !! k = Some m ->
               gsm_group_snapshot_id m ≠ generate_uuid w) ->
  let snap :=
    snapshot_of context name description share_group_id (generate_uuid w) in
  exists w',
    create_group_snapshot context name description share_group_id w
    = (Ok snap, w')
    /\ group_snapshots w' = <[gs_id snap := snap]> (group_snapshots w)
    /\ gs_status snap = STATUS_CREATING
    /\ share_groups w' = share_groups w
    /\ shares w' = shares w
    /\ sent w' = app (sent w)
                   [share_create_group_snapshot snap (sg_host group)]
    /\ group_snapshot_members w ⊆ group_snapshot_members w'
    /\ options_of_member
         <$> db.group_snapshot_members_get_all (gs_id snap) w'
       ≡ₚ member_options_of context snap
            <$> db.share_get_all_by_share_group_id share_group_id w.
Proof.
  intros Hfresh Hgroup Hst Hshares Hdangling snap.
  set (l := db.share_get_all_by_share_group_id share_group_id w).
  set (w1 := set_group_snapshots (insert (generate_uuid w) snap) w).
  destruct (for_each_create_member_frame context snap l w1)
    as (w2 & Hloop & H1 & H2 & H3 & H4).
  exists (set_sent
            (fun l => app l [share_create_group_snapshot snap (sg_host group)])
            w2).
  assert (create_group_snapshot context name description share_group_id w
          = (Ok snap,
             set_sent
               (fun l =>
                  app l [share_create_group_snapshot snap (sg_host group)])
               w2)) as Hrun.
  { unfold api.create_group_snapshot. unfold bind at 1. unfold reads at 1.
    unfold db.share_group_get, db.lookup_or. rewrite Hgroup.
    rewrite bool_decide_eq_true_2 by done. cbn [negb].
    unfold bind at 1. unfold reads at 1. unfold bind at 1. unfold reads at 1.
    fold l.
    assert (check_shares_available l = Ok tt) as ->.
    { apply check_shares_available_ok. intros s Hin.
      apply listed_share_in_group in Hin as (id & Hs & Hg). by eapply Hshares. }
    unfold bind at 1. unfold new_uuid at 1.
    unfold bind at 1. unfold db.group_snapshot_create at 1.
    unfold bind at 1. unfold try_except. unfold bind at 1.
    change (db.group_snapshot_of_options _ _) with snap.
    change (set_group_snapshots _ w) with w1. rewrite Hloop. reflexivity. }
  split; [exact Hrun |].
  apply (for_each_create_member_members context snap l w1 w2 Hfresh) in Hloop
    as [Hsub Hperm].
  cbn. rewrite H1, H2, H3, H4. cbn.
  do 6 (split; [done |]).
  unfold db.group_snapshot_members_get_all in *.
  cbn [group_snapshot_members set_sent]. cbn in Hperm. rewrite Hperm.
  assert (filter (fun kv : string * GroupSnapshotMember =>
                    gsm_group_snapshot_id kv.2 = generate_uuid w)
                 (group_snapshot_members w) = ∅) as ->.
  { apply map_empty_filter. intros k m Hk. cbn. by apply Hdangling in Hk. }
  by rewrite map_to_list_empty, app_nil_r.
Qed.

(** X18: a snapshot protects its group. After a successful
    [create_group_snapshot] of a placed group, [delete] of that group
    is refused with [InvalidShareGroup] for its snapshots, also when
    the group holds no share. *)
Theorem snapshot_blocks_group_delete
        (context context' : Context) (name description : option string)
        (group : ShareGroup) (w : World) (snap : GroupSnapshot) (w' : World) :
  share_groups w !! sg_id group = Some group ->
  truthy (sg_host group) = true ->
  create_group_snapshot context name description (sg_id group) w
  = (Ok snap, w') ->
  delete context' group w'
  = (Raise (InvalidShareGroup msg_has_snapshots), w').
Proof.
  intros Hgroup Hhost
         (group' & Hgroup' & Hst & Hsnap & _ & Hsnaps & _)
         %create_group_snapshot_frame.
  rewrite Hgroup in Hgroup'. injection Hgroup' as <-.
  unfold delete. rewrite Hhost. cbn [negb]. rewrite Hst.
  rewrite bool_decide_eq_true_2 by apply list_elem_of_here. cbn [negb].
  unfold bind at 1. unfold reads at 1.
  destruct (db.count_group_snapshots_in_share_group (sg_id group) w')
    as [|n] eqn:Hcount; [| done].
  exfalso. unfold db.count_group_snapshots_in_share_group in Hcount.
  apply map_size_empty_iff in Hcount.
  assert (filter (fun kv : string * GroupSnapshot =>
                    gs_share_group_id kv.2 = sg_id group)
                 (group_snapshots w') !! generate_uuid w = Some snap) as Hin.
  { apply map_lookup_filter_Some. rewrite Hsnaps, lookup_insert_eq.
    split; [done |]. by rewrite Hsnap. }
  rewrite Hcount in Hin. by rewrite lookup_empty in Hin.
Qed.

(** X19: the snapshot [create_group_snapshot] returns is in status
    [creating], so handing it to [delete_group_snapshot] right away is
    refused with [InvalidGroupSnapshot]. *)
Theorem new_snapshot_cannot_be_deleted
        (context context' : Context) (name description : option string)
        (share_group_id : string) (w : World) (snap : GroupSnapshot)
        (w' : World) :
  create_group_snapshot context name description share_group_id w
  = (Ok snap, w') ->
  delete_group_snapshot context' snap w'
  = (Raise (InvalidGroupSnapshot msg_snapshot_statuses), w').
Proof.
  intros (group & Hgroup & _ & Hsnap & Hgroups & _)%create_group_snapshot_frame.
  apply (delete_group_snapshot_not_final context' snap group).
  - rewrite Hgroups. by rewrite Hsnap.
  - by rewrite Hsnap.
  - by rewrite Hsnap.
Qed.

End SnapshotMore.

(** ** The group type registry *)

Section RegistryLists.
Import group_type_registry.

Lemma check_extra_specs_match_list (t : GroupType)
      (extra_specs : gmap string string) (l : list (string * string)) :
  group_type_extra_specs t = Some extra_specs ->
  _check_extra_specs_match t l
  = Done (bool_decide (Forall (fun kv => extra_specs !! kv.1 = Some kv.2) l)).
Proof.
  intros Ht. induction l as [|[k v] l IH]; cbn [_check_extra_specs_match].
  - by rewrite bool_decide_eq_true_2.
  - rewrite Ht. destruct (extra_specs !! k) as [x|] eqn:Hk.
    + destruct (bool_decide (x = v)) eqn:Hx; cbn [negb].
      * apply bool_decide_eq_true in Hx as ->.
        rewrite IH. f_equal. apply bool_decide_ext. rewrite Forall_cons.
        cbn [fst snd]. rewrite Hk. tauto.
      * apply bool_decide_eq_false in Hx.
        rewrite bool_decide_eq_false_2; [done |].
        intros [Hh _]%Forall_cons. cbn [fst snd] in Hh. congruence.
    + rewrite bool_decide_eq_false_2; [done |].
      intros [Hh _]%Forall_cons. cbn [fst snd] in Hh. congruence.
Qed.

Lemma check_extra_specs_match_spec (t : GroupType) (d : gmap string string) :
  group_type_extra_specs t ≠ None ->
  _check_extra_specs_match t (map_to_list d) = Done (specs_match d t).
Proof.
  intros Ht. unfold specs_match.
  destruct (group_type_extra_specs t) as [extra_specs|] eqn:Hes; [| done].
  rewrite (check_extra_specs_match_list t extra_specs) by done.
  f_equal. apply bool_decide_ext. rewrite map_Forall_to_list.
  apply Forall_iff. by intros [k v].
Qed.

Lemma any_filter_matches_no_key (t : GroupType)
      (l : list (string * search_value)) :
  "extra_specs" ∉ l.*1 -> any_filter_matches t l = Done false.
Proof.
  induction l as [|[opt values] l IH]; cbn [any_filter_matches]; [done |].
  rewrite fmap_cons, not_elem_of_cons. cbn [fst]. intros [Hne Hl].
  rewrite bool_decide_eq_false_2 by done. by apply IH.
Qed.

Lemma any_filter_matches_spec (t : GroupType) (d : gmap string string)
      (l : list (string * search_value)) :
  group_type_extra_specs t ≠ None ->
  NoDup l.*1 ->
  ("extra_specs", SearchSpecs d) ∈ l ->
  any_filter_matches t l = Done (specs_match d t).
Proof.
  intros Ht. induction l as [|[opt values] l IH]; cbn [any_filter_matches].
  - intros _ Hin. by apply elem_of_nil in Hin.
  - rewrite fmap_cons, NoDup_cons. cbn [fst]. intros [Hopt Hnd] Hin.
    apply elem_of_cons in Hin as [Hhead | Htail].
    + injection Hhead as <- <-. rewrite bool_decide_eq_true_2 by done.
      rewrite check_extra_specs_match_spec by done.
      destruct (specs_match d t); [done |].
      by apply any_filter_matches_no_key.
    + rewrite bool_decide_eq_false_2; [by apply IH |].
      intros ->. apply Hopt. apply list_elem_of_fmap.
      by exists ("extra_specs", SearchSpecs d).
Qed.

Lemma filter_types_none (l : list (string * GroupType))
      (opts : list (string * search_value)) (r : gmap string GroupType) :
  "extra_specs" ∉ opts.*1 -> filter_types l opts r = Done r.
Proof.
  intros Hno. induction l as [|[n t] l IH]; cbn [filter_types]; [done |].
  by rewrite any_filter_matches_no_key.
Qed.

Lemma filter_types_from (l : list (string * GroupType))
      (opts : list (string * search_value)) (r r' : gmap string GroupType) :
  filter_types l opts r = Done r' ->
  forall n t, r' !! n = Some t -> r !! n = Some t \/ (n, t) ∈ l.
Proof.
  revert r. induction l as [|[n0 t0] l IH]; intros r; cbn [filter_types].
  - intros [= <-] n t Hn. by left.
  - destruct (any_filter_matches t0 opts) as [[]|e]; [| | done].
    + intros Hrest n t Hn.
      destruct (IH _ Hrest n t Hn) as [Hr | Hl].
      * destruct (decide (n = n0)) as [-> | Hne].
        -- rewrite lookup_insert_eq in Hr. injection Hr as ->.
           right. apply list_elem_of_here.
        -- rewrite lookup_insert_ne in Hr by done. by left.
      * right. by apply list_elem_of_further.
    + intros Hrest n t Hn.
      destruct (IH _ Hrest n t Hn) as [Hr | Hl]; [by left |].
      right. by apply list_elem_of_further.
Qed.

Lemma filter_types_lookup (f : GroupType -> bool)
      (l : list (string * GroupType)) (opts : list (string * search_value))
      (r : gmap string GroupType) :
  (forall n t, (n, t) ∈ l -> any_filter_matches t opts = Done (f t)) ->
  NoDup l.*1 ->
  (forall n, n ∈ l.*1 -> r !! n = None) ->
  exists r',
    filter_types l opts r = Done r'
    /\ forall n t, r' !! n = Some t <->
                   r !! n = Some t \/ ((n, t) ∈ l /\ f t = true).
Proof.
  revert r. induction l as [|[n0 t0] l IH]; intros r Hf Hnd Hr;
    cbn [filter_types].
  - exists r. split; [done |]. intros n t. split; [by left |].
    intros [H | [H _]]; [done | by apply elem_of_nil in H].
  - rewrite fmap_cons in Hnd, Hr. cbn [fst] in Hnd, Hr.
    apply NoDup_cons in Hnd as [Hn0 Hnd].
    rewrite (Hf n0 t0) by apply list_elem_of_here.
    assert (forall n t, (n, t) ∈ l -> any_filter_matches t opts = Done (f t))
      as Hf'.
    { intros n t Hin. apply (Hf n). by apply list_elem_of_further. }
    assert (forall n t, (n, t) ∈ l -> n ≠ n0) as Hother.
    { intros n t Hin ->. apply Hn0. apply list_elem_of_fmap. by exists (n0, t). }
    destruct (f t0) eqn:Hft.
    + destruct (IH (<[n0 := t0]> r) Hf' Hnd) as (r' & -> & Hr').
      { intros n Hin. rewrite lookup_insert_ne.
        - apply Hr. by apply list_elem_of_further.
        - intros <-. done. }
      exists r'. split; [done |]. intros n t. rewrite Hr', elem_of_cons.
      destruct (decide (n = n0)) as [-> | Hne].
      * rewrite lookup_insert_eq, (Hr n0) by apply list_elem_of_here.
        split.
        -- intros [[= <-] | [Hin _]]; [| by apply Hother in Hin].
           right. split; [by left | done].
        -- intros [H | [[[= <-] | Hin] _]]; [done | by left |].
           by apply Hother in Hin.
      * rewrite lookup_insert_ne by done. split.
        -- intros [H | [Hin Ht]]; [by left | right; split; [by right | done]].
        -- intros [H | [[[= -> _] | Hin] Ht]]; [by left | done |].
           right. done.
    + destruct (IH r Hf' Hnd) as (r' & -> & Hr').
      { intros n Hin. apply Hr. by apply list_elem_of_further. }
      exists r'. split; [done |]. intros n t. rewrite Hr', elem_of_cons.
      split.
      * intros [H | [Hin Ht]]; [by left | right; split; [by right | done]].
      * intros [H | [[[= -> ->] | Hin] Ht]]; [by left | congruence |].
        right. done.
Qed.

Lemma public_filter_eq (opts : gmap string search_value) :
  match opts !! "is_public" with
  | Some v => {[ "is_public" := v ]}
  | None => ∅
  end = public_filter opts.
Proof.
  unfold public_filter. apply map_eq. intros k. apply option_eq. intros v.
  rewrite map_lookup_filter_Some. cbn [fst].
  destruct (opts !! "is_public") as [v0|] eqn:Hp.
  - rewrite lookup_singleton_Some. split.
    + intros [<- <-]. done.
    + intros [Hk ->]. split; [done | congruence].
  - rewrite lookup_empty. split; [done |]. intros [Hk ->]. congruence.
Qed.

Lemma other_options_nonempty (opts : gmap string search_value) (k : string) :
  k ≠ "is_public" -> is_Some (opts !! k) ->
  base.delete "is_public" opts ≠ ∅.
Proof.
  intros Hk [v Hv] Hempty.
  assert (base.delete "is_public" opts !! k = Some v) as H.
  { by rewrite lookup_delete_ne. }
  rewrite Hempty in H. by rewrite lookup_empty in H.
Qed.

Lemma group_type_get_by_name_done (name : string) (w : World) (t : GroupType) :
  group_type_get_by_name name w = Done t ->
  group_type_name t = name /\ exists id, group_types_table w !! id = Some t.
Proof.
  unfold group_type_get_by_name.
  destruct (filter _ _) as [|[id t0] l] eqn:Hl; [done |].
  intros [= <-]. cbn [snd].
  assert ((id, t0) ∈ filter (fun kv : string * GroupType =>
                               group_type_name kv.2 = name)
                            (map_to_list (group_types_table w))) as Hin.
  { rewrite Hl. apply list_elem_of_here. }
  apply list_elem_of_filter in Hin as [Hname Hin%elem_of_map_to_list].
  split; [done | by exists id].
Qed.

Lemma group_type_get_by_name_fail (name : string) (w : World)
      (e : registry_exn) :
  group_type_get_by_name name w = Fail e ->
  e = GroupTypeNotFoundByName name
  /\ forall id t, group_types_table w !! id = Some t ->
                  group_type_name t ≠ name.
Proof.
  unfold group_type_get_by_name.
  destruct (filter _ _) as [|[id t0] l] eqn:Hl; [| done].
  intros [= <-]. split; [done |]. intros id t Hid Hname.
  assert ((id, t) ∈ filter (fun kv : string * GroupType =>
                              group_type_name kv.2 = name)
                           (map_to_list (group_types_table w))) as Hin.
  { apply list_elem_of_filter. split; [done | by apply elem_of_map_to_list]. }
  rewrite Hl in Hin. by apply elem_of_nil in Hin.
Qed.

(** X25: [get_group_type_extra_specs] with a key returns a value
    exactly when the key is not empty, the group type is stored, and
    its extra specs hold a value for the key that is not the empty
    string; it returns [False] exactly when, for such a key and type,
    the key is missing or its value is the empty string: an empty value
    is reported like a missing one. *)
Theorem get_group_type_extra_specs_value (group_type_id : option string)
        (key : string) (w : World) :
  (forall value,
      get_group_type_extra_specs group_type_id (Some key) w
      = Done (OneSpec value)
      <-> key ≠ "" /\ value ≠ ""
          /\ exists id t extra_specs,
              group_type_id = Some id
              /\ group_types_table w !! id = Some t
              /\ group_type_extra_specs t = Some extra_specs
              /\ extra_specs !! key = Some value)
  /\ (get_group_type_extra_specs group_type_id (Some key) w = Done IsFalse
      <-> key ≠ ""
          /\ exists id t extra_specs,
              group_type_id = Some id
              /\ group_types_table w !! id = Some t
              /\ group_type_extra_specs t = Some extra_specs
              /\ (extra_specs !! key = None \/ extra_specs !! key = Some "")).
Proof.
  unfold get_group_type_extra_specs, group_types.get_group_type,
    db.group_type_get, db.lookup_or. cbn [truthy].
  split; [intros value |]; split.
  - destruct group_type_id as [id|]; [| done].
    destruct (group_types_table w !! id) as [t|] eqn:Ht; [| done].
    destruct (bool_decide (key = "")) eqn:Hkey; cbn [negb]; [done |].
    apply bool_decide_eq_false in Hkey.
    destruct (group_type_extra_specs t) as [extra_specs|] eqn:Hes; [| done].
    destruct (extra_specs !! key) as [v|] eqn:Hv; [| done].
    destruct (bool_decide (v = "")) eqn:Hval; cbn [negb]; [done |].
    apply bool_decide_eq_false in Hval.
    intros [= <-]. split; [done |]. split; [done |].
    by exists id, t, extra_specs.
  - intros (Hkey & Hval & id & t & extra_specs & -> & -> & -> & ->).
    rewrite !bool_decide_eq_false_2 by done. done.
  - destruct group_type_id as [id|]; [| done].
    destruct (group_types_table w !! id) as [t|] eqn:Ht; [| done].
    destruct (bool_decide (key = "")) eqn:Hkey; cbn [negb]; [done |].
    apply bool_decide_eq_false in Hkey.
    destruct (group_type_extra_specs t) as [extra_specs|] eqn:Hes; [| done].
    destruct (extra_specs !! key) as [v|] eqn:Hv.
    + destruct (bool_decide (v = "")) eqn:Hval; cbn [negb]; [| done].
      apply bool_decide_eq_true in Hval as ->.
      intros _. split; [done |]. exists id, t, extra_specs. auto.
    + intros _. split; [done |]. exists id, t, extra_specs. auto.
  - intros (Hkey & id & t & extra_specs & -> & -> & -> & [-> | ->]);
      rewrite bool_decide_eq_false_2 by done; cbn [negb]; done.
Qed.

End RegistryLists.

Section RegistrySearch.
Import group_type_registry.
Variable group_type_get_all :
  Z -> gmap string search_value -> World -> gmap string GroupType.

Abbreviation get_all_types :=
  (group_type_registry.get_all_types group_type_get_all).

Lemma get_all_types_eq (inactive : Z)
      (search_opts : option (gmap string search_value)) (w : World) :
  let opts := default ∅ search_opts in
  let stored := group_type_get_all inactive (public_filter opts) w in
  get_all_types inactive search_opts w
  = if bool_decide (base.delete "is_public" opts = ∅) then Done stored
    else filter_types (map_to_list stored)
           (map_to_list (base.delete "is_public" opts)) ∅.
Proof.
  intros opts stored. unfold group_type_registry.get_all_types.
  fold opts. cbn zeta. by rewrite public_filter_eq.
Qed.

(** X20: [get_all_types] with an [extra_specs] search option returns
    exactly those types of the store's answer whose extra specs contain
    every pair of the option, whatever other options are given; the
    store itself is asked with the [is_public] option only. *)
Theorem get_all_types_filters_by_extra_specs (inactive : Z)
        (search_opts : option (gmap string search_value))
        (d : gmap string string) (w : World) :
  let opts := default ∅ search_opts in
  let stored := group_type_get_all inactive (public_filter opts) w in
  opts !! "extra_specs" = Some (SearchSpecs d) ->
  (forall n t, stored !! n = Some t -> group_type_extra_specs t ≠ None) ->
  get_all_types inactive search_opts w
  = Done (filter (fun kv => specs_match d kv.2 = true) stored).
Proof.
  intros opts stored Hopt Hspecs. rewrite get_all_types_eq. fold opts stored.
  rewrite bool_decide_eq_false_2
    by (apply (other_options_nonempty opts "extra_specs"); done).
  destruct (filter_types_lookup (specs_match d) (map_to_list stored)
              (map_to_list (base.delete "is_public" opts)) ∅)
    as (r & -> & Hr).
  - intros n t Hin%elem_of_map_to_list.
    apply any_filter_matches_spec.
    + by eapply Hspecs.
    + apply NoDup_fst_map_to_list.
    + apply elem_of_map_to_list. by rewrite lookup_delete_ne.
  - apply NoDup_fst_map_to_list.
  - intros n _. apply lookup_empty.
  - f_equal. apply map_eq. intros n. apply option_eq. intros t.
    rewrite Hr, lookup_empty, map_lookup_filter_Some, elem_of_map_to_list.
    cbn [snd]. split; [intros [H | H]; done | intros H; by right].
Qed.

(** X21: search options that [get_all_types] does not know are not
    ignored: if some option other than [is_public] is given and none
    is [extra_specs], the result is empty, whatever the store holds. *)
Theorem get_all_types_unknown_options_give_nothing (inactive : Z)
        (search_opts : option (gmap string search_value)) (k : string)
        (w : World) :
  let opts := default ∅ search_opts in
  opts !! "extra_specs" = None ->
  k ≠ "is_public" ->
  is_Some (opts !! k) ->
  get_all_types inactive search_opts w = Done ∅.
Proof.
  intros opts Hno Hk Hsome. rewrite get_all_types_eq. fold opts.
  rewrite bool_decide_eq_false_2 by by apply (other_options_nonempty opts k).
  apply filter_types_none.
  intros ([k' v] & Hk' & Hin%elem_of_map_to_list)%list_elem_of_fmap.
  cbn [fst] in Hk'. subst k'.
  rewrite lookup_delete_ne in Hin by done. congruence.
Qed.

(** X22: whatever [get_all_types] returns is part of the store's answer
    to the [is_public] filter: no type is made up or altered. *)
Theorem get_all_types_returns_stored_types (inactive : Z)
        (search_opts : option (gmap string search_value)) (w : World)
        (types : gmap string GroupType) :
  get_all_types inactive search_opts w = Done types ->
  types ⊆ group_type_get_all inactive
            (public_filter (default ∅ search_opts)) w.
Proof.
  rewrite get_all_types_eq. case_bool_decide.
  - by intros [= <-].
  - intros Hf. apply map_subseteq_spec. intros n t Hn.
    destruct (filter_types_from _ _ _ _ Hf n t Hn) as [H0 | Hin].
    + by rewrite lookup_empty in H0.
    + by apply elem_of_map_to_list.
Qed.

End RegistrySearch.

Section RegistryLookup.
Import group_type_registry.
Variable default_group_type : option string.
Variable is_uuid_like : string -> bool.

Abbreviation get_group_type_by_name_or_id :=
  (group_type_registry.get_group_type_by_name_or_id default_group_type
     is_uuid_like).

(** X23: without an argument ([None] or the empty string),
    [get_group_type_by_name_or_id] returns a stored type that has the
    configured default name, or raises [GroupTypeNotFound]; the latter
    both when no default is configured and when no stored type has the
    default name, where the store's [GroupTypeNotFoundByName] is
    swallowed. *)
Theorem get_group_type_by_name_or_id_default (group_type : option string)
        (w : World) :
  truthy group_type = false ->
  (exists name t id,
      default_group_type = Some name
      /\ get_group_type_by_name_or_id group_type w = Done t
      /\ group_type_name t = name
      /\ group_types_table w !! id = Some t)
  \/ (get_group_type_by_name_or_id group_type w
      = Fail (GroupTypeNotFound "Default group type not found")
      /\ forall name id t,
          default_group_type = Some name ->
          group_types_table w !! id = Some t -> group_type_name t ≠ name).
Proof.
  intros Hfalsy.
  assert (get_group_type_by_name_or_id group_type w
          = match get_default_group_type default_group_type w with
            | Fail e => Fail e
            | Done (Found group_type_ref) => Done group_type_ref
            | Done _ => Fail (GroupTypeNotFound "Default group type not found")
            end) as ->.
  { unfold group_type_registry.get_group_type_by_name_or_id.
    destruct group_type as [s|]; [| done]. by rewrite Hfalsy. }
  unfold get_default_group_type, get_group_type_by_name.
  destruct default_group_type as [name|]; [| right; split; [done | done]].
  destruct (group_type_get_by_name name w) as [t|e] eqn:Hget.
  - left. apply group_type_get_by_name_done in Hget as [Hname [id Hid]].
    by exists name, t, id.
  - right. apply group_type_get_by_name_fail in Hget as [-> Hnone].
    split; [done |]. intros name' id t [= <-]. apply Hnone.
Qed.

(** X24: with an argument, [get_group_type_by_name_or_id] looks the
    type up by identifier when the argument looks like a UUID, raising
    the store's [ShareGroupTypeNotFound] when it is absent, and by name
    otherwise, returning a stored type of that name or raising
    [GroupTypeNotFoundByName]. *)
Theorem get_group_type_by_name_or_id_lookup (name : string) (w : World) :
  name ≠ "" ->
  (is_uuid_like name = true ->
   match group_types_table w !! name with
   | Some t => get_group_type_by_name_or_id (Some name) w = Done t
   | None =>
       get_group_type_by_name_or_id (Some name) w
       = Fail (Manila (ShareGroupTypeNotFound (Some name)))
   end)
  /\ (is_uuid_like name = false ->
      (exists t id,
          get_group_type_by_name_or_id (Some name) w = Done t
          /\ group_type_name t = name
          /\ group_types_table w !! id = Some t)
      \/ (get_group_type_by_name_or_id (Some name) w
          = Fail (GroupTypeNotFoundByName name)
          /\ forall id t, group_types_table w !! id = Some t ->
                          group_type_name t ≠ name)).
Proof.
  intros Hname.
  unfold group_type_registry.get_group_type_by_name_or_id.
  cbn [truthy]. rewrite bool_decide_eq_false_2 by done. cbn [negb].
  split; intros ->.
  - unfold group_types.get_group_type, db.group_type_get, db.lookup_or.
    by destruct (group_types_table w !! name).
  - unfold get_group_type_by_name.
    destruct (group_type_get_by_name name w) as [t|e] eqn:Hget.
    + left. apply group_type_get_by_name_done in Hget as [Hn [id Hid]].
      by exists t, id.
    + right. by apply group_type_get_by_name_fail in Hget as [-> Hnone].
Qed.

End RegistryLookup.

(** ** The further properties on the example deployment *)

Import constants.

Lemma example_generate_uuid_fresh : generates_fresh example_fresh.generate_uuid.
Proof.
  intros w. unfold example_fresh.generate_uuid.
  set (X := dom (share_groups w) ∪ dom (group_snapshots w)
              ∪ dom (group_snapshot_members w)).
  pose proof (is_fresh X) as Hfresh.
  repeat split; apply not_elem_of_dom; set_solver.
Qed.

Lemma world_emptied_group_failed_is_empty :
  group_is_empty example_more.world_emptied "group-failed".
Proof.
  split.
  - assert (map_Forall (fun _ s => share_share_group_id s ≠ Some "group-failed")
              (shares example_more.world_emptied)) as H
      by (apply (bool_decide_unpack _); vm_compute; exact I).
    intros id s Hs. exact (H id s Hs).
  - assert (map_Forall (fun _ s => gs_share_group_id s ≠ "group-failed")
              (group_snapshots example_more.world_emptied)) as H
      by (apply (bool_decide_unpack _); vm_compute; exact I).
    intros id s Hs. exact (H id s Hs).
Qed.

Lemma world_settled_shares_available (id : string) (s : Share) :
  shares example_more.world_settled !! id = Some s ->
  share_share_group_id s = Some "group-placed" ->
  share_status s = STATUS_AVAILABLE.
Proof.
  assert (map_Forall (fun _ s => share_share_group_id s = Some "group-placed"
                                 -> share_status s = STATUS_AVAILABLE)
            (shares example_more.world_settled)) as H
    by (apply (bool_decide_unpack _); vm_compute; exact I).
  intros Hs. exact (H id s Hs).
Qed.

Lemma world_settled_no_dangling_member (k : string) (m : GroupSnapshotMember) :
  group_snapshot_members example_more.world_settled !! k = Some m ->
  gsm_group_snapshot_id m
  ≠ example_fresh.generate_uuid example_more.world_settled.
Proof.
  assert (map_Forall
            (fun _ m => gsm_group_snapshot_id m
                        ≠ example_fresh.generate_uuid example_more.world_settled)
            (group_snapshot_members example_more.world_settled)) as H
    by (apply (bool_decide_unpack _); vm_compute; exact I).
  intros Hm. exact (H k m Hm).
Qed.

Lemma example_types_have_extra_specs (n : string) (t : GroupType) :
  example_fresh.group_type_get_all 0
    (public_filter (default ∅ (Some example_more.search_gold))) example.world
  !! n = Some t ->
  group_type_extra_specs t ≠ None.
Proof.
  assert (map_Forall (fun _ t => group_type_extra_specs t ≠ None)
            (example_fresh.group_type_get_all 0
               (public_filter (default ∅ (Some example_more.search_gold)))
               example.world)) as H
    by (apply (bool_decide_unpack _); vm_compute; exact I).
  intros Ht. exact (H n t Ht).
Qed.

(** Cloning the two members of [snap_placed] with a provisioning service
    that has room for one share: the group is gone again, the share that
    was created stays. *)
Lemma create_failure_rolls_back_group_only_witness :
  (share_groups example_more.half_cloned.2
   = share_groups example_more.world_two_members
   /\ group_snapshots example_more.half_cloned.2
      = group_snapshots example_more.world_two_members
   /\ group_snapshot_members example_more.half_cloned.2
      = group_snapshot_members example_more.world_two_members
   /\ sent example_more.half_cloned.2 = sent example_more.world_two_members
   /\ share_groups example_more.half_cloned.2
      !! example.generate_uuid example_more.world_two_members = None
   /\ (forall id s,
         shares example_more.half_cloned.2 !! id = Some s ->
         shares example_more.world_two_members !! id = Some s
         \/ exists req w0,
             example_more.share_api_once req w0 = Ok s
             /\ req_share_group_id req
                = example.generate_uuid example_more.world_two_members
             /\ share_id s = id))
  /\ size (shares example_more.world_two_members) = 3
  /\ size (shares example_more.half_cloned.2) = 4.
Proof.
  split; [| split; vm_compute; reflexivity].
  apply (create_failure_rolls_back_group_only example.generate_uuid
           example_more.share_api_once example.ctx None None None
           (Some "snap-placed") None (Some "gt-both")
           example_more.world_two_members
           (ServiceError "no valid host was found")
           example_more.half_cloned.2);
    vm_compute; reflexivity.
Defined.

(** The failure above comes out of the cloning of the members. *)
Lemma create_raises_validation_or_cloning_error_witness :
  (example_more.refused.2 = example.world
   /\ ((exists msg, ServiceError "no valid host was found" = InvalidInput msg)
       \/ (exists msg,
              ServiceError "no valid host was found" = InvalidGroupSnapshot msg)
       \/ (exists id,
              ServiceError "no valid host was found" = GroupSnapshotNotFound id)
       \/ (exists id,
              ServiceError "no valid host was found" = ShareGroupNotFound id)))
  \/ (exists p w1 w2,
         api.create_record example.generate_uuid example.ctx None None None
           (Some "snap-placed") None (Some "gt-both") example.world
         = (Ok p, w1)
         /\ api.clone_members example.share_api_failing (api.p_group p)
              (api.src_group_snapshot (api.p_source p)) (Some "snap-placed")
              (api.src_share_network_id (api.p_source p)) w1
            = (Raise (ServiceError "no valid host was found"), w2)).
Proof.
  apply (create_raises_validation_or_cloning_error example.generate_uuid
           example.share_api_failing example.ctx None None None
           (Some "snap-placed") None (Some "gt-both") example.world
           (ServiceError "no valid host was found") example_more.refused.2).
  vm_compute; reflexivity.
Defined.

(** No share type is called [st-ghost]. *)
Lemma create_missing_reference_is_invalid_input_witness :
  exists msg,
    api.create example.generate_uuid example.share_api_working example.ctx
      None None (Some ["st-ghost"]) None None (Some "gt-both") example.world
    = (Raise (InvalidInput msg), example.world).
Proof.
  apply (create_missing_reference_is_invalid_input example.generate_uuid
           example.share_api_working example.ctx None None
           (Some ["st-ghost"]) None None (Some "gt-both") example.world
           (api.no_source (Some ["st-ghost"]) None)); [reflexivity |].
  left. exists "st-ghost". split; [apply list_elem_of_here |].
  vm_compute; reflexivity.
Defined.

(** [st_dhss_true] without a share network. *)
Lemma create_dhss_true_requires_network_witness :
  exists msg,
    api.create example.generate_uuid example.share_api_working example.ctx
      None None (Some ["st-true"]) None None (Some "gt-both") example.world
    = (Raise (InvalidInput msg), example.world).
Proof.
  apply (create_dhss_true_requires_network example.generate_uuid
           example.share_api_working example.ctx None None
           (Some ["st-true"]) None None (Some "gt-both") example.world
           "st-true" example.st_dhss_true);
    [reflexivity | reflexivity | apply list_elem_of_here
     | vm_compute; reflexivity | vm_compute; reflexivity].
Defined.

(** [st_dhss_false] with a share network. *)
Lemma create_dhss_false_forbids_network_witness :
  exists msg,
    api.create example.generate_uuid example.share_api_working example.ctx
      None None (Some ["st-false"]) None (Some "net-1") (Some "gt-both")
      example.world
    = (Raise (InvalidInput msg), example.world).
Proof.
  apply (create_dhss_false_forbids_network example.generate_uuid
           example.share_api_working example.ctx None None
           (Some ["st-false"]) None (Some "net-1") (Some "gt-both")
           example.world (api.no_source (Some ["st-false"]) (Some "net-1"))
           "st-false" example.st_dhss_false);
    [reflexivity | reflexivity | apply list_elem_of_here
     | vm_compute; reflexivity | vm_compute; reflexivity].
Defined.

(** [gt_none] supports no share type. *)
Lemma create_share_types_must_be_supported_witness :
  exists msg,
    api.create example.generate_uuid example.share_api_working example.ctx
      None None (Some ["st-false"]) None None (Some "gt-none") example.world
    = (Raise (InvalidInput msg), example.world).
Proof.
  apply (create_share_types_must_be_supported example.generate_uuid
           example.share_api_working example.ctx None None
           (Some ["st-false"]) None None "gt-none" example.gt_none
           example.world (api.no_source (Some ["st-false"]) None) "st-false");
    [reflexivity | vm_compute; reflexivity | apply list_elem_of_here
     | apply not_elem_of_nil].
Defined.

(** The group created from scratch is stored and handed to the
    scheduler; the caller named no share type, so the request holds no
    share type object, while the group has the two share types of its
    group type. *)
Lemma create_stores_and_dispatches_witness :
  share_groups example_more.created.2 !! sg_id example_more.created_group
  = Some example_more.created_group
  /\ sg_status example_more.created_group = STATUS_CREATING
  /\ (exists request_spec,
         sent example_more.created.2
         = app (sent example.world)
             [scheduler_create_share_group (sg_id example_more.created_group)
                request_spec]
         /\ rs_name request_spec = sg_name example_more.created_group
         /\ rs_share_types request_spec = [])
  /\ length (sg_share_types example_more.created_group) = 2.
Proof.
  destruct (create_stores_and_dispatches example.generate_uuid
              example.share_api_working example.ctx (Some "fresh") None None
              None None (Some "gt-both") example.world
              example_more.created_group example_more.created.2)
    as (H1 & H2 & _ & _ & _ & _
        & [(Ht & _)
          | (_ & _ & rs & Hsent & _ & _ & _ & _ & _ & Hname & _ & _ & _ & _
             & _ & Htypes & _)]);
    [vm_compute; reflexivity | discriminate Ht |].
  split; [exact H1 |]. split; [exact H2 |].
  split; [| vm_compute; reflexivity].
  exists rs. split; [exact Hsent |]. split; [exact Hname |].
  exact (Forall2_nil_inv_l _ _ Htypes).
Defined.

(** The group created from scratch can be deleted at once. *)
Lemma create_then_delete_restores_groups_witness :
  exists w'',
    api.delete example.ctx example_more.created_group example_more.created.2
    = (Ok tt, w'')
    /\ share_groups w'' = share_groups example.world
    /\ sent w'' = sent example_more.created.2.
Proof.
  apply (create_then_delete_restores_groups example.generate_uuid
           example.share_api_working example.ctx example.ctx (Some "fresh")
           None None None None (Some "gt-both") example.world
           example_more.created_group example_more.created.2);
    [reflexivity | vm_compute; reflexivity | vm_compute; reflexivity].
Defined.

(** The clone of [snap_placed] cannot. *)
Lemma clone_cannot_be_deleted_at_once_witness :
  exists msg,
    api.delete example.ctx example_more.copied_group example_more.copied.2
    = (Raise (InvalidShareGroup msg), example_more.copied.2).
Proof.
  apply (clone_cannot_be_deleted_at_once example.generate_uuid
           example.share_api_working example.ctx example.ctx None None None
           (Some "snap-placed") None (Some "gt-both") example.world
           example_more.copied_group example_more.copied.2);
    [reflexivity | vm_compute; reflexivity | vm_compute; reflexivity].
Defined.

(** A placed group that is still being created. *)
Lemma delete_requires_final_status_witness :
  api.delete example.ctx example_more.group_creating example.world
  = (Raise (InvalidShareGroup api.msg_group_statuses), example.world)
  /\ forall w',
      api.delete example.ctx example_more.group_creating example.world
      ≠ (Ok tt, w').
Proof.
  apply (delete_requires_final_status example.ctx example_more.group_creating
           example.world); [reflexivity | discriminate | discriminate].
Defined.

(** [group_failed], once its snapshot is gone. *)
Lemma delete_marks_group_deleting_witness :
  exists w',
    api.delete example.ctx example.group_failed example_more.world_emptied
    = (Ok tt, w')
    /\ share_groups w' !! sg_id example.group_failed
       = Some (db.with_status example.group_failed STATUS_DELETING)
    /\ (forall id, id ≠ sg_id example.group_failed ->
                   share_groups w' !! id
                   = share_groups example_more.world_emptied !! id)
    /\ sent w' = app (sent example_more.world_emptied)
                   [share_delete_share_group
                      (db.with_status example.group_failed STATUS_DELETING)]
    /\ shares w' = shares example_more.world_emptied
    /\ group_snapshots w' = group_snapshots example_more.world_emptied.
Proof.
  apply (delete_marks_group_deleting example.ctx example.group_failed
           example.group_failed example_more.world_emptied);
    [reflexivity | by right | exact world_emptied_group_failed_is_empty
     | vm_compute; reflexivity].
Defined.

(** Deleting [group_failed] twice. *)
Lemma delete_twice_is_refused_witness :
  exists w',
    api.delete example.ctx example.group_failed example_more.world_emptied
    = (Ok tt, w')
    /\ bind (api.delete example.ctx example.group_failed)
         (fun _ =>
            bind (api_getters.get example.ctx (sg_id example.group_failed))
              (fun group' => api.delete example.ctx group'))
         example_more.world_emptied
       = (Raise (InvalidShareGroup api.msg_group_statuses), w').
Proof.
  apply (delete_twice_is_refused example.ctx example.group_failed
           example.group_failed example_more.world_emptied);
    [reflexivity | reflexivity | by right
     | exact world_emptied_group_failed_is_empty | vm_compute; reflexivity].
Defined.

(** [group_placed] has been snapshotted. *)
Lemma delete_failure_changes_nothing_witness :
  example.world = example.world
  /\ (InvalidShareGroup api.msg_has_snapshots
      = ShareGroupNotFound (sg_id example.group_placed)
      /\ share_groups example.world !! sg_id example.group_placed = None
      \/ truthy (sg_host example.group_placed) = true
         /\ (InvalidShareGroup api.msg_has_snapshots
             = InvalidShareGroup api.msg_group_statuses
             /\ sg_status example.group_placed ≠ STATUS_AVAILABLE
             /\ sg_status example.group_placed ≠ STATUS_ERROR
             \/ InvalidShareGroup api.msg_has_snapshots
                = InvalidShareGroup api.msg_has_snapshots
                /\ (exists id s,
                       group_snapshots example.world !! id = Some s
                       /\ gs_share_group_id s = sg_id example.group_placed)
             \/ InvalidShareGroup api.msg_has_snapshots
                = InvalidShareGroup api.msg_has_shares
                /\ (exists id s,
                       shares example.world !! id = Some s
                       /\ share_share_group_id s
                          = Some (sg_id example.group_placed)))).
Proof.
  apply (delete_failure_changes_nothing example.ctx example.group_placed
           example.world (InvalidShareGroup api.msg_has_snapshots)
           example.world).
  vm_compute; reflexivity.
Defined.

(** Snapshotting [group_placed] once all of its shares are available. *)
Lemma create_group_snapshot_stores_snapshot_and_members_witness :
  exists w',
    api.create_group_snapshot example_fresh.generate_uuid example.ctx
      (Some "nightly") None "group-placed" example_more.world_settled
    = (Ok example_more.snapshot, w')
    /\ options_of_member
         <$> db.group_snapshot_members_get_all
               (gs_id example_more.snapshot) w'
       ≡ₚ member_options_of example.ctx example_more.snapshot
            <$> db.share_get_all_by_share_group_id "group-placed"
                  example_more.world_settled.
Proof.
  destruct (create_group_snapshot_stores_snapshot_and_members
              example_fresh.generate_uuid example.ctx (Some "nightly") None
              "group-placed" example.group_placed example_more.world_settled
              example_generate_uuid_fresh)
    as (w' & Hrun & _ & _ & _ & _ & _ & _ & Hmembers);
    [vm_compute; reflexivity | reflexivity
     | exact world_settled_shares_available
     | exact world_settled_no_dangling_member |].
  exists w'. split; [exact Hrun | exact Hmembers].
Defined.

(** The snapshot keeps [group_placed] from being deleted. *)
Lemma snapshot_blocks_group_delete_witness :
  api.delete example.ctx example.group_placed example_more.snapshotted.2
  = (Raise (InvalidShareGroup api.msg_has_snapshots),
     example_more.snapshotted.2).
Proof.
  apply (snapshot_blocks_group_delete example_fresh.generate_uuid example.ctx
           example.ctx (Some "nightly") None example.group_placed
           example_more.world_settled example_more.snapshot
           example_more.snapshotted.2);
    [vm_compute; reflexivity | reflexivity | vm_compute; reflexivity].
Defined.

(** [snap_creating] is neither available nor in error. *)
Lemma delete_group_snapshot_requires_final_status_witness :
  api.delete_group_snapshot example.ctx example.snap_creating example.world
  = (Raise (InvalidGroupSnapshot api.msg_snapshot_statuses), example.world).
Proof.
  apply (proj2 (delete_group_snapshot_requires_final_status example.ctx
                  example.snap_creating example.world) example.group_placed);
    [vm_compute; reflexivity | discriminate | discriminate].
Defined.

(** [snap_placed] is available. *)
Lemma delete_group_snapshot_marks_deleting_witness :
  exists w',
    api.delete_group_snapshot example.ctx example.snap_placed example.world
    = (Ok tt, w')
    /\ group_snapshots w'
       = <[gs_id example.snap_placed :=
             db.snap_with_status example.snap_placed STATUS_DELETING]>
           (group_snapshots example.world)
    /\ sent w' = app (sent example.world)
                   [share_delete_group_snapshot example.snap_placed
                      (sg_host example.group_placed)]
    /\ share_groups w' = share_groups example.world
    /\ group_snapshot_members w' = group_snapshot_members example.world
    /\ shares w' = shares example.world.
Proof.
  apply (delete_group_snapshot_marks_deleting example.ctx example.snap_placed
           example.snap_placed example.group_placed example.world);
    [vm_compute; reflexivity | by left | vm_compute; reflexivity].
Defined.

(** Deleting [snap_creating] is refused and changes nothing. *)
Lemma delete_group_snapshot_failure_changes_nothing_witness :
  example.world = example.world
  /\ (InvalidGroupSnapshot api.msg_snapshot_statuses
      = ShareGroupNotFound (gs_share_group_id example.snap_creating)
      /\ share_groups example.world
         !! gs_share_group_id example.snap_creating = None
      \/ InvalidGroupSnapshot api.msg_snapshot_statuses
         = InvalidGroupSnapshot api.msg_snapshot_statuses
         /\ gs_status example.snap_creating ≠ STATUS_AVAILABLE
         /\ gs_status example.snap_creating ≠ STATUS_ERROR
      \/ InvalidGroupSnapshot api.msg_snapshot_statuses
         = GroupSnapshotNotFound (gs_id example.snap_creating)
         /\ group_snapshots example.world !! gs_id example.snap_creating
            = None).
Proof.
  apply (delete_group_snapshot_failure_changes_nothing example.ctx
           example.snap_creating example.world
           (InvalidGroupSnapshot api.msg_snapshot_statuses) example.world).
  vm_compute; reflexivity.
Defined.

(** The snapshot just taken cannot be deleted. *)
Lemma new_snapshot_cannot_be_deleted_witness :
  api.delete_group_snapshot example.ctx example_more.snapshot
    example_more.snapshotted.2
  = (Raise (InvalidGroupSnapshot api.msg_snapshot_statuses),
     example_more.snapshotted.2).
Proof.
  apply (new_snapshot_cannot_be_deleted example_fresh.generate_uuid
           example.ctx example.ctx (Some "nightly") None "group-placed"
           example_more.world_settled example_more.snapshot
           example_more.snapshotted.2).
  vm_compute; reflexivity.
Defined.

(** Of the two group types, only [gt_both] is of the gold tier. *)
Lemma get_all_types_filters_by_extra_specs_witness :
  group_type_registry.get_all_types example_fresh.group_type_get_all 0
    (Some example_more.search_gold) example.world
  = group_type_registry.Done
      (filter (fun kv => specs_match {[ "tier" := "gold" ]} kv.2 = true)
         (example_fresh.group_type_get_all 0
            (public_filter (default ∅ (Some example_more.search_gold)))
            example.world)).
Proof.
  apply (get_all_types_filters_by_extra_specs
           example_fresh.group_type_get_all 0 (Some example_more.search_gold)
           {[ "tier" := "gold" ]} example.world);
    [vm_compute; reflexivity | exact example_types_have_extra_specs].
Defined.

(** A search by name finds nothing. *)
Lemma get_all_types_unknown_options_give_nothing_witness :
  group_type_registry.get_all_types example_fresh.group_type_get_all 0
    (Some example_more.search_name) example.world
  = group_type_registry.Done ∅.
Proof.
  apply (get_all_types_unknown_options_give_nothing
           example_fresh.group_type_get_all 0 (Some example_more.search_name)
           "name" example.world);
    [vm_compute; reflexivity | discriminate | vm_compute; eexists; reflexivity].
Defined.

(** What the search for the gold tier returns is stored. *)
Lemma get_all_types_returns_stored_types_witness :
  ({[ "both" := example.gt_both ]} : gmap string GroupType)
  ⊆ example_fresh.group_type_get_all 0
      (public_filter (default ∅ (Some example_more.search_gold)))
      example.world.
Proof.
  apply (get_all_types_returns_stored_types example_fresh.group_type_get_all 0
           (Some example_more.search_gold) example.world
           {[ "both" := example.gt_both ]}).
  vm_compute; reflexivity.
Defined.

(** With [both] as the default group type, no argument gives [gt_both]. *)
Lemma get_group_type_by_name_or_id_default_witness :
  (exists name t id,
      Some "both" = Some name
      /\ group_type_registry.get_group_type_by_name_or_id (Some "both")
           example_fresh.is_uuid_like None example.world
         = group_type_registry.Done t
      /\ group_type_name t = name
      /\ group_types_table example.world !! id = Some t)
  \/ (group_type_registry.get_group_type_by_name_or_id (Some "both")
        example_fresh.is_uuid_like None example.world
      = group_type_registry.Fail
          (group_type_registry.GroupTypeNotFound "Default group type not found")
      /\ forall name id t,
          Some "both" = Some name ->
          group_types_table example.world !! id = Some t ->
          group_type_name t ≠ name).
Proof.
  apply (get_group_type_by_name_or_id_default (Some "both")
           example_fresh.is_uuid_like None example.world).
  reflexivity.
Defined.

(** [both] is not an identifier: the type is looked up by name. *)
Lemma get_group_type_by_name_or_id_lookup_witness :
  (exists t id,
      group_type_registry.get_group_type_by_name_or_id None
        example_fresh.is_uuid_like (Some "both") example.world
      = group_type_registry.Done t
      /\ group_type_name t = "both"
      /\ group_types_table example.world !! id = Some t)
  \/ (group_type_registry.get_group_type_by_name_or_id None
        example_fresh.is_uuid_like (Some "both") example.world
      = group_type_registry.Fail
          (group_type_registry.GroupTypeNotFoundByName "both")
      /\ forall id t, group_types_table example.world !! id = Some t ->
                      group_type_name t ≠ "both").
Proof.
  apply (get_group_type_by_name_or_id_lookup None example_fresh.is_uuid_like
           "both" example.world); [discriminate | reflexivity].
Defined.
